(** * zoopla_scraping.py: a shallow embedding and its verified properties

    The script scrapes property listings: a paginated search
    ([get_page_listings]), a per-listing detail fetch
    ([request_listing_data]), extraction of fields from the detail payload
    ([parse_listing]), and the assembly of the final table
    ([clean_property_data]), all driven by [main].

    Python values are modelled as the code has them: a [str] is a sequence
    of Unicode code points, a [dict] is an insertion-ordered association
    list with unique keys, exceptions are explicit results, and the
    network, the console and the clock are an explicit environment and an
    explicit trace of events.  The library functions whose bodies are not
    part of the script ([float], [int], [pandas.to_numeric],
    [BeautifulSoup.find]) are the fields of the [PyRuntime] interface. *)

From Stdlib Require QArith.
From Stdlib Require DecimalNat.
From Stdlib Require Import String Ascii NArith ZArith Lia Bool Arith List.
Import ListNotations.

(** ** Python strings *)

Module PyStr.

(** A character is a Unicode code point, a string a sequence of them. *)
Definition char := N.
Definition str := list char.

(** ASCII literals of the source, as code points. *)
Definition lit (s : string) : str := map N_of_ascii (list_ascii_of_string s).

Definition char_eqb (c d : char) : bool := N.eqb c d.

Fixpoint str_eqb (s t : str) : bool :=
  match s, t with
  | [], [] => true
  | c :: s', d :: t' => char_eqb c d && str_eqb s' t'
  | _, _ => false
  end.

(** [s.startswith(p)] *)
Fixpoint startswith (p s : str) : bool :=
  match p, s with
  | [], _ => true
  | c :: p', d :: s' => char_eqb c d && startswith p' s'
  | _ :: _, [] => false
  end.

(** [s.partition(sep)]: the text before and after the leftmost occurrence
    of [sep]; [None] when [sep] does not occur. *)
Fixpoint partition (sep s : str) : option (str * str) :=
  match s with
  | [] => if startswith sep [] then Some ([], []) else None
  | c :: s' =>
      if startswith sep s then Some ([], skipn (length sep) s)
      else match partition sep s' with
           | Some (a, b) => Some (c :: a, b)
           | None => None
           end
  end.

(** [s.split(sep)] for a non-empty separator (every separator of the script
    is a non-empty literal): the pieces between the leftmost
    non-overlapping occurrences of [sep].  The fuel is the length of the
    string: every piece consumes at least one character. *)
Fixpoint split_fuel (n : nat) (sep s : str) : list str :=
  match n with
  | O => [s]
  | S n' =>
      match partition sep s with
      | None => [s]
      | Some (a, b) => a :: split_fuel n' sep b
      end
  end.

Definition split (sep s : str) : list str := split_fuel (length s) sep s.

(** [s.replace(old, new)]: every leftmost non-overlapping occurrence of
    [old] becomes [new]; an empty [old] matches before every character and
    at the end. *)
Fixpoint replace_fuel (n : nat) (old new s : str) : str :=
  match n with
  | O => s
  | S n' =>
      match partition old s with
      | None => s
      | Some (a, b) => a ++ new ++ replace_fuel n' old new b
      end
  end.

Definition replace (old new s : str) : str :=
  match old with
  | [] => new ++ flat_map (fun c => c :: new) s
  | _ :: _ => replace_fuel (length s) old new s
  end.

(** [c.isspace()]: the code points CPython treats as whitespace. *)
Definition isspace (c : char) : bool :=
  ((9 <=? c) && (c <=? 13) || (28 <=? c) && (c <=? 32)
   || (c =? 133) || (c =? 160) || (c =? 5760)
   || (8192 <=? c) && (c <=? 8202)
   || (c =? 8232) || (c =? 8233) || (c =? 8239) || (c =? 8287)
   || (c =? 12288))%N.

Fixpoint lstrip (s : str) : str :=
  match s with
  | [] => []
  | c :: s' => if isspace c then lstrip s' else s
  end.

(** [s.strip()] *)
Definition strip (s : str) : str := rev (lstrip (rev (lstrip s))).

(** [sep in s] as a proposition. *)
Definition occurs (sep s : str) : Prop := exists a b, s = a ++ sep ++ b.

(** [sep in s], computed. *)
Definition contains (sep s : str) : bool :=
  match partition sep s with
  | Some _ => true
  | None => false
  end.

(** [a] is where the leftmost occurrence of [sep] in [s] starts. *)
Definition first_at (sep a s : str) : Prop :=
  (exists b, s = a ++ sep ++ b) /\
  forall a' b', s = a' ++ sep ++ b' -> length a <= length a'.

(** [xs[i]] on a list: [None] stands for [IndexError]. *)
Definition item {A} (xs : list A) (i : nat) : option A := nth_error xs i.

End PyStr.
Export PyStr.


(** ** Python dictionaries

    A [dict] keeps its keys unique and in insertion order; assigning to a
    key that is already present replaces the value in place. *)

Module PyDict.

Definition dict (V : Type) := list (str * V).

Fixpoint dict_get {V} (k : str) (d : dict V) : option V :=
  match d with
  | [] => None
  | (k', v) :: d' => if str_eqb k k' then Some v else dict_get k d'
  end.

(** [d[k] = v] *)
Fixpoint dict_set {V} (k : str) (v : V) (d : dict V) : dict V :=
  match d with
  | [] => [(k, v)]
  | (k', v') :: d' =>
      if str_eqb k k' then (k, v) :: d' else (k', v') :: dict_set k v d'
  end.

Definition keys {V} (d : dict V) : list str := map fst d.
Definition values {V} (d : dict V) : list V := map snd d.

Definition mem (k : str) (ks : list str) : bool := existsb (str_eqb k) ks.

End PyDict.
Export PyDict.

(** ** The library functions the script calls

    [float(s)] and [int(s)] return [None] where Python raises
    [ValueError]; [to_numeric s] is
    [pd.to_numeric(s, errors='coerce')] followed by [astype('int')], with
    [None] where the value is coerced to NaN; [float_to_int] is the cast
    [astype('int')] applies to a float;
    [find_section_text html] is the [.text] of
    [BeautifulSoup(html,'lxml').find('section',
    {'data-testid':"page_features_section"})], with [None] where [find]
    returns [None]. *)
Class PyRuntime := {
  pyfloat : Type;
  pyfloat_eq_dec : forall x y : pyfloat, {x = y} + {x <> y};
  float_of_str : str -> option pyfloat;
  int_of_str : str -> option Z;
  to_numeric : str -> option Z;
  float_to_int : pyfloat -> Z;
  find_section_text : str -> option str
}.

(** Decimal digits and the number a digit string denotes. *)
Definition is_digit (c : char) : bool := ((48 <=? c) && (c <=? 57))%N.

Definition digits_value (ds : str) : Z :=
  fold_left (fun acc c => (10 * acc + (Z.of_N c - 48))%Z) ds 0%Z.

(** What the script relies on from [pd.to_numeric]: a non-empty string of
    decimal digits that fits the 64-bit integer column is read as the
    number it denotes. *)
Definition reads_decimal `{PyRuntime} : Prop :=
  forall ds : str,
    ds <> [] -> forallb is_digit ds = true ->
    (digits_value ds < 2 ^ 63)%Z ->
    to_numeric ds = Some (digits_value ds).

Section Scraper.

Context {R : PyRuntime}.

(** ** Data model *)

(** The scalars the script stores in dictionaries and table cells;
    [VNaN] is [np.nan]. *)
Inductive value :=
  | VStr (s : str)
  | VInt (z : Z)
  | VFloat (f : pyfloat)
  | VNaN.

Definition value_eq_dec (x y : value) : {x = y} + {x <> y}.
Proof.
  decide equality.
  - apply (list_eq_dec N.eq_dec).
  - apply Z.eq_dec.
  - apply pyfloat_eq_dec.
Defined.

(** One entry of a listing's [features]. *)
Record feature := { iconId : str; content : value }.

(** A search result item: the fields of the JSON object the script reads
    ([listing['listingUris']['detail']] is [detail]). *)
Record listing := {
  listingId : str;
  address : str;
  price : str;
  features : list feature;
  detail : str
}.

(** The object [requests.get] returns. *)
Record response := { status_code : Z; text : str }.

(** A one-row [DataFrame] built from a dictionary, and a table: rows of
    labelled cells, all rows of a table carrying the same labels. *)
Definition row := dict value.
Definition frame := list row.

Inductive exn :=
  | NameError (name : str)
  | IndexError
  | AttributeError
  | ValueError (msg : str)
  | KeyError (labels : list str)
  | RequestError (msg : str).

(** ** Field extraction ([parse_listing]) *)

(** [text.split(marker)[1].split(stop)[0]]; [None] is the [IndexError] of
    the first index. *)
Definition marker_value (marker stop text : str) : option str :=
  match item (split marker text) 1 with
  | None => None
  | Some piece => item (split stop piece) 0
  end.

Definition quote : str := [34%N].
Definition incode_marker : str := quote ++ lit "incode" ++ quote ++ lit ":" ++ quote.
Definition outcode_marker : str := quote ++ lit "outcode" ++ quote ++ lit ":" ++ quote.
Definition latitude_marker : str := quote ++ lit "latitude" ++ quote ++ lit ": ".
Definition longitude_marker : str := quote ++ lit "longitude" ++ quote ++ lit ": ".
Definition acorn_marker : str := quote ++ lit "acornType" ++ quote ++ lit ":".
Definition property_type_marker : str :=
  quote ++ lit "propertyType" ++ quote ++ lit ":" ++ quote.
Definition comma : str := lit ",".
Definition newline : str := [10%N].
Definition space : str := lit " ".

(** Lines 124-131: (postcode, postcode_district, outcode). *)
Definition extract_postcode (txt : str) : str * str * str :=
  match marker_value incode_marker quote txt with
  | Some postcode_district =>
      match marker_value outcode_marker quote txt with
      | Some outcode => (outcode ++ space ++ postcode_district, postcode_district, outcode)
      | None => ([], [], [])
      end
  | None => ([], [], [])
  end.

(** [float(text.split(marker)[1].split(stop)[0].strip())] *)
Definition float_field (marker stop txt : str) : option pyfloat :=
  match marker_value marker stop txt with
  | Some raw => float_of_str (strip raw)
  | None => None
  end.

(** Lines 132-137: (lat, lon). *)
Definition extract_geo (txt : str) : value * value :=
  match float_field latitude_marker comma txt with
  | Some lat =>
      match float_field longitude_marker newline txt with
      | Some lon => (VFloat lat, VFloat lon)
      | None => (VStr [], VStr [])
      end
  | None => (VStr [], VStr [])
  end.

(** The latitude or longitude marker is missing, or the text that follows
    one of them is not a float. *)
Definition geo_unavailable (txt : str) : Prop :=
  ~ occurs latitude_marker txt \/ ~ occurs longitude_marker txt \/
  (exists raw, marker_value latitude_marker comma txt = Some raw
               /\ float_of_str (strip raw) = None) \/
  (exists raw, marker_value longitude_marker newline txt = Some raw
               /\ float_of_str (strip raw) = None).

(** Lines 138-141. *)
Definition extract_acorn (txt : str) : value :=
  match marker_value acorn_marker comma txt with
  | Some raw =>
      match int_of_str raw with
      | Some n => VInt n
      | None => VStr []
      end
  | None => VStr []
  end.

(** Lines 123-156: the dictionary stored for the listing, or the exception
    that escapes. *)
Definition parse_record (resp : response) (dict1 : dict value) (l : listing)
  : exn + dict value :=
  let '(postcode, postcode_district, outcode) := extract_postcode (text resp) in
  let '(lat, lon) := extract_geo (text resp) in
  let acorn_type := extract_acorn (text resp) in
  match find_section_text (text resp) with
  | None => inl AttributeError
  | Some section =>
      let description := strip section in
      match marker_value property_type_marker quote (text resp) with
      | None => inl IndexError
      | Some property_type =>
          let d := dict_set (lit "property_type") (VStr property_type) dict1 in
          let d := dict_set (lit "postcode") (VStr postcode) d in
          let d := dict_set (lit "outcode") (VStr outcode) d in
          let d := dict_set (lit "postcode_district") (VStr postcode_district) d in
          let d := dict_set (lit "acorn_type") acorn_type d in
          let d := dict_set (lit "display_address")
                     (VStr (replace postcode outcode (address l))) d in
          let d := dict_set (lit "price") (VStr (price l)) d in
          let d := dict_set (lit "latitude") lat d in
          let d := dict_set (lit "longitude") lon d in
          let d := dict_set (lit "description") (VStr description) d in
          inr d
      end
  end.


(** ** The environment and the trace *)

(** What one call of [requests.get] does. *)
Inductive get_result :=
  | GetRaises (e : exn)
  | GetReturns (r : response).

(** What the body of the [try] of [get_page_listings] does: it raises, or
    it reaches [return] with the value under ['regular'] ([None] for a JSON
    null). *)
Inductive post_result :=
  | PostRaises (e : exn)
  | PostReturns (ls : option (list listing)).

(** The world outside the script: the answer to the [k]-th network call,
    the date [datetime.today()] formats, and the names bound in the module
    namespace in addition to those the file itself binds. *)
Record world := {
  post : nat -> str -> nat -> post_result;
  get : nat -> value -> get_result;
  today : str;
  extra_globals : list str
}.

(** The names the file binds at module level (imports and [def]s). *)
Definition module_globals : list str :=
  map lit ["requests"; "BeautifulSoup"; "pd"; "np"; "sys"; "time"; "Timeout";
           "ConnectionError"; "datetime"; "json"; "urllib3"; "get_response";
           "get_page_listings"; "request_listing_data"; "parse_listing";
           "clean_property_data"; "main"]%string.

(** Looking a global name up; [false] is a [NameError]. *)
Definition bound (W : world) (name : string) : bool :=
  mem (lit name) (module_globals ++ extra_globals W).

Inductive message :=
  | MsgPostError (e : exn)
  | MsgGetError (e : exn)
  | MsgValue (v : value)
  | MsgStatus (code : Z)
  | MsgScrapingPage (page_num : nat)
  | MsgCompleted
  | MsgExn (e : exn).

Inductive event :=
  | EvPost (property_type : str) (page_num : nat) (r : post_result)
  | EvGet (url : value) (r : get_result)
  | EvPrint (m : message)
  | EvWrite (s : str)
  | EvSleep (seconds : nat)
  | EvExcel (file : str) (table : frame)
  | EvNotify (e : exn).

(** The state a run threads: the number of network calls made so far and
    the dictionary [dict2] that [parse_listing] mutates in place. *)
Record state := { clock : nat; dict2 : dict row }.

Inductive result (A : Type) :=
  | Ret (a : A)
  | Raise (e : exn)
  | Hang.
Arguments Ret {A} a.
Arguments Raise {A} e.
Arguments Hang {A}.

(** A computation: from a state, the events emitted, the state reached and
    how it ended.  [Hang] is a loop that has not ended within the fuel. *)
Definition M (A : Type) := state -> list event * state * result A.

Definition ret {A} (a : A) : M A := fun s => ([], s, Ret a).
Definition raise {A} (e : exn) : M A := fun s => ([], s, Raise e).
Definition hang {A} : M A := fun s => ([], s, Hang).
Definition emit (evs : list event) : M unit := fun s => (evs, s, Ret tt).

Definition bind {A B} (m : M A) (k : A -> M B) : M B :=
  fun s =>
    let '(ev1, s1, r1) := m s in
    match r1 with
    | Ret a => let '(ev2, s2, r2) := k a s1 in (ev1 ++ ev2, s2, r2)
    | Raise e => (ev1, s1, Raise e)
    | Hang => (ev1, s1, Hang)
    end.

Notation "x <- m ;; k" := (bind m (fun x => k))
  (at level 61, m at next level, right associativity).
Notation "m ;;; k" := (bind m (fun _ => k))
  (at level 61, right associativity).

(** [for x in xs: body(x)] *)
Fixpoint for_each {A} (xs : list A) (body : A -> M unit) : M unit :=
  match xs with
  | [] => ret tt
  | x :: xs' => body x ;;; for_each xs' body
  end.

Definition events {A} (o : list event * state * result A) : list event :=
  fst (fst o).
Definition final {A} (o : list event * state * result A) : state :=
  snd (fst o).
Definition outcome {A} (o : list event * state * result A) : result A :=
  snd o.

(** ** The search fetch ([get_page_listings]) *)

Definition tick (s : state) : state :=
  {| clock := S (clock s); dict2 := dict2 s |}.

(** [str(n)] of a non-negative [int]: its decimal digits, most significant
    first. *)
Fixpoint uint_chars (u : Decimal.uint) : str :=
  match u with
  | Decimal.Nil => []
  | Decimal.D0 u' => 48%N :: uint_chars u'
  | Decimal.D1 u' => 49%N :: uint_chars u'
  | Decimal.D2 u' => 50%N :: uint_chars u'
  | Decimal.D3 u' => 51%N :: uint_chars u'
  | Decimal.D4 u' => 52%N :: uint_chars u'
  | Decimal.D5 u' => 53%N :: uint_chars u'
  | Decimal.D6 u' => 54%N :: uint_chars u'
  | Decimal.D7 u' => 55%N :: uint_chars u'
  | Decimal.D8 u' => 56%N :: uint_chars u'
  | Decimal.D9 u' => 57%N :: uint_chars u'
  end.

Definition str_of_nat (n : nat) : str := uint_chars (Nat.to_uint n).

(** Line 81: the f-string of the search path. *)
Definition search_path (property_type : str) (page_num : nat) : str :=
  lit "/for-sale/property/england/?added=24_hours&property_type="
    ++ property_type ++ lit "&pn=" ++ str_of_nat page_num.

(** Lines 76-91: the request is made; any exception is printed and [None]
    is returned. *)
Definition get_page_listings (W : world) (page_num : nat) (property_type : str)
  : M (option (list listing)) :=
  fun s =>
    let r := post W (clock s) property_type page_num in
    match r with
    | PostRaises e =>
        ([EvPost property_type page_num r; EvPrint (MsgPostError e)], tick s, Ret None)
    | PostReturns ls => ([EvPost property_type page_num r], tick s, Ret ls)
    end.

(** ** The detail fetch ([request_listing_data]) *)

Definition base_url : str := lit "https://www.zoopla.co.uk".

(** Lines 95-100: [dict1] with the url and one entry per feature. *)
Definition listing_dict (l : listing) : dict value :=
  fold_left (fun d f => dict_set (iconId f) (content f) d) (features l)
            [(lit "url", VStr (base_url ++ detail l))].

(** Line 101: [ln = dict1['url']] (the key is always present). *)
Definition listing_url (dict1 : dict value) : value :=
  match dict_get (lit "url") dict1 with
  | Some v => v
  | None => VNaN
  end.

(** Lines 110-112, the body of the [try]: the name [params] is looked up,
    the request is made, the status is printed and the latitude marker is
    indexed.  The result is the exception the [except] clause receives, or
    the response with which the loop breaks. *)
Definition try_get (W : world) (ln : value) : M (exn + response) :=
  fun s =>
    if bound W "params" then
      let r := get W (clock s) ln in
      match r with
      | GetRaises e => ([EvGet ln r], tick s, Ret (inl e))
      | GetReturns resp =>
          ([EvGet ln r; EvPrint (MsgStatus (status_code resp))], tick s,
           Ret (match item (split latitude_marker (text resp)) 1 with
                | Some _ => inr resp
                | None => inl IndexError
                end))
      end
    else ([], s, Ret (inl (NameError (lit "params")))).

(** Lines 114-118: what the [except] clause does before [continue]. *)
Definition retry_events (ln : value) (e : exn) : list event :=
  [EvPrint (MsgGetError e); EvPrint (MsgValue ln); EvSleep 30].

(** Lines 102-118: [while True]. *)
Fixpoint fetch_loop (W : world) (fuel : nat) (ln : value) : M response :=
  match fuel with
  | O => hang
  | S fuel' =>
      r <- try_get W ln ;;
      match r with
      | inr resp => ret resp
      | inl e => emit (retry_events ln e) ;;; fetch_loop W fuel' ln
      end
  end.

Definition request_listing_data (W : world) (fuel : nat) (l : listing)
  : M (response * dict value) :=
  let dict1 := listing_dict l in
  resp <- fetch_loop W fuel (listing_url dict1) ;;
  ret (resp, dict1).

(** ** [parse_listing] *)

(** Line 157: [dict2[listing['listingId']] = pd.DataFrame(dict1,index=[0])],
    reached only when no exception escaped before. *)
Definition parse_listing (resp : response) (dict1 : dict value) (l : listing)
  : M unit :=
  fun s =>
    match parse_record resp dict1 l with
    | inl e => ([], s, Raise e)
    | inr d =>
        ([], {| clock := clock s; dict2 := dict_set (listingId l) d (dict2 s) |},
         Ret tt)
    end.

(** ** The dataset builder ([clean_property_data]) *)

(** The labels of a table. *)
Definition columns (df : frame) : list str :=
  match df with
  | [] => []
  | r :: _ => map fst r
  end.

(** The union of the labels of the rows, in order of first appearance. *)
Definition union_columns (ds : list row) : list str :=
  fold_left (fun cols d => cols ++ filter (fun c => negb (mem c cols)) (keys d))
            ds [].

Definition reindex (cols : list str) (d : row) : row :=
  map (fun c => (c, match dict_get c d with Some v => v | None => VNaN end)) cols.

(** [pd.concat(frames, sort=False)] of one-row frames. *)
Definition concat_rows (ds : list row) : exn + frame :=
  match ds with
  | [] => inl (ValueError (lit "No objects to concatenate"))
  | _ :: _ => inr (map (reindex (union_columns ds)) ds)
  end.

(** [df[label] = v] for a scalar [v]. *)
Definition assign (label : str) (v : value) (df : frame) : frame :=
  map (dict_set label v) df.

Definition pound : char := 163%N.

(** [re.sub('[£,]', '', s)] *)
Definition strip_price (s : str) : str :=
  filter (fun c => negb (char_eqb c pound || char_eqb c 44%N)) s.

(** Line 164 on one cell: the substitution touches strings only, what
    cannot be read as a number becomes NaN and then [0]. *)
Definition price_cell (v : value) : value :=
  match v with
  | VStr s => VInt (match to_numeric (strip_price s) with
                    | Some n => n
                    | None => 0%Z
                    end)
  | VInt z => VInt z
  | VFloat f => VInt (float_to_int f)
  | VNaN => VInt 0%Z
  end.

Definition update_price (r : row) : row :=
  match dict_get (lit "price") r with
  | Some v => dict_set (lit "price") (price_cell v) r
  | None => r
  end.

(** Line 166. *)
Definition rename_label (c : str) : str :=
  if str_eqb c (lit "chair") then lit "num_recepts"
  else if str_eqb c (lit "bed") then lit "num_beds"
  else if str_eqb c (lit "bath") then lit "num_baths"
  else c.

Definition rename (df : frame) : frame :=
  map (map (fun cell => (rename_label (fst cell), snd cell))) df.

(** Line 167: [df.replace('', np.nan)]. *)
Definition nan_if_empty (v : value) : value :=
  match v with
  | VStr [] => VNaN
  | _ => v
  end.

Definition replace_empty (df : frame) : frame :=
  map (map (fun cell => (fst cell, nan_if_empty (snd cell)))) df.

(** Lines 168-169. *)
Definition final_columns : list str :=
  map lit ["property_type"; "price"; "postcode_district"; "num_baths";
           "postcode"; "outcode"; "acorn_type"; "display_address";
           "num_recepts"; "num_beds"; "url"; "listing_condition"; "latitude";
           "longitude"; "description"]%string.

(** [df[labels]]: every column carrying a requested label, in the order of
    the request; a label no column carries is a [KeyError]. *)
Definition select_row (labels : list str) (r : row) : row :=
  flat_map (fun l => filter (fun cell => str_eqb (fst cell) l) r) labels.

Definition select (labels : list str) (df : frame) : exn + frame :=
  match filter (fun l => negb (mem l (columns df))) labels with
  | [] => inr (map (select_row labels) df)
  | missing => inl (KeyError missing)
  end.

Definition row_eq_dec (r1 r2 : row) : {r1 = r2} + {r1 <> r2}.
Proof.
  apply list_eq_dec. intros x y. decide equality.
  - apply value_eq_dec.
  - apply (list_eq_dec N.eq_dec).
Defined.

Definition row_eqb (r1 r2 : row) : bool :=
  if row_eq_dec r1 r2 then true else false.

(** [df.drop_duplicates()]: the first of equal rows is kept. *)
Fixpoint drop_duplicates_from (seen : list row) (df : frame) : frame :=
  match df with
  | [] => []
  | r :: df' =>
      if existsb (row_eqb r) seen then drop_duplicates_from seen df'
      else r :: drop_duplicates_from (r :: seen) df'
  end.

Definition drop_duplicates (df : frame) : frame := drop_duplicates_from [] df.

(** Lines 162-171: the table [to_excel] receives, or the exception. *)
Definition build_table (records : list row) (dt : str) : exn + frame :=
  match concat_rows records with
  | inl e => inl e
  | inr df =>
      let df := assign (lit "listing_condition") (VStr (lit "pre-owned")) df in
      match (if mem (lit "price") (columns df) then inr (map update_price df)
             else inl (KeyError [lit "price"])) with
      | inl e => inl e
      | inr df =>
          let df := assign (lit "listing_id") VNaN df in
          let df := rename df in
          let df := replace_empty df in
          match select final_columns df with
          | inl e => inl e
          | inr df =>
              let df := assign (lit "date") (VStr dt) df in
              inr (drop_duplicates df)
          end
      end
  end.

Definition clean_property_data (d2 : dict row) (dt : str) : M unit :=
  match build_table (values d2) dt with
  | inl e => raise e
  | inr df => emit [EvExcel (lit "zoopla_data.xlsx") df]
  end.

(** ** The orchestrator ([main]) *)

Definition property_types : list str :=
  map lit ["farms_land"; "semi_detached"; "flats"; "detached"; "terraced";
           "bungalow"; "park_home"]%string.

(** Lines 194-197: one listing. *)
Definition process_listing (W : world) (fuel : nat) (l : listing) : M unit :=
  rd <- request_listing_data W fuel l ;;
  parse_listing (fst rd) (snd rd) l ;;;
  emit [EvWrite (lit ".")].

(** Lines 187-198: [while True] over the pages of one property type. *)
Fixpoint scrape_pages (W : world) (fuel : nat) (property_type : str)
                      (page_num : nat) : M unit :=
  match fuel with
  | O => hang
  | S fuel' =>
      listings <- get_page_listings W page_num property_type ;;
      emit [EvPrint (MsgScrapingPage page_num)] ;;;
      match listings with
      | None | Some [] => emit [EvPrint MsgCompleted]
      | Some ls =>
          for_each ls (process_listing W fuel) ;;;
          scrape_pages W fuel' property_type (S page_num)
      end
  end.

(** Lines 179-199: the body of the [try]. *)
Definition main_body (W : world) (fuel : nat) : M unit :=
  let dt := today W in
  for_each property_types (fun pt => scrape_pages W fuel pt 1) ;;;
  fun s => clean_property_data (dict2 s) dt s.

(** Lines 200-202: the handler prints the exception and evaluates
    [send_discord_notification(df,e)]: the callee and then the argument
    [df] are looked up as global names. *)
Definition handler (W : world) (e : exn) : M unit :=
  emit [EvPrint (MsgExn e)] ;;;
  if bound W "send_discord_notification" then
    if bound W "df" then emit [EvNotify e]
    else raise (NameError (lit "df"))
  else raise (NameError (lit "send_discord_notification")).

Definition try_except {A} (body : M A) (h : exn -> M A) : M A :=
  fun s =>
    let '(ev1, s1, r1) := body s in
    match r1 with
    | Raise e => let '(ev2, s2, r2) := h e s1 in (ev1 ++ ev2, s2, r2)
    | _ => (ev1, s1, r1)
    end.

Definition initial : state := {| clock := 0; dict2 := [] |}.

Definition main (W : world) (fuel : nat) : list event * state * result unit :=
  try_except (main_body W fuel) (handler W) initial.

End Scraper.

Arguments Ret {A} a.
Arguments Raise {A} e.
Arguments Hang {A}.

(** ** Vocabulary of the properties *)

Section Vocabulary.

Context {R : PyRuntime}.

(** The results of a search fetch on which [main] leaves the page loop: an
    exception (turned into [None]), [None], or an empty list. *)
Definition ends_pagination (r : post_result) : bool :=
  match r with
  | PostReturns (Some (_ :: _)) => false
  | _ => true
  end.

Definition is_post (e : event) : Prop :=
  match e with
  | EvPost _ _ _ => True
  | _ => False
  end.

(** No search request for [pt] among the events. *)
Definition no_post_for (pt : str) (evs : list event) : Prop :=
  Forall (fun e => match e with
                   | EvPost pt' _ _ => pt' <> pt
                   | _ => True
                   end) evs.

(** After a search request that ends the pagination of a property type, no
    later search request is for that property type. *)
Fixpoint stops_after_empty (evs : list event) : Prop :=
  match evs with
  | [] => True
  | EvPost pt _ r :: rest =>
      (ends_pagination r = true -> no_post_for pt rest) /\ stops_after_empty rest
  | _ :: rest => stops_after_empty rest
  end.

(** Every search request among the events is for one of [pts]. *)
Definition posts_from (pts : list str) (e : event) : Prop :=
  match e with
  | EvPost pt _ _ => In pt pts
  | _ => True
  end.

(** What the handler emits after printing the exception, and how it ends. *)
Definition notify_tail (W : world) (e : exn) : list event :=
  if bound W "send_discord_notification" && bound W "df" then [EvNotify e]
  else [].

Definition handler_outcome (W : world) : result unit :=
  if bound W "send_discord_notification" then
    if bound W "df" then Ret tt else Raise (NameError (lit "df"))
  else Raise (NameError (lit "send_discord_notification")).

(** A detail response the fetch accepted (it carries the latitude marker)
    in which the feature section is missing. *)
Definition bad_get (e : event) : Prop :=
  match e with
  | EvGet _ (GetReturns resp) =>
      occurs latitude_marker (text resp) /\ find_section_text (text resp) = None
  | _ => False
  end.

Definition clean_run {A} (o : list event * state * result A) : Prop :=
  Forall (fun e => ~ bad_get e) (events o).

(** The run ended with [AttributeError] right after the first such
    response was received and its status printed. *)
Definition aborted {A} (o : list event * state * result A) : Prop :=
  exists evs url resp,
    events o = evs ++ [EvGet url (GetReturns resp);
                       EvPrint (MsgStatus (status_code resp))] /\
    Forall (fun e => ~ bad_get e) evs /\
    bad_get (EvGet url (GetReturns resp)) /\
    outcome o = Raise AttributeError.

Definition aborts_on_bad {A} (m : M A) : Prop :=
  forall s, clean_run (m s) \/ aborted (m s).

(** Whether [url] was requested. *)
Definition fetched (url : value) (evs : list event) : bool :=
  existsb (fun e => match e with
                    | EvGet u _ => if value_eq_dec url u then true else false
                    | _ => false
                    end) evs.

(** Lines 163-170 on one row of the concatenated table. *)
Definition final_row (cols : list str) (dt : str) (r : row) : row :=
  dict_set (lit "date") (VStr dt)
    (select_row final_columns
       (map (fun cell => (fst cell, nan_if_empty (snd cell)))
          (map (fun cell => (rename_label (fst cell), snd cell))
             (dict_set (lit "listing_id") VNaN
                (update_price
                   (dict_set (lit "listing_condition") (VStr (lit "pre-owned"))
                      (reindex cols r))))))).

(** A display price made of digits, pound signs and commas only, with at
    least one digit. *)
Definition display_price (s : str) : Prop :=
  forallb (fun c => is_digit c || char_eqb c pound || char_eqb c 44%N) s = true
  /\ existsb is_digit s = true.

(** Invariants of a computation: [I] is kept by the dictionary [dict2] and
    [P] holds of every event emitted. *)
Definition sat (I : dict row -> Prop) (P : event -> Prop) {A} (m : M A) : Prop :=
  forall s, I (dict2 s) -> I (dict2 (final (m s))) /\ Forall P (events (m s)).

Fixpoint distinct (xs : list str) : bool :=
  match xs with
  | [] => true
  | x :: xs' => negb (mem x xs') && distinct xs'
  end.

(** What the fetch loop does with the answer to one request: it breaks
    with the response when the latitude marker can be indexed, and goes to
    the [except] clause otherwise. *)
Definition accepted (r : get_result) : option response :=
  match r with
  | GetReturns resp =>
      match item (split latitude_marker (text resp)) 1 with
      | Some _ => Some resp
      | None => None
      end
  | GetRaises _ => None
  end.

(** The events of one attempt that ends in the [except] clause. *)
Definition rejected_attempt (ln : value) (r : get_result) : list event :=
  match r with
  | GetRaises e => EvGet ln r :: retry_events ln e
  | GetReturns resp =>
      EvGet ln r :: EvPrint (MsgStatus (status_code resp))
        :: retry_events ln IndexError
  end.

(** The durations of the sleeps among the events. *)
Definition sleeps (evs : list event) : list nat :=
  flat_map (fun e => match e with EvSleep n => [n] | _ => [] end) evs.

(** The search requests among the events: property type and page. *)
Definition posts (evs : list event) : list (str * nat) :=
  flat_map (fun e => match e with EvPost pt p _ => [(pt, p)] | _ => [] end) evs.

(** [k] consecutive pages of [pt], from page [first]. *)
Definition page_run (pt : str) (first k : nat) : list (str * nat) :=
  map (fun i => (pt, first + i)) (seq 0 k).

(** The record [rec] under [id] is what the extractor made of a response
    that a request for the url of a listing returned, the listing being
    one the search returned with identifier [id]. *)
Definition scraped_from (W : world) (id : str) (rec : row) : Prop :=
  exists c pt page ls l c' resp,
    post W c pt page = PostReturns (Some ls) /\ In l ls /\ listingId l = id /\
    get W c' (listing_url (listing_dict l)) = GetReturns resp /\
    parse_record resp (listing_dict l) l = inr rec.

(** The last feature of a list that carries the identifier [k]. *)
Definition last_feature (k : str) (fs : list feature) : option feature :=
  find (fun f => str_eqb k (iconId f)) (rev fs).

(** The markers of the extractor, each with the character at which its
    value ends. *)
Definition delimiters : list (str * char) :=
  [(incode_marker, 34%N); (outcode_marker, 34%N);
   (property_type_marker, 34%N); (latitude_marker, 44%N);
   (longitude_marker, 10%N); (acorn_marker, 44%N)].

(** The labels of the table before the selection of the final columns:
    those of the concatenated table, then [listing_condition] and
    [listing_id] where they are new, all renamed. *)
Definition staged_labels (cols : list str) : list str :=
  let c1 := if mem (lit "listing_condition") cols then cols
            else cols ++ [lit "listing_condition"] in
  let c2 := if mem (lit "listing_id") c1 then c1 else c1 ++ [lit "listing_id"] in
  map rename_label c2.

(** The labels of a row of the final table. *)
Definition final_labels (cols : list str) : list str :=
  flat_map (fun l => filter (fun c => str_eqb c l) (staged_labels cols))
           final_columns ++ [lit "date"].

(** The names [rename] gives to the three feature columns. *)
Definition renamed_labels : list str :=
  [lit "num_recepts"; lit "num_beds"; lit "num_baths"].

(** The keys [parse_listing] assigns. *)
Definition field_names : list str :=
  map lit ["property_type"; "postcode"; "outcode"; "postcode_district";
           "acorn_type"; "display_address"; "price"; "latitude"; "longitude";
           "description"]%string.

(** [l] is among the listings that a search request of the events returned. *)
Definition listed (l : listing) (evs : list event) : Prop :=
  exists pt page ls,
    In (EvPost pt page (PostReturns (Some ls))) evs /\ In l ls.

(** Every record of [d] is what the extractor made of a response received
    in the events for the url of a listing that a search of the events
    returned, and it is stored under the identifier of that listing. *)
Definition recorded (evs : list event) (d : dict row) : Prop :=
  forall id rec, In (id, rec) d ->
    exists l resp,
      listed l evs /\ listingId l = id /\
      In (EvGet (listing_url (listing_dict l)) (GetReturns resp)) evs /\
      parse_record resp (listing_dict l) l = inr rec.

(** The number of writes to the standard output (the progress dots). *)
Definition writes (evs : list event) : nat :=
  length (filter (fun e => match e with EvWrite _ => true | _ => false end) evs).

End Vocabulary.

(** ** A reference runtime

    A small executable instance of [PyRuntime], on which the model runs on
    concrete payloads: numbers are signed decimal literals (a float is the
    rational its digits denote), and the feature section is the text
    between its opening tag and the next closing tag. *)

Module Reference.

Import QArith_base.
Local Close Scope Q_scope.

Definition parse_digits (s : str) : option Z :=
  match s with
  | [] => None
  | _ :: _ => if forallb is_digit s then Some (digits_value s) else None
  end.

Definition parse_signed {A} (neg : A -> A) (p : str -> option A) (s : str)
  : option A :=
  match s with
  | 45%N :: s' => option_map neg (p s')
  | 43%N :: s' => p s'
  | _ => p s
  end.

Definition parse_int (s : str) : option Z :=
  parse_signed Z.opp parse_digits (strip s).

Definition parse_decimal (s : str) : option Q :=
  match partition (lit ".") s with
  | None => option_map inject_Z (parse_digits s)
  | Some (whole, frac) =>
      match parse_digits whole, parse_digits frac with
      | Some _, Some _ =>
          Some (Qmake (digits_value (whole ++ frac))
                      (Pos.pow 10 (Pos.of_nat (length frac))))
      | _, _ => None
      end
  end.

Definition parse_float (s : str) : option Q :=
  parse_signed Qopp parse_decimal (strip s).

Definition section_open : str :=
  lit "<section data-testid=" ++ [34%N] ++ lit "page_features_section"
      ++ [34%N] ++ lit ">".

Definition section_text (html : str) : option str :=
  match partition section_open html with
  | None => None
  | Some (_, rest) =>
      match partition (lit "</section>") rest with
      | None => Some rest
      | Some (inner, _) => Some inner
      end
  end.

Definition Q_eq_dec (x y : Q) : {x = y} + {x <> y}.
Proof. decide equality; [apply Pos.eq_dec | apply Z.eq_dec]. Defined.

#[export] Instance runtime : PyRuntime := {|
  pyfloat := Q;
  pyfloat_eq_dec := Q_eq_dec;
  float_of_str := parse_float;
  int_of_str := parse_int;
  to_numeric := parse_digits;
  float_to_int := fun q => Z.quot (Qnum q) (Zpos (Qden q));
  find_section_text := section_text
|}.

(** A detail payload with the markers the extractor looks for. *)
Definition payload (incode outcode lat lon section : string) : str :=
  lit "{" ++ incode_marker ++ lit incode ++ quote ++ lit ","
    ++ outcode_marker ++ lit outcode ++ quote ++ lit ","
    ++ property_type_marker ++ lit "flat" ++ quote ++ lit ","
    ++ acorn_marker ++ lit "17,"
    ++ latitude_marker ++ lit lat ++ lit ","
    ++ [10%N] ++ longitude_marker ++ lit lon ++ [10%N] ++ lit "}"
    ++ section_open ++ lit section ++ lit "</section>".

(** A detail payload with the property type and the feature section only. *)
Definition bare_payload (section : string) : str :=
  lit "{" ++ property_type_marker ++ lit "flat" ++ quote ++ lit "}"
    ++ section_open ++ lit section ++ lit "</section>".

Definition ok (body : str) : response := {| status_code := 200; text := body |}.

Definition sample_listing : listing :=
  {| listingId := lit "61234567";
     address := lit "SW1A 1AA, London";
     price := [pound] ++ lit "250,000";
     features := [ {| iconId := lit "bed"; content := VStr (lit "3") |};
                   {| iconId := lit "bath"; content := VStr (lit "1") |};
                   {| iconId := lit "chair"; content := VStr (lit "2") |} ];
     detail := lit "/for-sale/details/61234567/" |}.

Definition bare_response : response := ok (bare_payload "A flat").

Definition sample_response : response :=
  ok (payload "1AA" "SW1A" "51.5" "-0.14" " Three bedrooms ").

(** A payload the fetch accepts (it has the latitude marker) but which has
    no feature section. *)
Definition no_section_response : response :=
  ok (lit "{" ++ property_type_marker ++ lit "flat" ++ quote ++ lit ","
        ++ latitude_marker ++ lit "51.5," ++ [10%N] ++ longitude_marker
        ++ lit "-0.14" ++ [10%N] ++ lit "}").

Definition bad_listing : listing :=
  {| listingId := lit "60000001";
     address := lit "1 High Street, Leeds";
     price := lit "POA";
     features := [];
     detail := lit "/for-sale/details/60000001/" |}.

(** The search answers with [ls] on page 1 of the first property type and
    with an empty list everywhere else. *)
Definition first_page (ls : list listing) (pt : str) (page : nat) : post_result :=
  if str_eqb pt (lit "farms_land") && Nat.eqb page 1
  then PostReturns (Some ls)
  else PostReturns (Some []).

Definition run_date : str := lit "2022-06-01".

(** The file as it is run: no name beyond its own is bound, and the search
    finds nothing. *)
Definition empty_world : world :=
  {| post := fun _ _ _ => PostReturns (Some []);
     get := fun _ _ => GetReturns sample_response;
     today := run_date;
     extra_globals := [] |}.

(** [params] is bound by the caller; one listing is found and fetched. *)
Definition sample_world : world :=
  {| post := fun _ => first_page [sample_listing];
     get := fun _ _ => GetReturns sample_response;
     today := run_date;
     extra_globals := [lit "params"] |}.

(** As [sample_world], with the first two network calls after the search
    timing out. *)
Definition flaky_world : world :=
  {| post := fun _ => first_page [sample_listing];
     get := fun k _ => if Nat.leb k 2
                       then GetRaises (RequestError (lit "Read timed out"))
                       else GetReturns sample_response;
     today := run_date;
     extra_globals := [lit "params"] |}.

(** Two listings on the first page; the detail page of the first one has no
    feature section. *)
Definition broken_world : world :=
  {| post := fun _ => first_page [bad_listing; sample_listing];
     get := fun _ url =>
              match url with
              | VStr u => if str_eqb u (base_url ++ detail bad_listing)
                          then GetReturns no_section_response
                          else GetReturns sample_response
              | _ => GetRaises (RequestError (lit "Invalid URL"))
              end;
     today := run_date;
     extra_globals := [lit "params"] |}.

(** The file as it is run, with one listing found. *)
Definition shipped_world : world :=
  {| post := fun _ => first_page [sample_listing];
     get := fun _ _ => GetReturns sample_response;
     today := run_date;
     extra_globals := [] |}.

(** As [sample_world], with a first answer that has no latitude marker. *)
Definition markerless_world : world :=
  {| post := fun _ => first_page [sample_listing];
     get := fun k _ => if Nat.eqb k 0 then GetReturns bare_response
                       else GetReturns sample_response;
     today := run_date;
     extra_globals := [lit "params"] |}.

(** Every answer to a detail request lacks the latitude marker. *)
Definition stuck_world : world :=
  {| post := fun _ => first_page [sample_listing];
     get := fun _ _ => GetReturns bare_response;
     today := run_date;
     extra_globals := [lit "params"] |}.

(** A listing with a feature called like a field of the record. *)
Definition odd_listing : listing :=
  {| listingId := lit "60000002";
     address := lit "2 Low Road, York";
     price := [pound] ++ lit "99,950";
     features := [ {| iconId := lit "price"; content := VStr (lit "junk") |};
                   {| iconId := lit "bed"; content := VStr (lit "2") |} ];
     detail := lit "/for-sale/details/60000002/" |}.

(** A payload with the feature section and no property type. *)
Definition no_type_response : response :=
  ok (lit "{" ++ latitude_marker ++ lit "51.5," ++ lit "}"
        ++ section_open ++ lit "A flat" ++ lit "</section>").

End Reference.

(** * Properties *)

(** ** The string operations on examples *)

Example split_pieces :
  split (lit ",") (lit "a,b,,c,") = [lit "a"; lit "b"; []; lit "c"; []].
Proof. reflexivity. Qed.

Example split_index_one : item (split (lit "xy") (lit "1xy2xy3")) 1 = Some (lit "2").
Proof. reflexivity. Qed.

Example split_index_error : item (split (lit "xy") (lit "123")) 1 = None.
Proof. reflexivity. Qed.

Example replace_all : replace (lit "ab") (lit "X") (lit "cababdab") = lit "cXXdX".
Proof. reflexivity. Qed.

Example replace_empty_pattern : replace [] (lit "-") (lit "abc") = lit "-a-b-c-".
Proof. reflexivity. Qed.

Example strip_spaces : strip (lit "  51.5 ") = lit "51.5".
Proof. reflexivity. Qed.

Example strip_price_pounds :
  strip_price (pound :: lit "350,000") = lit "350000".
Proof. reflexivity. Qed.

(** ** Strings *)

Section StringFacts.

Lemma char_eqb_eq (c d : char) : char_eqb c d = true <-> c = d.
Proof. apply N.eqb_eq. Qed.

Lemma str_eqb_eq (s t : str) : str_eqb s t = true <-> s = t.
Proof.
  revert t; induction s as [|c s IH]; intros [|d t]; simpl; split; intro H;
    try reflexivity; try discriminate.
  - apply andb_true_iff in H as [Hc Hs].
    apply char_eqb_eq in Hc. apply IH in Hs. congruence.
  - injection H as -> ->. apply andb_true_iff; split.
    + now apply char_eqb_eq.
    + now apply IH.
Qed.

Lemma str_eqb_refl (s : str) : str_eqb s s = true.
Proof. now apply str_eqb_eq. Qed.

Lemma str_eqb_neq (s t : str) : str_eqb s t = false <-> s <> t.
Proof.
  split.
  - intros H E. apply str_eqb_eq in E. congruence.
  - intros H. destruct (str_eqb s t) eqn:E; [|reflexivity].
    apply str_eqb_eq in E. contradiction.
Qed.

Lemma startswith_app (p r : str) : startswith p (p ++ r) = true.
Proof.
  induction p as [|c p IH]; simpl; [reflexivity|].
  rewrite IH, andb_true_r. now apply char_eqb_eq.
Qed.

Lemma startswith_true (p s : str) :
  startswith p s = true -> s = p ++ skipn (length p) s.
Proof.
  revert s; induction p as [|c p IH]; intros s H; simpl in *; [reflexivity|].
  destruct s as [|d s]; [discriminate|].
  apply andb_true_iff in H as [Hc Hs]. apply char_eqb_eq in Hc. subst d.
  simpl. f_equal. now apply IH.
Qed.

Lemma skipn_app_exact (p r : str) : skipn (length p) (p ++ r) = r.
Proof. induction p; simpl; auto. Qed.

Lemma partition_sound (sep s a b : str) :
  partition sep s = Some (a, b) -> s = a ++ sep ++ b.
Proof.
  revert a b; induction s as [|c s IH]; intros a b H.
  - simpl in H. destruct sep; simpl in H; [|discriminate].
    now injection H as <- <-.
  - cbn [partition] in H. destruct (startswith sep (c :: s)) eqn:E.
    + injection H as <- <-. simpl. now apply startswith_true.
    + destruct (partition sep s) as [[a' b']|] eqn:P; [|discriminate].
      injection H as <- <-. simpl. f_equal. now apply IH.
Qed.

Lemma partition_occurs (sep s : str) :
  occurs sep s -> exists a b, partition sep s = Some (a, b).
Proof.
  intros (a & b & ->). induction a as [|c a IH].
  - simpl. destruct (sep ++ b) as [|d r] eqn:E.
    + destruct sep; [|discriminate]. simpl. eauto.
    + cbn [partition]. rewrite <- E, startswith_app. eauto.
  - simpl app. cbn [partition].
    destruct (startswith sep (c :: a ++ sep ++ b)); [eauto|].
    destruct IH as (a' & b' & ->). eauto.
Qed.

Lemma partition_none (sep s : str) :
  partition sep s = None <-> ~ occurs sep s.
Proof.
  split.
  - intros H O. apply partition_occurs in O as (a & b & E). congruence.
  - intros H. destruct (partition sep s) as [[a b]|] eqn:E; [|reflexivity].
    exfalso. apply H. exists a, b. now apply partition_sound.
Qed.

Lemma partition_first (sep a b : str) :
  first_at sep a (a ++ sep ++ b) -> partition sep (a ++ sep ++ b) = Some (a, b).
Proof.
  induction a as [|c a IH]; intros [_ Hmin].
  - simpl. destruct (sep ++ b) as [|d r] eqn:E.
    + destruct sep; [|discriminate]. simpl in *. now subst.
    + cbn [partition]. rewrite <- E, startswith_app.
      now rewrite skipn_app_exact.
  - simpl app. cbn [partition].
    destruct (startswith sep (c :: a ++ sep ++ b)) eqn:E.
    + apply startswith_true in E.
      specialize (Hmin [] _ E). simpl in Hmin. lia.
    + rewrite IH; [reflexivity|]. split; [eauto|].
      intros a' b' H. specialize (Hmin (c :: a') b').
      simpl in Hmin. rewrite <- H in Hmin. specialize (Hmin eq_refl). lia.
Qed.

Lemma partition_shorter (sep s a b : str) :
  sep <> [] -> partition sep s = Some (a, b) -> length b < length s.
Proof.
  intros Hsep H. apply partition_sound in H. subst s.
  rewrite !length_app. destruct sep; [contradiction|]. simpl. lia.
Qed.

(** The head of a split always exists. *)
Lemma split_head (sep s : str) : exists h, item (split sep s) 0 = Some h.
Proof.
  unfold split. destruct (length s); simpl; [eauto|].
  destruct (partition sep s) as [[a b]|]; simpl; eauto.
Qed.

(** With a non-empty separator, the index [1] of a split raises
    [IndexError] exactly when the separator does not occur. *)
Lemma split_second (sep s : str) :
  sep <> [] -> (item (split sep s) 1 = None <-> ~ occurs sep s).
Proof.
  intros Hsep. rewrite <- partition_none. unfold split.
  destruct (length s) as [|n] eqn:L.
  - apply length_zero_iff_nil in L. subst s. simpl.
    destruct sep; [contradiction|]. simpl. tauto.
  - simpl. destruct (partition sep s) as [[a b]|] eqn:P; simpl.
    + split; [|discriminate]. intros H. exfalso.
      destruct n; simpl in H; [discriminate|].
      destruct (partition sep b) as [[a' b']|]; discriminate.
    + tauto.
Qed.

End StringFacts.

Section SplitFacts.

Lemma partition_minimal (sep s a b : str) :
  partition sep s = Some (a, b) -> first_at sep a s.
Proof.
  intros H. split; [exists b; now apply partition_sound|].
  revert a b H. induction s as [|c s IH]; intros a b H a' b' E.
  - simpl in H. destruct sep; simpl in H; [|discriminate].
    injection H as <- <-. simpl. lia.
  - cbn [partition] in H. destruct (startswith sep (c :: s)) eqn:S.
    + injection H as <- <-. simpl. lia.
    + destruct (partition sep s) as [[a0 b0]|] eqn:P; [|discriminate].
      injection H as <- <-. destruct a' as [|d a'].
      * simpl in E. rewrite E, startswith_app in S. discriminate.
      * simpl in E. injection E as -> E. simpl.
        specialize (IH _ _ eq_refl _ _ E). lia.
Qed.

Lemma first_at_clean (sep a s : str) :
  sep <> [] -> first_at sep a s -> ~ occurs sep a.
Proof.
  intros Hsep [[b ->] Hmin] (x & y & ->).
  specialize (Hmin x (y ++ sep ++ b)).
  rewrite <- !app_assoc in Hmin. specialize (Hmin eq_refl).
  rewrite !length_app in Hmin. destruct sep; [contradiction|]. simpl in Hmin. lia.
Qed.

(** The head of a split is a prefix of the string in which the separator
    does not occur. *)
Lemma split_fuel_head (n : nat) (sep s h : str) :
  sep <> [] -> length s <= n -> item (split_fuel n sep s) 0 = Some h ->
  (exists r, s = h ++ r) /\ ~ occurs sep h.
Proof.
  intros Hsep Hn H. destruct n as [|n]; simpl in H.
  - injection H as <-. split; [exists []; now rewrite app_nil_r|].
    destruct s; [|simpl in Hn; lia].
    intros (x & y & E). destruct x, sep; try discriminate; contradiction.
  - destruct (partition sep s) as [[a b]|] eqn:P; simpl in H; injection H as <-.
    + split; [exists (sep ++ b); now apply partition_sound|].
      eapply first_at_clean; [exact Hsep|]. eapply partition_minimal; eauto.
    + split; [exists []; now rewrite app_nil_r|]. now apply partition_none.
Qed.

Lemma split_second_piece (sep s piece : str) :
  sep <> [] -> item (split sep s) 1 = Some piece ->
  exists a r, s = a ++ sep ++ piece ++ r /\ first_at sep a s /\ ~ occurs sep piece.
Proof.
  intros Hsep H. unfold split in H.
  destruct (length s) as [|n] eqn:L; simpl in H; [discriminate|].
  destruct (partition sep s) as [[a b]|] eqn:P; simpl in H; [|discriminate].
  pose proof (partition_shorter _ _ _ _ Hsep P) as Hb.
  apply split_fuel_head in H as [[r Hr] Hc]; [|exact Hsep|lia].
  exists a, r. split; [|split; [eapply partition_minimal; eauto | exact Hc]].
  rewrite <- Hr. now apply partition_sound.
Qed.

End SplitFacts.

(** ** Dictionaries *)

Section DictFacts.

Context {V : Type}.
Implicit Types (d : dict V) (k : str) (v : V).

Lemma dict_get_set k k' v d :
  dict_get k (dict_set k' v d) = if str_eqb k k' then Some v else dict_get k d.
Proof.
  induction d as [|[k0 v0] d IH]; simpl.
  - reflexivity.
  - destruct (str_eqb k' k0) eqn:E0; simpl.
    + apply str_eqb_eq in E0. subst k0.
      destruct (str_eqb k k'); reflexivity.
    + destruct (str_eqb k k0) eqn:E1.
      * destruct (str_eqb k k') eqn:E2; [|reflexivity].
        apply str_eqb_eq in E1, E2. subst. rewrite str_eqb_refl in E0. discriminate.
      * exact IH.
Qed.

Lemma dict_get_set_same k v d : dict_get k (dict_set k v d) = Some v.
Proof. now rewrite dict_get_set, str_eqb_refl. Qed.

Lemma dict_get_set_other k k' v d :
  k <> k' -> dict_get k (dict_set k' v d) = dict_get k d.
Proof. intros H. apply str_eqb_neq in H. now rewrite dict_get_set, H. Qed.

Lemma mem_In k (ks : list str) : mem k ks = true <-> In k ks.
Proof.
  unfold mem. rewrite existsb_exists. split.
  - intros (x & Hx & E). apply str_eqb_eq in E. now subst.
  - intros H. exists k. split; [exact H | apply str_eqb_refl].
Qed.

Lemma keys_set k v d :
  keys (dict_set k v d) = if mem k (keys d) then keys d else keys d ++ [k].
Proof.
  induction d as [|[k0 v0] d IH]; simpl; [reflexivity|].
  destruct (str_eqb k k0) eqn:E; simpl.
  - apply str_eqb_eq in E. now subst.
  - fold (keys (dict_set k v d)) (keys d). rewrite IH.
    destruct (mem k (keys d)); reflexivity.
Qed.

(** Assignment keeps the keys of a dictionary unique. *)
Lemma NoDup_keys_set k v d : NoDup (keys d) -> NoDup (keys (dict_set k v d)).
Proof.
  intros H. rewrite keys_set. destruct (mem k (keys d)) eqn:E; [exact H|].
  apply NoDup_app; [exact H | repeat constructor; intros [] | ].
  intros x Hx [<-|[]]. apply mem_In in Hx. congruence.
Qed.

Lemma length_set k v d :
  length (dict_set k v d) = if mem k (keys d) then length d else S (length d).
Proof.
  pose proof (keys_set k v d) as H. apply (f_equal (@length _)) in H.
  unfold keys in H at 1. rewrite length_map in H. rewrite H.
  destruct (mem k (keys d)); unfold keys; rewrite ?length_app, length_map; simpl; lia.
Qed.

Lemma dict_get_In k v d : dict_get k d = Some v -> In (k, v) d.
Proof.
  induction d as [|[k0 v0] d IH]; simpl; [discriminate|].
  destruct (str_eqb k k0) eqn:E.
  - apply str_eqb_eq in E. intros [= ->]. subst. now left.
  - intros H. right. now apply IH.
Qed.

Lemma dict_get_keys k d : In k (keys d) -> exists v, dict_get k d = Some v.
Proof.
  induction d as [|[k0 v0] d IH]; simpl; [intros []|].
  destruct (str_eqb k k0) eqn:E; [eauto|].
  intros [H|H]; [|now apply IH].
  subst. rewrite str_eqb_refl in E. discriminate.
Qed.

Lemma In_set_other k v d c x :
  c <> k -> In (c, x) d -> In (c, x) (dict_set k v d).
Proof.
  intros Hc. induction d as [|[k0 v0] d IH]; simpl; [intros []|].
  destruct (str_eqb k k0) eqn:E; simpl.
  - apply str_eqb_eq in E. subst k0. intros [H|H]; [|now right].
    injection H as -> ->. contradiction.
  - intros [H|H]; [now left | right; now apply IH].
Qed.

End DictFacts.

(** ** Field extraction *)

Ltac lit_eqb :=
  repeat match goal with
         | |- context [str_eqb ?a ?b] =>
             let v := eval vm_compute in (str_eqb a b) in
             change (str_eqb a b) with v
         end;
  cbv iota.

(** Evaluate the left-hand side of an equation. *)
Ltac run :=
  match goal with
  | |- ?x = _ => let y := eval vm_compute in x in
                 exact (@eq_refl _ y <: x = y)
  end.

Ltac all_events :=
  repeat first [apply Forall_nil | apply Forall_cons]; auto.

Ltac lookup := repeat (rewrite dict_get_set; lit_eqb); try reflexivity.

Section ExtractionFacts.

Context {R : PyRuntime}.

Lemma marker_value_none (marker stop txt : str) :
  marker <> [] ->
  (marker_value marker stop txt = None <-> ~ occurs marker txt).
Proof.
  intros Hm. rewrite <- (split_second marker txt Hm). unfold marker_value.
  destruct (item (split marker txt) 1) as [piece|]; [|tauto].
  destruct (split_head stop piece) as [h ->]. split; discriminate.
Qed.

Lemma marker_value_some (marker stop txt : str) :
  marker <> [] -> occurs marker txt ->
  exists v, marker_value marker stop txt = Some v.
Proof.
  intros Hm Ho. destruct (marker_value marker stop txt) eqn:E; [eauto|].
  apply marker_value_none in E; [contradiction | exact Hm].
Qed.

(** The extracted value is the text that follows the leftmost occurrence of
    the marker, and the stop string does not occur in it. *)
Lemma marker_value_sound (marker stop txt v : str) :
  marker <> [] -> stop <> [] ->
  marker_value marker stop txt = Some v ->
  exists a r, txt = a ++ marker ++ v ++ r /\ first_at marker a txt
              /\ ~ occurs stop v.
Proof.
  intros Hm Hs H. unfold marker_value in H.
  destruct (item (split marker txt) 1) as [piece|] eqn:E; [|discriminate].
  apply split_second_piece in E as (a & r & Et & Hfirst & _); [|exact Hm].
  unfold split in H.
  apply split_fuel_head in H as [[r' Hp] Hc]; [|exact Hs|lia].
  exists a, (r' ++ r). split; [|split; assumption].
  rewrite Et, Hp. now rewrite <- !app_assoc.
Qed.

(** What [parse_record] stores when no exception escapes. *)
Lemma parse_record_inr (resp : response) (dict1 : dict value) (l : listing)
      (d : dict value) :
  parse_record resp dict1 l = inr d ->
  exists section property_type,
    find_section_text (text resp) = Some section /\
    marker_value property_type_marker quote (text resp) = Some property_type /\
    let '(postcode, postcode_district, outcode) := extract_postcode (text resp) in
    let '(lat, lon) := extract_geo (text resp) in
    dict_get (lit "property_type") d = Some (VStr property_type) /\
    dict_get (lit "postcode") d = Some (VStr postcode) /\
    dict_get (lit "outcode") d = Some (VStr outcode) /\
    dict_get (lit "postcode_district") d = Some (VStr postcode_district) /\
    dict_get (lit "acorn_type") d = Some (extract_acorn (text resp)) /\
    dict_get (lit "display_address") d
      = Some (VStr (replace postcode outcode (address l))) /\
    dict_get (lit "price") d = Some (VStr (price l)) /\
    dict_get (lit "latitude") d = Some lat /\
    dict_get (lit "longitude") d = Some lon /\
    dict_get (lit "description") d = Some (VStr (strip section)) /\
    forall k, mem k (map lit ["property_type"; "postcode"; "outcode";
                "postcode_district"; "acorn_type"; "display_address"; "price";
                "latitude"; "longitude"; "description"]%string) = false ->
              dict_get k d = dict_get k dict1.
Proof.
  unfold parse_record.
  destruct (extract_postcode (text resp)) as [[postcode district] outcode].
  destruct (extract_geo (text resp)) as [lat lon].
  destruct (find_section_text (text resp)) as [section|]; [|discriminate].
  destruct (marker_value property_type_marker quote (text resp)) as [pt|];
    [|discriminate].
  intros [= <-]. exists section, pt. do 2 (split; [reflexivity|]).
  repeat split; try solve [lookup].
  intros k Hk. unfold mem in Hk. simpl in Hk.
  repeat (apply orb_false_iff in Hk as [? Hk]).
  rewrite !dict_get_set.
  repeat match goal with H : str_eqb _ _ = false |- _ => rewrite H; clear H end.
  reflexivity.
Qed.

(** The exceptions that escape [parse_record] come from the description and
    the property type alone. *)
Lemma parse_record_inl (resp : response) (dict1 : dict value) (l : listing)
      (e : exn) :
  parse_record resp dict1 l = inl e ->
  (e = AttributeError /\ find_section_text (text resp) = None) \/
  (e = IndexError /\ find_section_text (text resp) <> None
   /\ ~ occurs property_type_marker (text resp)).
Proof.
  unfold parse_record.
  destruct (extract_postcode (text resp)) as [[postcode district] outcode].
  destruct (extract_geo (text resp)) as [lat lon].
  destruct (find_section_text (text resp)) as [section|].
  - destruct (marker_value property_type_marker quote (text resp)) eqn:E;
      [discriminate|].
    intros [= <-]. right. split; [reflexivity|]. split; [discriminate|].
    apply marker_value_none in E; [exact E | discriminate].
  - intros [= <-]. now left.
Qed.

Lemma parse_record_total (resp : response) (dict1 : dict value) (l : listing) :
  find_section_text (text resp) <> None ->
  occurs property_type_marker (text resp) ->
  exists d, parse_record resp dict1 l = inr d.
Proof.
  intros Hs Hp. destruct (parse_record resp dict1 l) as [e|d] eqn:E; [|eauto].
  apply parse_record_inl in E as [[_ H]|[_ [_ H]]]; contradiction.
Qed.

End ExtractionFacts.

(** ** Replacement *)

Section ReplaceFacts.

Lemma contains_occurs (sep s : str) : contains sep s = true -> occurs sep s.
Proof.
  unfold contains. destruct (partition sep s) as [[a b]|] eqn:E; [|discriminate].
  intros _. exists a, b. now apply partition_sound.
Qed.

Lemma contains_false (sep s : str) : contains sep s = false -> ~ occurs sep s.
Proof.
  unfold contains. destruct (partition sep s) eqn:E; [discriminate|].
  intros _. now apply partition_none.
Qed.

Lemma replace_fuel_absent (n : nat) (old new s : str) :
  ~ occurs old s -> replace_fuel n old new s = s.
Proof.
  intros H. apply partition_none in H. destruct n; simpl; [reflexivity|].
  now rewrite H.
Qed.

(** Where the text to replace does not occur the string is unchanged. *)
Lemma replace_absent (old new s : str) :
  old <> [] -> ~ occurs old s -> replace old new s = s.
Proof.
  intros Ho H. unfold replace. destruct old; [contradiction|].
  now apply replace_fuel_absent.
Qed.

(** A single occurrence is replaced where it stands. *)
Lemma replace_once (old new a b : str) :
  old <> [] -> first_at old a (a ++ old ++ b) -> ~ occurs old b ->
  replace old new (a ++ old ++ b) = a ++ new ++ b.
Proof.
  intros Ho Hf Hb. unfold replace. destruct old as [|c old]; [contradiction|].
  destruct (length (a ++ (c :: old) ++ b)) as [|n] eqn:L.
  - rewrite !length_app in L. simpl in L. lia.
  - cbn [replace_fuel]. rewrite (partition_first _ _ _ Hf).
    now rewrite replace_fuel_absent.
Qed.

(** Replacing the empty string by the empty string changes nothing. *)
Lemma replace_nil_nil (s : str) : replace [] [] s = s.
Proof.
  unfold replace. simpl. induction s as [|c s IH]; simpl; congruence.
Qed.

End ReplaceFacts.

(** ** The extractor: geo fields, postcode fields, display address *)

Section ExtractorClaims.

Context {R : PyRuntime}.

Lemma markers_nonempty :
  incode_marker <> [] /\ outcode_marker <> [] /\ latitude_marker <> [] /\
  longitude_marker <> [] /\ quote <> [] /\ comma <> [] /\ newline <> [].
Proof. repeat split; discriminate. Qed.

Lemma float_field_none (marker stop txt : str) :
  marker <> [] ->
  (~ occurs marker txt \/
   exists raw, marker_value marker stop txt = Some raw
               /\ float_of_str (strip raw) = None) ->
  float_field marker stop txt = None.
Proof.
  intros Hm [H|(raw & E & F)]; unfold float_field.
  - apply (marker_value_none marker stop txt Hm) in H. now rewrite H.
  - now rewrite E.
Qed.

Lemma extract_geo_unavailable (txt : str) :
  geo_unavailable txt -> extract_geo txt = (VStr [], VStr []).
Proof.
  intros H. unfold extract_geo.
  assert (float_field latitude_marker comma txt = None \/
          float_field longitude_marker newline txt = None) as [E|E].
  { destruct H as [H|[H|[H|H]]].
    - left. apply float_field_none; [discriminate | now left].
    - right. apply float_field_none; [discriminate | now left].
    - left. apply float_field_none; [discriminate | now right].
    - right. apply float_field_none; [discriminate | now right]. }
  - now rewrite E.
  - rewrite E. now destruct (float_field latitude_marker comma txt).
Qed.

(** C1. For every detail payload in which the latitude or longitude marker
    is missing, or in which the text that follows one of them does not
    parse as a float, the record the extractor stores has the empty string
    under both [latitude] and [longitude]: neither is a float (so neither
    is zero) and neither is an integer. *)
Theorem C1_geo_absent_never_zero (resp : response) (dict1 : dict value)
        (l : listing) (d : dict value) :
  geo_unavailable (text resp) ->
  parse_record resp dict1 l = inr d ->
  extract_geo (text resp) = (VStr [], VStr []) /\
  dict_get (lit "latitude") d = Some (VStr []) /\
  dict_get (lit "longitude") d = Some (VStr []) /\
  (forall f, dict_get (lit "latitude") d <> Some (VFloat f) /\
             dict_get (lit "longitude") d <> Some (VFloat f)) /\
  (forall z, dict_get (lit "latitude") d <> Some (VInt z) /\
             dict_get (lit "longitude") d <> Some (VInt z)).
Proof.
  intros Hgeo Hrec. pose proof (extract_geo_unavailable _ Hgeo) as E.
  apply parse_record_inr in Hrec as (section & pt & _ & _ & H).
  destruct (extract_postcode (text resp)) as [[postcode district] outcode].
  rewrite E in H.
  destruct H as (_ & _ & _ & _ & _ & _ & _ & Hlat & Hlon & _).
  rewrite Hlat, Hlon. split; [exact E|].
  repeat split; try reflexivity; discriminate.
Qed.

Lemma extract_postcode_present (txt : str) :
  occurs incode_marker txt -> occurs outcode_marker txt ->
  exists district outcode,
    marker_value incode_marker quote txt = Some district /\
    marker_value outcode_marker quote txt = Some outcode /\
    extract_postcode txt = (outcode ++ lit " " ++ district, district, outcode).
Proof.
  intros Hi Ho.
  destruct (marker_value_some incode_marker quote txt) as [di Ei];
    [discriminate | exact Hi |].
  destruct (marker_value_some outcode_marker quote txt) as [oc Eo];
    [discriminate | exact Ho |].
  exists di, oc. unfold extract_postcode. now rewrite Ei, Eo.
Qed.

Lemma extract_postcode_absent (txt : str) :
  ~ occurs incode_marker txt \/ ~ occurs outcode_marker txt ->
  extract_postcode txt = ([], [], []).
Proof.
  intros [H|H]; unfold extract_postcode.
  - apply (marker_value_none incode_marker quote txt) in H; [|discriminate].
    now rewrite H.
  - apply (marker_value_none outcode_marker quote txt) in H; [|discriminate].
    rewrite H. now destruct (marker_value incode_marker quote txt).
Qed.

(** C3. The postcode step never raises: whenever the feature section and
    the property type are there, the extractor returns a record, whether
    or not the postcode markers are present.  In that record, when both
    the incode and the outcode marker occur in the payload,
    [postcode_district] is the incode value, [outcode] the outcode value
    and [postcode] is [outcode + ' ' + postcode_district]; when either
    marker is missing all three fields are the empty string. *)
Theorem C3_postcode_fields (resp : response) (dict1 : dict value) (l : listing) :
  (find_section_text (text resp) <> None ->
   occurs property_type_marker (text resp) ->
   exists d, parse_record resp dict1 l = inr d) /\
  forall d, parse_record resp dict1 l = inr d ->
    exists postcode district outcode,
      dict_get (lit "postcode") d = Some (VStr postcode) /\
      dict_get (lit "postcode_district") d = Some (VStr district) /\
      dict_get (lit "outcode") d = Some (VStr outcode) /\
      (occurs incode_marker (text resp) -> occurs outcode_marker (text resp) ->
         marker_value incode_marker quote (text resp) = Some district /\
         marker_value outcode_marker quote (text resp) = Some outcode /\
         postcode = outcode ++ lit " " ++ district) /\
      (~ occurs incode_marker (text resp) \/ ~ occurs outcode_marker (text resp) ->
         postcode = [] /\ district = [] /\ outcode = []).
Proof.
  split; [apply parse_record_total|]. intros d Hrec.
  apply parse_record_inr in Hrec as (section & pt & _ & _ & H).
  destruct (extract_postcode (text resp)) as [[postcode district] outcode] eqn:E.
  destruct (extract_geo (text resp)) as [lat lon].
  destruct H as (_ & Hp & Ho & Hd & _).
  exists postcode, district, outcode. do 3 (split; [assumption|]). split.
  - intros Hi Ho'.
    destruct (extract_postcode_present _ Hi Ho') as (di & oc & Ei & Eo & Ex).
    rewrite Ex in E. inversion E; subst. auto.
  - intros Habs. apply extract_postcode_absent in Habs. rewrite Habs in E.
    inversion E. auto.
Qed.

(** C8. In every stored record, [display_address] is the address of the
    search item in which the value stored under [postcode] has been
    replaced by the value stored under [outcode].  Where the postcode
    occurs once in the address, that occurrence becomes the outcode and the
    text around it is kept; where it does not occur, or where no postcode
    was extracted, the address is kept as it is. *)
Theorem C8_display_address (resp : response) (dict1 : dict value)
        (l : listing) (d : dict value) :
  parse_record resp dict1 l = inr d ->
  exists postcode outcode,
    dict_get (lit "postcode") d = Some (VStr postcode) /\
    dict_get (lit "outcode") d = Some (VStr outcode) /\
    dict_get (lit "display_address") d
      = Some (VStr (replace postcode outcode (address l))) /\
    (forall a b, postcode <> [] -> address l = a ++ postcode ++ b ->
       first_at postcode a (address l) -> ~ occurs postcode b ->
       dict_get (lit "display_address") d = Some (VStr (a ++ outcode ++ b))) /\
    (postcode = [] \/ ~ occurs postcode (address l) ->
       dict_get (lit "display_address") d = Some (VStr (address l))).
Proof.
  intros Hrec.
  pose proof Hrec as H. apply parse_record_inr in H as (section & pt & _ & _ & H).
  destruct (extract_postcode (text resp)) as [[postcode district] outcode] eqn:E.
  destruct (extract_geo (text resp)) as [lat lon].
  destruct H as (_ & Hp & Ho & _ & _ & Hd & _).
  exists postcode, outcode. repeat split; try assumption.
  - intros a b Hne Ha Hf Hb. rewrite Hd, Ha. rewrite Ha in Hf.
    now rewrite replace_once.
  - intros Hc. rewrite Hd. destruct postcode as [|c postcode].
    + assert (outcode = []) as ->.
      { unfold extract_postcode in E.
        destruct (marker_value incode_marker quote (text resp));
          [destruct (marker_value outcode_marker quote (text resp))|].
        - inversion E as [[E1 E2 E3]]. apply app_eq_nil in E1 as [_ E1].
          discriminate E1.
        - now inversion E.
        - now inversion E. }
      now rewrite replace_nil_nil.
    + destruct Hc as [Hc|Hc]; [discriminate|].
      rewrite replace_absent; [reflexivity | discriminate | exact Hc].
Qed.

End ExtractorClaims.

Lemma C1_geo_absent_never_zero_witness :
  exists d,
    @parse_record Reference.runtime Reference.bare_response
       (listing_dict Reference.sample_listing) Reference.sample_listing = inr d /\
    dict_get (lit "latitude") d = Some (VStr []) /\
    dict_get (lit "longitude") d = Some (VStr []).
Proof.
  assert (exists d, @parse_record Reference.runtime Reference.bare_response
            (listing_dict Reference.sample_listing) Reference.sample_listing
            = inr d) as [d E] by (eexists; run).
  exists d. split; [exact E|].
  assert (@geo_unavailable Reference.runtime (text Reference.bare_response)) as G.
  { left. apply contains_false. vm_compute. reflexivity. }
  destruct (C1_geo_absent_never_zero _ _ _ _ G E) as (_ & Hlat & Hlon & _).
  split; assumption.
Defined.

Lemma C3_postcode_fields_witness :
  (exists d,
     @parse_record Reference.runtime Reference.sample_response
        (listing_dict Reference.sample_listing) Reference.sample_listing = inr d /\
     dict_get (lit "postcode") d = Some (VStr (lit "SW1A 1AA")) /\
     dict_get (lit "postcode_district") d = Some (VStr (lit "1AA")) /\
     dict_get (lit "outcode") d = Some (VStr (lit "SW1A"))) /\
  (exists d,
     @parse_record Reference.runtime Reference.bare_response
        (listing_dict Reference.sample_listing) Reference.sample_listing = inr d /\
     dict_get (lit "postcode") d = Some (VStr []) /\
     dict_get (lit "postcode_district") d = Some (VStr []) /\
     dict_get (lit "outcode") d = Some (VStr [])).
Proof.
  split.
  - destruct (C3_postcode_fields Reference.sample_response
                (listing_dict Reference.sample_listing) Reference.sample_listing)
      as [Htotal Hfields].
    destruct Htotal as [d E];
      [vm_compute; discriminate
      |apply contains_occurs; vm_compute; reflexivity|].
    exists d. split; [exact E|].
    destruct (Hfields d E)
      as (postcode & district & outcode & Hp & Hd & Ho & Hboth & _).
    destruct Hboth as (Ei & Eo & Epc);
      [apply contains_occurs; vm_compute; reflexivity
      |apply contains_occurs; vm_compute; reflexivity|].
    vm_compute in Ei, Eo. injection Ei as <-. injection Eo as <-.
    subst postcode. repeat split; assumption.
  - destruct (C3_postcode_fields Reference.bare_response
                (listing_dict Reference.sample_listing) Reference.sample_listing)
      as [Htotal Hfields].
    destruct Htotal as [d E];
      [vm_compute; discriminate
      |apply contains_occurs; vm_compute; reflexivity|].
    exists d. split; [exact E|].
    destruct (Hfields d E)
      as (postcode & district & outcode & Hp & Hd & Ho & _ & Habsent).
    destruct Habsent as (-> & -> & ->);
      [left; apply contains_false; vm_compute; reflexivity|].
    repeat split; assumption.
Defined.

Lemma C8_display_address_witness :
  exists d,
    @parse_record Reference.runtime Reference.sample_response
       (listing_dict Reference.sample_listing) Reference.sample_listing = inr d /\
    dict_get (lit "display_address") d = Some (VStr (lit "SW1A, London")).
Proof.
  assert (exists d, @parse_record Reference.runtime Reference.sample_response
            (listing_dict Reference.sample_listing) Reference.sample_listing
            = inr d) as [d E] by (eexists; run).
  exists d. split; [exact E|].
  destruct (C8_display_address _ _ _ _ E)
    as (postcode & outcode & Hp & Ho & _ & Honce & _).
  assert (marker_value incode_marker quote (text Reference.sample_response)
          = Some (lit "1AA")) as Ei by (vm_compute; reflexivity).
  assert (marker_value outcode_marker quote (text Reference.sample_response)
          = Some (lit "SW1A")) as Eo by (vm_compute; reflexivity).
  assert (postcode = lit "SW1A 1AA" /\ outcode = lit "SW1A") as [-> ->].
  { apply parse_record_inr in E as (section & pt & _ & _ & H).
    unfold extract_postcode in H. rewrite Ei, Eo in H.
    destruct (extract_geo (text Reference.sample_response)) as [lat lon].
    destruct H as (_ & Hp' & Ho' & _).
    rewrite Hp' in Hp. rewrite Ho' in Ho.
    injection Hp as <-. injection Ho as <-. split; reflexivity. }
  apply (Honce [] (lit ", London")).
  - discriminate.
  - reflexivity.
  - split; [exists (lit ", London"); reflexivity|]. intros; simpl; lia.
  - apply contains_false. vm_compute. reflexivity.
Defined.

(** ** Runs: what is emitted and what happens to [dict2] *)

Section RunFacts.

Context {R : PyRuntime}.

Lemma bind_run {A B} (m : M A) (k : A -> M B) (s : state) :
  bind m k s =
  match outcome (m s) with
  | Ret a => (events (m s) ++ events (k a (final (m s))),
              final (k a (final (m s))), outcome (k a (final (m s))))
  | Raise e => (events (m s), final (m s), Raise e)
  | Hang => (events (m s), final (m s), Hang)
  end.
Proof.
  unfold bind, events, final, outcome.
  destruct (m s) as [[ev1 s1] [a|e|]]; simpl; try reflexivity.
  now destruct (k a s1) as [[ev2 s2] r2].
Qed.

Lemma run_eta {A} (o : list event * state * result A) :
  o = (events o, final o, outcome o).
Proof. now destruct o as [[ev s] r]. Qed.

(** An exception in the middle of a [for] loop ends the loop: what comes
    after in the list is not visited. *)
Lemma for_each_raise {A} (body : A -> M unit) (xs1 xs2 : list A) (x : A)
      (s : state) (e : exn) :
  outcome (for_each xs1 body s) = Ret tt ->
  outcome (body x (final (for_each xs1 body s))) = Raise e ->
  for_each (xs1 ++ x :: xs2) body s =
  (events (for_each xs1 body s) ++ events (body x (final (for_each xs1 body s))),
   final (body x (final (for_each xs1 body s))), Raise e).
Proof.
  revert s. induction xs1 as [|y xs1 IH]; intros s H1 H2.
  - cbn [app for_each] in *. rewrite bind_run.
    cbn [ret final events outcome fst snd app] in *. now rewrite H2.
  - cbn [app for_each] in *. rewrite !bind_run in *.
    destruct (outcome (body y s)) as [[]|e'|] eqn:Ey;
      cbn [outcome final events fst snd] in *; try discriminate.
    rewrite (IH _ H1 H2). cbn [outcome final events fst snd].
    now rewrite app_assoc.
Qed.

Section Invariants.

Variable I : dict row -> Prop.
Variable P : event -> Prop.

Lemma sat_ret {A} (a : A) : sat I P (ret a).
Proof. intros s H. split; [exact H | constructor]. Qed.

Lemma sat_raise {A} (e : exn) : sat I P (@raise _ A e).
Proof. intros s H. split; [exact H | constructor]. Qed.

Lemma sat_hang {A} : sat I P (@hang _ A).
Proof. intros s H. split; [exact H | constructor]. Qed.

Lemma sat_emit (evs : list event) : Forall P evs -> sat I P (emit evs).
Proof. intros He s H. split; [exact H | exact He]. Qed.

Lemma sat_bind {A B} (m : M A) (k : A -> M B) :
  sat I P m -> (forall a, sat I P (k a)) -> sat I P (bind m k).
Proof.
  intros Hm Hk s H. rewrite bind_run. destruct (Hm s H) as [H1 E1].
  destruct (outcome (m s)) as [a|e|]; simpl; try (split; assumption).
  destruct (Hk a _ H1) as [H2 E2]. split; [exact H2|].
  apply Forall_app. split; assumption.
Qed.

Lemma sat_for_each {A} (xs : list A) (body : A -> M unit) :
  (forall x, In x xs -> sat I P (body x)) -> sat I P (for_each xs body).
Proof.
  induction xs as [|x xs IH]; intros H; simpl.
  - apply sat_ret.
  - apply sat_bind; [apply H; now left|]. intros _. apply IH.
    intros y Hy. apply H. now right.
Qed.

Hypothesis I_set : forall k v d, I d -> I (dict_set k v d).
Hypothesis P_get : forall url r, P (EvGet url r).
Hypothesis P_print : forall m, P (EvPrint m).
Hypothesis P_write : forall s, P (EvWrite s).
Hypothesis P_sleep : forall n, P (EvSleep n).

Lemma sat_try_get (W : world) (ln : value) : sat I P (try_get W ln).
Proof.
  intros s H. unfold try_get. destruct (bound W "params").
  - destruct (get W (clock s) ln); simpl; split; auto; all_events.
  - simpl. split; auto.
Qed.

Lemma sat_fetch_loop (W : world) (fuel : nat) (ln : value) :
  sat I P (fetch_loop W fuel ln).
Proof.
  induction fuel as [|fuel IH]; simpl.
  - apply sat_hang.
  - apply sat_bind; [apply sat_try_get|]. intros [e|resp].
    + apply sat_bind; [|intros _; exact IH].
      apply sat_emit. unfold retry_events. all_events.
    + apply sat_ret.
Qed.

Lemma sat_request_listing_data (W : world) (fuel : nat) (l : listing) :
  sat I P (request_listing_data W fuel l).
Proof.
  unfold request_listing_data. apply sat_bind; [apply sat_fetch_loop|].
  intros resp. apply sat_ret.
Qed.

Lemma sat_parse_listing (resp : response) (dict1 : dict value) (l : listing) :
  sat I P (parse_listing resp dict1 l).
Proof.
  intros s H. unfold parse_listing.
  destruct (parse_record resp dict1 l); simpl; split; auto.
Qed.

Lemma sat_process_listing (W : world) (fuel : nat) (l : listing) :
  sat I P (process_listing W fuel l).
Proof.
  unfold process_listing. apply sat_bind; [apply sat_request_listing_data|].
  intros rd. apply sat_bind; [apply sat_parse_listing|].
  intros _. apply sat_emit. all_events.
Qed.

Lemma sat_get_page_listings (W : world) (page_num : nat) (pt : str) :
  (forall r, P (EvPost pt page_num r)) ->
  sat I P (get_page_listings W page_num pt).
Proof.
  intros Hp s H. unfold get_page_listings.
  destruct (post W (clock s) pt page_num) eqn:E; simpl; split; auto;
    all_events.
Qed.

Lemma sat_scrape_pages (W : world) (fuel : nat) (pt : str) (page_num : nat) :
  (forall n r, P (EvPost pt n r)) ->
  sat I P (scrape_pages W fuel pt page_num).
Proof.
  intros Hp. revert page_num. induction fuel as [|fuel IH]; intros page_num.
  - apply sat_hang.
  - cbn [scrape_pages]. apply sat_bind; [apply sat_get_page_listings; auto|].
    intros listings. apply sat_bind; [apply sat_emit; all_events|]. intros _.
    destruct listings as [[|l ls]|]; try (apply sat_emit; all_events).
    apply sat_bind; [|intros _; apply IH].
    apply sat_for_each. intros x _. apply sat_process_listing.
Qed.

Lemma sat_scrape_all (W : world) (fuel : nat) (pts : list str) :
  (forall pt n r, In pt pts -> P (EvPost pt n r)) ->
  sat I P (for_each pts (fun pt => scrape_pages W fuel pt 1)).
Proof.
  intros Hp. apply sat_for_each. intros pt Hpt. apply sat_scrape_pages.
  intros n r. now apply Hp.
Qed.

End Invariants.

End RunFacts.

(** ** The detail fetch *)

Section FetchClaims.

Context {R : PyRuntime}.

(** With the name [params] unbound, as it is in the file, every attempt
    ends in a [NameError] before a request is made, and the loop does not
    end. *)
Lemma fetch_loop_params_unbound (W : world) (fuel : nat) (ln : value) (s : state) :
  bound W "params" = false ->
  exists evs, fetch_loop W fuel ln s = (evs, s, Hang) /\
              forall url r, ~ In (EvGet url r) evs.
Proof.
  intros Hb. induction fuel as [|fuel IH]; cbn [fetch_loop].
  - exists []. split; [reflexivity | intros url r []].
  - destruct IH as (evs & E & H).
    exists (retry_events ln (NameError (lit "params")) ++ evs). split.
    + unfold bind at 1. unfold try_get. rewrite Hb. cbn beta iota.
      unfold bind, emit. rewrite E. reflexivity.
    + intros url r Hin. apply in_app_or in Hin as [Hin|Hin].
      * simpl in Hin. destruct Hin as [Hin|[Hin|[Hin|[]]]]; discriminate.
      * now apply (H url r).
Qed.

Lemma fetch_loop_no_raise (W : world) (fuel : nat) (ln : value) (s : state)
      (e : exn) :
  outcome (fetch_loop W fuel ln s) <> Raise e.
Proof.
  revert s. induction fuel as [|fuel IH]; intros s; cbn [fetch_loop].
  - discriminate.
  - rewrite bind_run.
    assert (exists x, outcome (try_get W ln s) = Ret x) as [x ->].
    { unfold try_get. destruct (bound W "params"); [|simpl; eauto].
      destruct (get W (clock s) ln); simpl; eauto. }
    destruct x as [e'|resp]; cbn [outcome snd]; [|discriminate].
    rewrite bind_run. cbn [emit outcome events final fst snd]. apply IH.
Qed.

Lemma fetch_loop_retry (W : world) (fuel : nat) (ln : value) (s : state)
      (e : exn) :
  bound W "params" = true -> get W (clock s) ln = GetRaises e ->
  fetch_loop W (S fuel) ln s =
  ([EvGet ln (GetRaises e); EvPrint (MsgGetError e); EvPrint (MsgValue ln);
    EvSleep 30] ++ events (fetch_loop W fuel ln (tick s)),
   final (fetch_loop W fuel ln (tick s)),
   outcome (fetch_loop W fuel ln (tick s))).
Proof.
  intros Hb Hg. cbn [fetch_loop]. rewrite bind_run. unfold try_get.
  rewrite Hb, Hg. cbn [outcome events final fst snd]. rewrite bind_run.
  cbn [emit outcome events final fst snd retry_events app]. reflexivity.
Qed.

Lemma fetch_loop_returned (W : world) (fuel : nat) (ln : value) (s : state)
      (resp : response) :
  outcome (fetch_loop W fuel ln s) = Ret resp ->
  bound W "params" = true /\
  occurs latitude_marker (text resp) /\
  exists k, clock s <= k /\ clock (final (fetch_loop W fuel ln s)) = S k /\
            get W k ln = GetReturns resp.
Proof.
  revert s. induction fuel as [|fuel IH]; intros s; cbn [fetch_loop].
  - discriminate.
  - rewrite bind_run. unfold try_get. destruct (bound W "params") eqn:Hb.
    + destruct (get W (clock s) ln) as [e|r] eqn:Hg;
        cbn [outcome events final fst snd].
      * rewrite bind_run. cbn [emit outcome events final fst snd].
        intros H. apply IH in H as (_ & Hm & k & Hk & Hc & Hr).
        split; [reflexivity|]. split; [exact Hm|].
        exists k. simpl in Hk. split; [lia | split; assumption].
      * destruct (item (split latitude_marker (text r)) 1) eqn:Hi;
          cbn [outcome events final fst snd ret].
        -- intros [= <-]. split; [reflexivity|]. split.
           ++ destruct (contains latitude_marker (text r)) eqn:C;
                [now apply contains_occurs|].
              apply contains_false in C.
              apply split_second in C; [congruence | discriminate].
           ++ exists (clock s). repeat split; [lia | exact Hg].
        -- rewrite bind_run. cbn [emit outcome events final fst snd].
           intros H. apply IH in H as (_ & Hm & k & Hk & Hc & Hr).
           split; [reflexivity|]. split; [exact Hm|].
           exists k. simpl in Hk. split; [lia | split; assumption].
    + cbn [outcome events final fst snd]. rewrite bind_run.
      cbn [emit outcome events final fst snd].
      intros H. apply IH in H as (Hb' & _). congruence.
Qed.

(** C5. In the detail fetch a failure of the request is logged with the
    url, followed by a wait of 30 and another attempt; the fetch never ends
    with an exception; and when it returns a response, that response is the
    one a request returned. *)
Theorem C5_fetch_retries_until_success (W : world) (fuel : nat) (l : listing)
        (s : state) :
  let ln := listing_url (listing_dict l) in
  (forall e, outcome (request_listing_data W fuel l s) <> Raise e) /\
  (forall e, bound W "params" = true -> get W (clock s) ln = GetRaises e ->
     events (request_listing_data W (S fuel) l s) =
       [EvGet ln (GetRaises e); EvPrint (MsgGetError e); EvPrint (MsgValue ln);
        EvSleep 30] ++ events (request_listing_data W fuel l (tick s)) /\
     final (request_listing_data W (S fuel) l s)
       = final (request_listing_data W fuel l (tick s)) /\
     outcome (request_listing_data W (S fuel) l s)
       = outcome (request_listing_data W fuel l (tick s))) /\
  (forall resp dict1,
     outcome (request_listing_data W fuel l s) = Ret (resp, dict1) ->
     dict1 = listing_dict l /\
     exists k, clock s <= k /\ get W k ln = GetReturns resp).
Proof.
  intros ln. unfold request_listing_data. fold ln. split; [|split].
  - intros e. rewrite bind_run.
    destruct (outcome (fetch_loop W fuel ln s)) eqn:E;
      cbn [outcome events final fst snd ret]; try discriminate.
    intros [= <-]. now apply fetch_loop_no_raise in E.
  - intros e Hb Hg. rewrite !bind_run, (fetch_loop_retry _ _ _ _ _ Hb Hg).
    cbn [outcome events final fst snd].
    destruct (outcome (fetch_loop W fuel ln (tick s)));
      cbn [outcome events final fst snd ret]; repeat split;
      now rewrite <- ?app_assoc.
  - intros resp dict1 H. rewrite bind_run in H.
    destruct (outcome (fetch_loop W fuel ln s)) as [r| |] eqn:E;
      cbn [outcome events final fst snd ret] in H; try discriminate.
    injection H as <- <-. split; [reflexivity|].
    apply fetch_loop_returned in E as (_ & _ & k & Hk & _ & Hg). eauto.
Qed.

End FetchClaims.


(** ** Pagination *)

Section PaginationClaims.

Context {R : PyRuntime}.

Lemma distinct_NoDup (xs : list str) : distinct xs = true -> NoDup xs.
Proof.
  induction xs as [|x xs IH]; simpl; [constructor|].
  intros H. apply andb_true_iff in H as [H1 H2]. constructor; [|now apply IH].
  intros Hin. apply mem_In in Hin. rewrite Hin in H1. discriminate.
Qed.

Lemma property_types_NoDup : NoDup property_types.
Proof. apply distinct_NoDup. vm_compute. reflexivity. Qed.

Lemma no_post_for_app (pt : str) (a b : list event) :
  no_post_for pt a -> no_post_for pt b -> no_post_for pt (a ++ b).
Proof. intros Ha Hb. apply Forall_app. now split. Qed.

Lemma not_post_no_post_for (pt : str) (evs : list event) :
  Forall (fun e => ~ is_post e) evs -> no_post_for pt evs.
Proof.
  intros H. eapply Forall_impl; [|exact H].
  intros [] Hn; simpl in *; auto.
Qed.

Lemma not_post_stops (evs : list event) :
  Forall (fun e => ~ is_post e) evs -> stops_after_empty evs.
Proof.
  induction 1 as [|e evs He _ IH]; simpl; [exact Logic.I|].
  destruct e; simpl in *; auto. now destruct He.
Qed.

Lemma stops_app (a b : list event) :
  stops_after_empty a -> stops_after_empty b ->
  (forall pt p r, In (EvPost pt p r) a -> ends_pagination r = true ->
                  no_post_for pt b) ->
  stops_after_empty (a ++ b).
Proof.
  induction a as [|e a IH]; intros Ha Hb Hab; simpl; [exact Hb|].
  assert (stops_after_empty (a ++ b)) as Hrec.
  { apply IH; [destruct e; simpl in Ha; tauto | exact Hb |].
    intros pt p r Hin. apply (Hab pt p r). now right. }
  destruct e; simpl in *; auto.
  split; [|exact Hrec]. intros He. apply no_post_for_app; [tauto|].
  apply (Hab property_type page_num r); [left; reflexivity | exact He].
Qed.

(** The recursive reading and the reading by positions agree. *)
Lemma stops_after_empty_split (evs evs1 evs2 : list event) (pt : str)
      (page : nat) (r : post_result) :
  stops_after_empty evs -> evs = evs1 ++ EvPost pt page r :: evs2 ->
  ends_pagination r = true ->
  forall page' r', ~ In (EvPost pt page' r') evs2.
Proof.
  intros Hs -> He page' r' Hin. induction evs1 as [|e evs1 IH]; simpl in Hs.
  - destruct Hs as [Hs _]. specialize (Hs He).
    unfold no_post_for in Hs. rewrite Forall_forall in Hs.
    now apply (Hs _ Hin).
  - apply IH. destruct e; simpl in Hs; tauto.
Qed.

Lemma scrape_pages_stops (W : world) (fuel : nat) (pt : str) (page : nat)
      (s : state) :
  stops_after_empty (events (scrape_pages W fuel pt page s)).
Proof.
  revert page s. induction fuel as [|fuel IH]; intros page s.
  - exact Logic.I.
  - cbn [scrape_pages]. rewrite bind_run. unfold get_page_listings.
    assert (Hsat : forall ls : list listing,
              Forall (fun e => ~ is_post e)
                (events (for_each ls (process_listing W (S fuel)) (tick s)))).
    { intros ls.
      apply (sat_for_each (fun _ => True) (fun e => ~ is_post e) ls
               (process_listing W (S fuel))); [|exact Logic.I].
      intros x _. apply sat_process_listing; simpl; auto. }
    destruct (post W (clock s) pt page) as [e|[[|l ls]|]] eqn:Hp;
      cbn [outcome events final fst snd app]; rewrite bind_run;
      cbn [emit outcome events final fst snd app stops_after_empty
           ends_pagination].
    + split; [|exact Logic.I]. intros _. repeat constructor.
    + split; [|exact Logic.I]. intros _. repeat constructor.
    + split; [discriminate|]. rewrite bind_run.
      specialize (Hsat (l :: ls)).
      destruct (outcome (for_each (l :: ls) (process_listing W (S fuel)) (tick s)));
        cbn [outcome events final fst snd].
      * apply stops_app; [now apply not_post_stops | apply IH |].
        intros pt' p r Hin. rewrite Forall_forall in Hsat.
        now destruct (Hsat _ Hin).
      * now apply not_post_stops.
      * now apply not_post_stops.
    + split; [|exact Logic.I]. intros _. repeat constructor.
Qed.

Lemma scrape_all_stops (W : world) (fuel : nat) (pts : list str) (s : state) :
  NoDup pts ->
  stops_after_empty (events (for_each pts (fun pt => scrape_pages W fuel pt 1) s)).
Proof.
  revert s. induction pts as [|pt pts IH]; intros s Hnd; [exact Logic.I|].
  inversion Hnd as [|? ? Hnotin Hnd']; subst.
  cbn [for_each]. rewrite bind_run.
  destruct (outcome (scrape_pages W fuel pt 1 s)) as [[]| |];
    cbn [outcome events final fst snd]; try apply scrape_pages_stops.
  apply stops_app; [apply scrape_pages_stops | now apply IH |].
  intros pt' p r Hin _.
  assert (pt' = pt) as ->.
  { pose proof (sat_scrape_pages (fun _ => True) (posts_from [pt])
                  (fun _ _ _ _ => Logic.I) (fun _ _ => Logic.I)
                  (fun _ => Logic.I) (fun _ => Logic.I) (fun _ => Logic.I)
                  W fuel pt 1 (fun _ _ => or_introl eq_refl) s Logic.I)
      as [_ Hev].
    rewrite Forall_forall in Hev. specialize (Hev _ Hin). simpl in Hev.
    destruct Hev as [Hev|[]]. now subst. }
  pose proof (sat_scrape_all (fun _ => True) (posts_from pts)
                (fun _ _ _ _ => Logic.I) (fun _ _ => Logic.I)
                (fun _ => Logic.I) (fun _ => Logic.I) (fun _ => Logic.I)
                W fuel pts (fun _ _ _ H => H)
                (final (scrape_pages W fuel pt 1 s)) Logic.I) as [_ Hev].
  eapply Forall_impl; [|exact Hev].
  intros [] Hx; simpl in *; auto. intros ->. contradiction.
Qed.

End PaginationClaims.

(** ** The orchestrator *)

Section MainFacts.

Context {R : PyRuntime}.

Lemma try_except_run {A} (body : M A) (h : exn -> M A) (s : state) :
  try_except body h s =
  match outcome (body s) with
  | Raise e => (events (body s) ++ events (h e (final (body s))),
                final (h e (final (body s))), outcome (h e (final (body s))))
  | _ => body s
  end.
Proof.
  unfold try_except, events, final, outcome.
  destruct (body s) as [[ev1 s1] [a|e|]]; simpl; try reflexivity.
  now destruct (h e s1) as [[ev2 s2] r2].
Qed.

Lemma handler_run (W : world) (e : exn) (s : state) :
  handler W e s = (EvPrint (MsgExn e) :: notify_tail W e, s, handler_outcome W).
Proof.
  unfold handler, notify_tail, handler_outcome. rewrite bind_run.
  cbn [emit outcome events final fst snd app].
  destruct (bound W "send_discord_notification"); [|reflexivity].
  destruct (bound W "df"); reflexivity.
Qed.

(** What a run of [main] is made of: the events of the loops, then either
    the table, or the handler for the exception that escaped the loops or
    the dataset builder. *)
Lemma main_run (W : world) (fuel : nat) :
  let o := for_each property_types (fun pt => scrape_pages W fuel pt 1) initial in
  main W fuel =
  match outcome o with
  | Ret _ =>
      match build_table (values (dict2 (final o))) (today W) with
      | inr df => (events o ++ [EvExcel (lit "zoopla_data.xlsx") df], final o, Ret tt)
      | inl e => (events o ++ EvPrint (MsgExn e) :: notify_tail W e, final o,
                  handler_outcome W)
      end
  | Raise e => (events o ++ EvPrint (MsgExn e) :: notify_tail W e, final o,
                handler_outcome W)
  | Hang => (events o, final o, Hang)
  end.
Proof.
  intros o. unfold main. rewrite try_except_run. unfold main_body.
  rewrite !bind_run. fold o. destruct (outcome o) as [[]|e|];
    cbn [outcome events final fst snd].
  - unfold clean_property_data.
    destruct (build_table (values (dict2 (final o))) (today W)) as [e|df];
      cbn [raise emit outcome events final fst snd].
    + now rewrite handler_run, app_nil_r.
    + reflexivity.
  - now rewrite handler_run.
  - reflexivity.
Qed.

Lemma notify_tail_not_post (W : world) (e : exn) :
  Forall (fun ev => ~ is_post ev) (EvPrint (MsgExn e) :: notify_tail W e).
Proof.
  unfold notify_tail.
  destruct (bound W "send_discord_notification" && bound W "df");
    repeat constructor; simpl; auto.
Qed.

Lemma stops_app_tail (a b : list event) :
  stops_after_empty a -> Forall (fun e => ~ is_post e) b ->
  stops_after_empty (a ++ b).
Proof.
  intros Ha Hb. apply stops_app; [exact Ha | now apply not_post_stops |].
  intros pt p r _ _. now apply not_post_no_post_for.
Qed.

Lemma main_stops (W : world) (fuel : nat) :
  stops_after_empty (events (main W fuel)).
Proof.
  rewrite main_run.
  pose proof (scrape_all_stops W fuel property_types initial property_types_NoDup)
    as Hs.
  destruct (outcome (for_each property_types
                       (fun pt => scrape_pages W fuel pt 1) initial))
    as [[]|e|]; cbn [events fst].
  - destruct (build_table _ _); cbn [events fst]; apply stops_app_tail; auto;
      first [apply notify_tail_not_post | repeat constructor; simpl; auto].
  - apply stops_app_tail; [exact Hs | apply notify_tail_not_post].
  - exact Hs.
Qed.

(** C7. In the events of a run, after a search request that returned an
    empty list, [None], or failed (and so was turned into [None]), there
    is no further search request for the same property type. *)
Theorem C7_no_page_request_after_empty (W : world) (fuel : nat)
        (evs1 evs2 : list event) (pt : str) (page : nat) (r : post_result) :
  events (main W fuel) = evs1 ++ EvPost pt page r :: evs2 ->
  ends_pagination r = true ->
  forall page' r', ~ In (EvPost pt page' r') evs2.
Proof.
  intros Hev Hr. eapply stops_after_empty_split; eauto. apply main_stops.
Qed.

Lemma file_names_unbound (W : world) :
  extra_globals W = [] ->
  bound W "params" = false /\ bound W "send_discord_notification" = false /\
  bound W "df" = false.
Proof.
  intros H. unfold bound. rewrite H. repeat split; vm_compute; reflexivity.
Qed.

(** With the names the file binds and no other, the handler never reaches
    the notification: looking [send_discord_notification] up raises. *)
Lemma handler_name_error (W : world) (e : exn) (s : state) :
  extra_globals W = [] ->
  handler W e s =
  ([EvPrint (MsgExn e)], s, Raise (NameError (lit "send_discord_notification"))).
Proof.
  intros H. destruct (file_names_unbound W H) as (_ & Hs & _).
  rewrite handler_run. unfold notify_tail, handler_outcome. now rewrite Hs.
Qed.

Lemma notify_tail_unbound (W : world) (e : exn) :
  extra_globals W = [] -> notify_tail W e = [].
Proof.
  intros H. destruct (file_names_unbound W H) as (_ & Hs & _).
  unfold notify_tail. now rewrite Hs.
Qed.

(** With the names the file binds and no other, no run makes a
    notification. *)
Lemma main_never_notifies (W : world) (fuel : nat) :
  extra_globals W = [] ->
  Forall (fun ev => match ev with EvNotify _ => False | _ => True end)
         (events (main W fuel)).
Proof.
  intros H. rewrite main_run. cbv zeta.
  set (loops := for_each property_types _ initial).
  assert (Forall (fun ev => match ev with EvNotify _ => False | _ => True end)
                 (events loops)) as Hl.
  { apply (sat_scrape_all (fun _ => True)
             (fun ev => match ev with EvNotify _ => False | _ => True end));
      simpl; auto. }
  destruct (outcome loops) as [[]|e'|]; cbn [events fst].
  - destruct (build_table _ _) as [e'|df]; cbn [events fst];
      rewrite ?notify_tail_unbound by exact H;
      apply Forall_app; split; auto; repeat constructor.
  - rewrite notify_tail_unbound by exact H.
    apply Forall_app; split; auto; repeat constructor.
  - exact Hl.
Qed.

End MainFacts.

(** ** A missing feature section *)

Section AbortFacts.

Context {R : PyRuntime}.

Lemma split_unique {A} (P : A -> Prop) (a b a' b' : list A) (x x' : A) :
  Forall (fun e => ~ P e) a' -> Forall (fun e => ~ P e) b' -> P x ->
  a ++ x :: b = a' ++ x' :: b' -> a = a' /\ x = x' /\ b = b'.
Proof.
  intros Ha' Hb' Hx. revert a. induction Ha' as [|y a' Hy Ha' IH]; intros a E.
  - destruct a as [|z a]; simpl in E; injection E as -> E.
    + now subst.
    + subst b'. rewrite Forall_forall in Hb'. exfalso.
      apply (Hb' x); [apply in_or_app; right; now left | exact Hx].
  - destruct a as [|z a]; simpl in E; injection E as -> E.
    + contradiction.
    + destruct (IH a E) as (-> & -> & ->). auto.
Qed.

Lemma aborts_bind {A B} (m : M A) (k : A -> M B) :
  aborts_on_bad m -> (forall a, aborts_on_bad (k a)) -> aborts_on_bad (bind m k).
Proof.
  intros Hm Hk s. unfold clean_run, aborted. rewrite bind_run.
  destruct (Hm s) as [Hc|(evs & url & resp & Hev & Hf & Hb & Ho)].
  - destruct (outcome (m s)) as [a|e|]; cbn [events outcome fst snd];
      try (left; exact Hc).
    destruct (Hk a (final (m s))) as [Hc'|(evs & url & resp & Hev & Hf & Hb & Ho)].
    + left. apply Forall_app. split; assumption.
    + right. exists (events (m s) ++ evs), url, resp.
      rewrite Hev, app_assoc. split; [reflexivity|].
      split; [apply Forall_app; split; assumption|]. split; assumption.
  - rewrite Ho. cbn [events outcome fst snd]. right. exists evs, url, resp. auto.
Qed.

Lemma aborts_clean {A} (m : M A) :
  (forall s, Forall (fun e => ~ bad_get e) (events (m s))) -> aborts_on_bad m.
Proof. intros H s. left. apply H. Qed.

Lemma aborts_for_each {A} (xs : list A) (body : A -> M unit) :
  (forall x, aborts_on_bad (body x)) -> aborts_on_bad (for_each xs body).
Proof.
  intros H. induction xs as [|x xs IH]; simpl.
  - apply aborts_clean. intros s. constructor.
  - apply aborts_bind; [apply H | intros _; exact IH].
Qed.

(** The events of the fetch loop: failed attempts, then the accepted
    response and its status. *)
Lemma fetch_loop_shape (W : world) (fuel : nat) (ln : value) (s : state) :
  match outcome (fetch_loop W fuel ln s) with
  | Ret resp =>
      exists evs,
        events (fetch_loop W fuel ln s)
          = evs ++ [EvGet ln (GetReturns resp);
                    EvPrint (MsgStatus (status_code resp))] /\
        Forall (fun e => ~ bad_get e) evs /\
        occurs latitude_marker (text resp)
  | _ => Forall (fun e => ~ bad_get e) (events (fetch_loop W fuel ln s))
  end.
Proof.
  revert s. induction fuel as [|fuel IH]; intros s; cbn [fetch_loop].
  - constructor.
  - rewrite bind_run.
    assert (Hpre : forall (pre : list event) (s' : state) (e : exn),
              Forall (fun e => ~ bad_get e) pre ->
              match outcome (fetch_loop W fuel ln s') with
              | Ret resp =>
                  exists evs,
                    pre ++ retry_events ln e ++ events (fetch_loop W fuel ln s')
                    = evs ++ [EvGet ln (GetReturns resp);
                              EvPrint (MsgStatus (status_code resp))] /\
                    Forall (fun e => ~ bad_get e) evs /\
                    occurs latitude_marker (text resp)
              | _ => Forall (fun e => ~ bad_get e)
                       (pre ++ retry_events ln e ++ events (fetch_loop W fuel ln s'))
              end).
    { intros pre s' e Hp. specialize (IH s').
      assert (Forall (fun e => ~ bad_get e) (retry_events ln e)) as Hr
        by (repeat constructor; simpl; auto).
      destruct (outcome (fetch_loop W fuel ln s')) as [resp|e'|].
      - destruct IH as (evs & Hev & Hf & Ho).
        exists (pre ++ retry_events ln e ++ evs). rewrite Hev.
        rewrite <- !app_assoc. split; [reflexivity|]. split; [|exact Ho].
        repeat (apply Forall_app; split; auto).
      - repeat (apply Forall_app; split; auto).
      - repeat (apply Forall_app; split; auto). }
    unfold try_get. destruct (bound W "params").
    + destruct (get W (clock s) ln) as [e|r] eqn:Hg;
        cbn [outcome events final fst snd].
      * rewrite bind_run. cbn [emit outcome events final fst snd].
        specialize (Hpre [EvGet ln (GetRaises e)] (tick s) e).
        destruct (outcome (fetch_loop W fuel ln (tick s)));
          cbn [outcome events final fst snd]; apply Hpre;
          repeat constructor; simpl; auto.
      * destruct (item (split latitude_marker (text r)) 1) eqn:Hi;
          cbn [outcome events final fst snd ret].
        -- exists []. rewrite app_nil_r. repeat split; [constructor|].
           destruct (contains latitude_marker (text r)) eqn:C;
             [now apply contains_occurs|].
           apply contains_false in C.
           apply split_second in C; [congruence | discriminate].
        -- rewrite bind_run. cbn [emit outcome events final fst snd].
           apply split_second in Hi; [|discriminate].
           specialize (Hpre [EvGet ln (GetReturns r);
                             EvPrint (MsgStatus (status_code r))]
                            (tick s) IndexError).
           destruct (outcome (fetch_loop W fuel ln (tick s)));
             cbn [outcome events final fst snd];
             rewrite <- ?app_assoc; apply Hpre;
             repeat constructor; simpl; tauto.
    + cbn [outcome events final fst snd]. rewrite bind_run.
      cbn [emit outcome events final fst snd app].
      specialize (Hpre [] s (NameError (lit "params"))).
      destruct (outcome (fetch_loop W fuel ln s));
        cbn [outcome events final fst snd]; apply Hpre; constructor.
Qed.

Lemma process_listing_aborts (W : world) (fuel : nat) (l : listing) :
  aborts_on_bad (process_listing W fuel l).
Proof.
  intros s. unfold clean_run, aborted, process_listing, request_listing_data.
  rewrite !bind_run.
  pose proof (fetch_loop_shape W fuel (listing_url (listing_dict l)) s) as Hs.
  set (o := fetch_loop W fuel (listing_url (listing_dict l)) s) in *.
  destruct (outcome o) as [resp|e|]; cbn [ret outcome events final fst snd];
    try (left; exact Hs).
  destruct Hs as (evs & Hev & Hf & Hm). rewrite app_nil_r, bind_run.
  unfold parse_listing.
  destruct (parse_record resp (listing_dict l) l) as [e|d] eqn:Hp;
    cbn [emit outcome events final fst snd]; rewrite ?app_nil_r.
  - apply parse_record_inl in Hp as [[-> Hsec]|[-> [Hsec Hpt]]].
    + right. exists evs, (listing_url (listing_dict l)), resp.
      split; [exact Hev|]. split; [exact Hf|]. split; [|reflexivity].
      split; assumption.
    + left. rewrite Hev. apply Forall_app. split; [exact Hf|].
      repeat constructor; simpl; tauto.
  - apply parse_record_inr in Hp as (section & pt & Hsec & _).
    left. rewrite Hev, <- app_assoc. apply Forall_app. split; [exact Hf|].
    repeat constructor; simpl; try tauto. intros [_ H]. congruence.
Qed.

Lemma scrape_pages_aborts (W : world) (fuel : nat) (pt : str) (page : nat) :
  aborts_on_bad (scrape_pages W fuel pt page).
Proof.
  revert page. induction fuel as [|fuel IH]; intros page.
  - apply aborts_clean. intros s. constructor.
  - cbn [scrape_pages]. apply aborts_bind.
    + apply aborts_clean. intros s. unfold get_page_listings.
      destruct (post W (clock s) pt page); repeat constructor; simpl; tauto.
    + intros listings. apply aborts_bind.
      * apply aborts_clean. intros s. repeat constructor. simpl. tauto.
      * intros _. destruct listings as [[|l ls]|];
          try (apply aborts_clean; intros s; repeat constructor; simpl; tauto).
        apply aborts_bind; [|intros _; apply IH].
        apply aborts_for_each. intros x. apply process_listing_aborts.
Qed.

Lemma scrape_all_aborts (W : world) (fuel : nat) (pts : list str) :
  aborts_on_bad (for_each pts (fun pt => scrape_pages W fuel pt 1)).
Proof. apply aborts_for_each. intros pt. apply scrape_pages_aborts. Qed.

Lemma handler_events_clean (W : world) (e : exn) :
  Forall (fun ev => ~ bad_get ev) (EvPrint (MsgExn e) :: notify_tail W e) /\
  Forall (fun ev => match ev with EvExcel _ _ => False | _ => True end)
         (EvPrint (MsgExn e) :: notify_tail W e).
Proof.
  unfold notify_tail.
  destruct (bound W "send_discord_notification" && bound W "df");
    split; repeat constructor; simpl; tauto.
Qed.

(** C4. A detail payload without the feature section makes the extractor
    raise [AttributeError], which nothing catches before the handler of
    [main]: once such a payload has been fetched, the run prints the
    status, prints the exception and goes to the notification.  No other
    listing is fetched, no other page is requested, and no table is
    written: the failure ends the whole run, not only the processing of
    that listing. *)
Theorem C4_missing_section_aborts_run (W : world) (fuel : nat)
        (evs1 evs2 : list event) (url : value) (resp : response) :
  events (main W fuel) = evs1 ++ EvGet url (GetReturns resp) :: evs2 ->
  occurs latitude_marker (text resp) ->
  find_section_text (text resp) = None ->
  (forall dict1 l s, parse_listing resp dict1 l s = ([], s, Raise AttributeError)) /\
  evs2 = [EvPrint (MsgStatus (status_code resp)); EvPrint (MsgExn AttributeError)]
           ++ notify_tail W AttributeError /\
  outcome (main W fuel) = handler_outcome W /\
  (forall f t, ~ In (EvExcel f t) (events (main W fuel))).
Proof.
  intros Hev Hm Hsec. split.
  { intros dict1 l s. unfold parse_listing, parse_record.
    destruct (extract_postcode (text resp)) as [[? ?] ?].
    destruct (extract_geo (text resp)). now rewrite Hsec. }
  pose proof (main_run W fuel) as Hrun. cbv zeta in Hrun.
  pose proof (scrape_all_aborts W fuel property_types initial) as HQ.
  assert (Hx : Forall (fun e => match e with EvExcel _ _ => False | _ => True end)
                 (events (for_each property_types
                            (fun pt => scrape_pages W fuel pt 1) initial))).
  { apply (sat_scrape_all (fun _ => True)
             (fun e => match e with EvExcel _ _ => False | _ => True end));
      simpl; auto. }
  remember (for_each property_types (fun pt => scrape_pages W fuel pt 1) initial)
    as o eqn:Eo.
  destruct HQ as [Hc|(evs & url' & resp' & Hev' & Hf & Hb & Ho)].
  - exfalso.
    assert (Forall (fun e => ~ bad_get e) (events (main W fuel))) as Hall.
    { rewrite Hrun. unfold clean_run in Hc.
      destruct (outcome o) as [[]|e|]; cbn [events fst];
        [destruct (build_table _ _); cbn [events fst]| |];
        try (apply Forall_app; split; [exact Hc|]); try exact Hc;
        try apply handler_events_clean.
      repeat constructor. simpl. tauto. }
    rewrite Hev in Hall. apply Forall_app in Hall as [_ Hall].
    inversion Hall as [|? ? Hbad _]; subst. apply Hbad. simpl. now split.
  - rewrite Ho in Hrun. rewrite Hrun in Hev |- *.
    cbn [events outcome fst snd] in Hev |- *.
    rewrite Hev', <- app_assoc in Hev. cbn [app] in Hev.
    symmetry in Hev.
    apply (split_unique bad_get) in Hev as (-> & Hsame & ->).
    + injection Hsame as -> ->. split; [reflexivity|]. split; [reflexivity|].
      intros f t Hin. rewrite Hev' in Hx.
      apply in_app_or in Hin as [Hin|Hin].
      * rewrite <- Hev' in Hx. rewrite Forall_forall in Hx.
        exact (Hx _ Hin).
      * destruct (handler_events_clean W AttributeError) as [_ Hh].
        rewrite Forall_forall in Hh. exact (Hh _ Hin).
    + exact Hf.
    + constructor; [simpl; tauto | apply handler_events_clean].
    + simpl. now split.
Qed.

End AbortFacts.

(** ** The dataset builder *)

Section TableFacts.

Context {R : PyRuntime}.

Lemma row_eqb_eq (r1 r2 : row) : row_eqb r1 r2 = true <-> r1 = r2.
Proof.
  unfold row_eqb. destruct (row_eq_dec r1 r2); split; congruence.
Qed.

Lemma In_drop_duplicates_from (seen : list row) (df : frame) (r : row) :
  In r (drop_duplicates_from seen df) <-> In r df /\ ~ In r seen.
Proof.
  revert seen. induction df as [|x df IH]; intros seen; simpl; [tauto|].
  destruct (existsb (row_eqb x) seen) eqn:E.
  - apply existsb_exists in E as (y & Hy & Exy). apply row_eqb_eq in Exy.
    subst y. rewrite IH. split; [tauto|]. intros [[->|H] Hn]; tauto.
  - assert (~ In x seen) as Hx.
    { intros Hin. assert (existsb (row_eqb x) seen = true); [|congruence].
      apply existsb_exists. exists x. split; [exact Hin | now apply row_eqb_eq]. }
    simpl. rewrite IH. simpl. split.
    + intros [->|[H Hn]]; [tauto|]. split; [tauto|]. intros Hin. apply Hn. now right.
    + intros [[->|H] Hn]; [now left|].
      destruct (row_eq_dec x r) as [->|Hne]; [now left|].
      right. split; [exact H|]. intros [Hin|Hin]; contradiction.
Qed.

(** Dropping duplicates keeps exactly the rows that were there. *)
Lemma In_drop_duplicates (df : frame) (r : row) :
  In r (drop_duplicates df) <-> In r df.
Proof. unfold drop_duplicates. rewrite In_drop_duplicates_from. simpl. tauto. Qed.

(** The table is made of the final rows of the records, one by one. *)
Lemma build_table_inr (records : list row) (dt : str) (t : frame) :
  build_table records dt = inr t ->
  t = drop_duplicates (map (final_row (union_columns records) dt) records).
Proof.
  unfold build_table.
  destruct (concat_rows records) as [e|df0] eqn:E; [discriminate|].
  assert (df0 = map (reindex (union_columns records)) records) as ->.
  { unfold concat_rows in E. destruct records; [discriminate|]. now injection E. }
  clear E. destruct (mem (lit "price") _); [|discriminate].
  unfold select. destruct (filter _ final_columns); [|discriminate].
  intros [= <-]. f_equal. unfold assign, rename, replace_empty.
  rewrite !map_map. apply map_ext. intros r. reflexivity.
Qed.

Lemma build_table_rows (records : list row) (dt : str) (t : frame) (r : row) :
  build_table records dt = inr t ->
  (In r t <-> exists rec, In rec records /\
                          r = final_row (union_columns records) dt rec).
Proof.
  intros H. apply build_table_inr in H. subst t.
  rewrite In_drop_duplicates, in_map_iff. split; intros (rec & H1 & H2); eauto.
Qed.

Lemma union_columns_In (ds : list row) (d : row) (c : str) :
  In d ds -> In c (keys d) -> In c (union_columns ds).
Proof.
  unfold union_columns.
  assert (forall (ds : list row) acc,
            (In c acc \/ exists d, In d ds /\ In c (keys d)) ->
            In c (fold_left
                    (fun cols (d : row) =>
                       cols ++ filter (fun c => negb (mem c cols)) (keys d))
                    ds acc)) as H.
  { clear. induction ds as [|d ds IH]; intros acc Hc; simpl.
    - destruct Hc as [Hc|(d & [] & _)]. exact Hc.
    - apply IH. destruct Hc as [Hc|(d' & [<-|Hd] & Hk)].
      + left. apply in_or_app. now left.
      + left. apply in_or_app. destruct (mem c acc) eqn:E.
        * left. now apply mem_In.
        * right. apply filter_In. split; [exact Hk|]. now rewrite E.
      + right. eauto. }
  intros Hd Hc. apply H. right. eauto.
Qed.

Lemma dict_get_reindex (cols : list str) (rec : row) (c : str) :
  In c cols ->
  dict_get c (reindex cols rec)
  = Some (match dict_get c rec with Some v => v | None => VNaN end).
Proof.
  unfold reindex. induction cols as [|c0 cols IH]; intros Hc; [destruct Hc|].
  cbn [map dict_get]. destruct (str_eqb c c0) eqn:E.
  - apply str_eqb_eq in E. now subst.
  - apply IH. destruct Hc as [->|Hc]; [|exact Hc].
    rewrite str_eqb_refl in E. discriminate.
Qed.

Lemma In_set_same {V} (k : str) (v : V) (d : dict V) : In (k, v) (dict_set k v d).
Proof.
  induction d as [|[k0 v0] d IH]; simpl; [now left|].
  destruct (str_eqb k k0); simpl; auto.
Qed.

Lemma select_row_In (labels : list str) (r : row) (c : str) (v : value) :
  In c labels -> In (c, v) r -> In (c, v) (select_row labels r).
Proof.
  intros Hc Hr. unfold select_row. apply in_flat_map. exists c.
  split; [exact Hc|]. apply filter_In. split; [exact Hr|]. apply str_eqb_refl.
Qed.


(** The price cell of a final row is the normalised price of the record. *)
Lemma final_row_price (cols : list str) (dt : str) (rec : row) (v : value) :
  In (lit "price") cols -> dict_get (lit "price") rec = Some v ->
  In (lit "price", price_cell v) (final_row cols dt rec).
Proof.
  intros Hc Hv. unfold final_row.
  apply In_set_other; [discriminate|].
  apply select_row_In; [vm_compute; tauto|].
  assert (nan_if_empty (price_cell v) = price_cell v) as <-
    by (destruct v; reflexivity).
  apply (in_map (fun cell => (fst cell, nan_if_empty (snd cell))) _
                (lit "price", price_cell v)).
  apply (in_map (fun cell => (rename_label (fst cell), snd cell)) _
                (lit "price", price_cell v)).
  apply In_set_other; [discriminate|].
  unfold update_price.
  assert (dict_get (lit "price")
            (dict_set (lit "listing_condition") (VStr (lit "pre-owned"))
               (reindex cols rec)) = Some v) as ->.
  { rewrite dict_get_set_other by discriminate.
    rewrite dict_get_reindex by exact Hc. now rewrite Hv. }
  apply In_set_same.
Qed.

End TableFacts.

(** ** Price, feature columns, and one record per listing *)

Section BuilderClaims.

Context {R : PyRuntime}.

Lemma dict_get_keys_In {V} (k : str) (v : V) (d : dict V) :
  dict_get k d = Some v -> In k (keys d).
Proof.
  intros H. apply dict_get_In in H. unfold keys.
  now apply (in_map fst) in H.
Qed.

Lemma NoDup_In_get {V} (k : str) (v : V) (d : dict V) :
  NoDup (keys d) -> In (k, v) d -> dict_get k d = Some v.
Proof.
  induction d as [|[k0 v0] d IH]; intros Hnd Hin; [destruct Hin|].
  simpl in *. inversion Hnd as [|? ? Hnot Hnd']; subst.
  destruct Hin as [[= -> ->]|Hin].
  - now rewrite str_eqb_refl.
  - destruct (str_eqb k k0) eqn:E; [|now apply IH].
    apply str_eqb_eq in E. subst k0. exfalso. apply Hnot.
    now apply (in_map fst) in Hin.
Qed.

Lemma strip_price_display (s : str) :
  forallb (fun c => is_digit c || char_eqb c pound || char_eqb c 44%N) s = true ->
  strip_price s = filter is_digit s.
Proof.
  unfold strip_price. induction s as [|c s IH]; simpl; [reflexivity|].
  intros H. apply andb_true_iff in H as [Hc Hs]. rewrite (IH Hs).
  assert (negb (char_eqb c pound || char_eqb c 44%N) = is_digit c) as ->;
    [|reflexivity].
  unfold is_digit, char_eqb, pound in *.
  destruct (N.eqb_spec c 163), (N.eqb_spec c 44),
    (N.leb_spec 48 c), (N.leb_spec c 57); simpl in *;
    try reflexivity; try discriminate; lia.
Qed.

Lemma filter_digits (s : str) : forallb is_digit (filter is_digit s) = true.
Proof.
  induction s as [|c s IH]; simpl; [reflexivity|].
  destruct (is_digit c) eqn:E; simpl; [now rewrite E|exact IH].
Qed.

Lemma filter_digits_nonempty (s : str) :
  existsb is_digit s = true -> filter is_digit s <> [].
Proof.
  induction s as [|c s IH]; simpl; [discriminate|].
  destruct (is_digit c); simpl; [discriminate | exact IH].
Qed.

(** The price cell: digits with pound signs and commas become the number
    the digits denote; what cannot be read becomes [0]. *)
Lemma price_cell_display (s : str) :
  reads_decimal -> display_price s ->
  (digits_value (filter is_digit s) < 2 ^ 63)%Z ->
  price_cell (VStr s) = VInt (digits_value (filter is_digit s)).
Proof.
  intros Hread [Hall Hex] Hrange. unfold price_cell.
  rewrite (strip_price_display s Hall).
  rewrite Hread; auto using filter_digits, filter_digits_nonempty.
Qed.

Lemma price_cell_unparseable (s : str) :
  to_numeric (strip_price s) = None -> price_cell (VStr s) = VInt 0.
Proof. intros H. unfold price_cell. now rewrite H. Qed.

(** C2. In the table the dataset builder makes, the price of a record
    whose display price consists of digits, pound signs and commas is the
    integer its digits denote (within the 64-bit range of the column), and
    the price of a record whose display price cannot be read as a number,
    once pound signs and commas are removed, is [0]. *)
Theorem C2_price_normalisation (records : list row) (dt : str) (t : frame)
        (rec : row) (s : str) :
  reads_decimal ->
  build_table records dt = inr t ->
  In rec records ->
  dict_get (lit "price") rec = Some (VStr s) ->
  let r := final_row (union_columns records) dt rec in
  In r t /\
  (display_price s -> (digits_value (filter is_digit s) < 2 ^ 63)%Z ->
     price_cell (VStr s) = VInt (digits_value (filter is_digit s)) /\
     In (lit "price", VInt (digits_value (filter is_digit s))) r) /\
  (to_numeric (strip_price s) = None ->
     price_cell (VStr s) = VInt 0 /\ In (lit "price", VInt 0) r).
Proof.
  intros Hread Ht Hrec Hp r.
  assert (In (lit "price", price_cell (VStr s)) r) as Hcell.
  { apply final_row_price; [|exact Hp].
    eapply union_columns_In; [exact Hrec|]. eapply dict_get_keys_In; eauto. }
  split; [|split].
  - apply (build_table_rows _ _ _ r Ht). eauto.
  - intros Hd Hrange. rewrite <- (price_cell_display s Hread Hd Hrange). auto.
  - intros Hn. rewrite <- (price_cell_unparseable s Hn). auto.
Qed.




Lemma parse_listing_returns (resp : response) (dict1 : dict value) (l : listing)
      (s : state) :
  outcome (parse_listing resp dict1 l s) = Ret tt ->
  exists rec, parse_record resp dict1 l = inr rec /\
              dict2 (final (parse_listing resp dict1 l s))
              = dict_set (listingId l) rec (dict2 s).
Proof.
  unfold parse_listing. destruct (parse_record resp dict1 l) as [e|rec];
    cbn [outcome final fst snd dict2]; [discriminate|]. eauto.
Qed.

Lemma main_final (W : world) (fuel : nat) :
  final (main W fuel)
  = final (for_each property_types (fun pt => scrape_pages W fuel pt 1) initial).
Proof.
  rewrite main_run. cbv zeta.
  destruct (outcome _) as [[]|e|]; cbn [final fst snd]; try reflexivity.
  now destruct (build_table _ _).
Qed.

(** C10. [dict2] never holds two records under one listing identifier:
    the assignment in [parse_listing] puts the new record in the place of
    an earlier one with the same identifier and leaves the others as they
    are, and every row of the table that is written is the final row of a
    record that [dict2] holds at the end. *)
Theorem C10_one_record_per_listing (W : world) (fuel : nat) :
  NoDup (keys (dict2 (final (main W fuel)))) /\
  (forall resp dict1 l s,
     NoDup (keys (dict2 s)) ->
     outcome (parse_listing resp dict1 l s) = Ret tt ->
     let s' := final (parse_listing resp dict1 l s) in
     NoDup (keys (dict2 s')) /\
     (exists rec, parse_record resp dict1 l = inr rec /\
                  dict_get (listingId l) (dict2 s') = Some rec) /\
     (forall k, k <> listingId l ->
                dict_get k (dict2 s') = dict_get k (dict2 s)) /\
     (In (listingId l) (keys (dict2 s)) -> keys (dict2 s') = keys (dict2 s))) /\
  (forall f t r,
     In (EvExcel f t) (events (main W fuel)) -> In r t ->
     exists id rec,
       dict_get id (dict2 (final (main W fuel))) = Some rec /\
       r = final_row (union_columns (values (dict2 (final (main W fuel)))))
                     (today W) rec).
Proof.
  assert (Hsat : sat (fun d => NoDup (keys d)) (fun e => match e with
                      | EvExcel _ _ => False | _ => True end)
                   (for_each property_types (fun pt => scrape_pages W fuel pt 1))).
  { apply sat_scrape_all; simpl; auto. intros k v d. apply NoDup_keys_set. }
  destruct (Hsat initial) as [Hnd Hev]; [constructor|].
  split; [now rewrite main_final|]. split.
  - intros resp dict1 l s Hs Hret s'.
    destruct (parse_listing_returns _ _ _ _ Hret) as (rec & Hrec & Hd).
    subst s'. rewrite Hd. split; [now apply NoDup_keys_set|].
    split; [exists rec; split; [exact Hrec | apply dict_get_set_same]|].
    split; [intros k Hk; now apply dict_get_set_other|].
    intros Hin. rewrite keys_set. apply mem_In in Hin. now rewrite Hin.
  - intros f t r Hin Hr. rewrite main_final. rewrite main_run in Hin.
    cbv zeta in Hin.
    remember (for_each property_types (fun pt => scrape_pages W fuel pt 1) initial)
      as o eqn:Eo.
    assert (forall e, ~ In (EvExcel f t) (events o ++ EvPrint (MsgExn e)
                                            :: notify_tail W e)) as Hno.
    { intros e H. apply in_app_or in H as [H|H].
      - rewrite Forall_forall in Hev. exact (Hev _ H).
      - destruct (handler_events_clean W e) as [_ Hh].
        rewrite Forall_forall in Hh. exact (Hh _ H). }
    destruct (outcome o) as [[]|e|]; cbn [events fst] in Hin.
    + destruct (build_table (values (dict2 (final o))) (today W)) as [e|df] eqn:Et;
        cbn [events fst] in Hin; [now apply Hno in Hin|].
      apply in_app_or in Hin as [Hin|[Hin|[]]].
      * rewrite Forall_forall in Hev. destruct (Hev _ Hin).
      * injection Hin as _ <-.
        apply (build_table_rows _ _ _ r Et) in Hr as (rec & Hrec & ->).
        unfold values in Hrec. apply in_map_iff in Hrec as ([id rec'] & <- & Hrec).
        exists id, rec'. split; [|reflexivity].
        now apply NoDup_In_get.
    + now apply Hno in Hin.
    + rewrite Forall_forall in Hev. destruct (Hev _ Hin).
Qed.

End BuilderClaims.

(** Both sides of an equation evaluate to the same value. *)
Ltac by_evaluation :=
  match goal with
  | |- ?x = ?y => exact (@eq_refl _ x <: x = y)
  end.

Lemma C5_fetch_retries_until_success_witness :
  let W := Reference.flaky_world in
  let l := Reference.sample_listing in
  let ln := @listing_url Reference.runtime (listing_dict l) in
  let e := RequestError (lit "Read timed out") in
  events (request_listing_data W 4 l initial) =
    [EvGet ln (GetRaises e); EvPrint (MsgGetError e); EvPrint (MsgValue ln);
     EvSleep 30] ++ events (request_listing_data W 3 l (tick initial)) /\
  outcome (request_listing_data W 4 l initial)
    = Ret (Reference.sample_response, listing_dict l).
Proof.
  intros W l ln e.
  destruct (C5_fetch_retries_until_success W 3 l initial) as (_ & Hretry & _).
  destruct (Hretry e) as (Hev & _ & _).
  - vm_compute. reflexivity.
  - reflexivity.
  - split; [exact Hev | by_evaluation].
Defined.

Lemma C7_no_page_request_after_empty_witness :
  let evs := events (@main Reference.runtime Reference.sample_world 3) in
  nth_error evs 5 = Some (EvPost (lit "farms_land") 2 (PostReturns (Some []))) /\
  forall page' r', ~ In (EvPost (lit "farms_land") page' r') (skipn 6 evs).
Proof.
  intros evs. split; [by_evaluation|].
  apply (C7_no_page_request_after_empty Reference.sample_world 3
           (firstn 5 evs) (skipn 6 evs) (lit "farms_land") 2
           (PostReturns (Some []))).
  - by_evaluation.
  - reflexivity.
Defined.

(** C9 (the code departs from the claim). With the names the file binds,
    a run in which nothing is scraped raises [ValueError] in the dataset
    builder; the handler prints it, and the evaluation of
    [send_discord_notification(df,e)] raises [NameError]: no notification
    is made and the [NameError] leaves [main]. *)
Theorem C9_notification_raises_name_error :
  let o := @main Reference.runtime Reference.empty_world 1 in
  outcome o = Raise (NameError (lit "send_discord_notification")) /\
  last (events o) (EvSleep 0)
    = EvPrint (MsgExn (ValueError (lit "No objects to concatenate"))) /\
  forall e, ~ In (EvNotify e) (events o).
Proof.
  intros o. split; [by_evaluation|]. split; [by_evaluation|].
  intros e Hin.
  pose proof (main_never_notifies Reference.empty_world 1 eq_refl) as Hall.
  rewrite Forall_forall in Hall. exact (Hall _ Hin).
Qed.

Lemma reference_reads_decimal : @reads_decimal Reference.runtime.
Proof.
  intros ds Hne Hd _. simpl. unfold Reference.parse_digits.
  destruct ds; [contradiction|]. now rewrite Hd.
Qed.

(** Name the value under [inr] that a closed computation returns. *)
Ltac eval_inr name X :=
  let y := eval vm_compute in X in
  match y with
  | inr ?d => pose (name := d);
              assert (X = inr name) by (exact (@eq_refl _ y <: X = inr name))
  end.

Lemma C2_price_normalisation_witness :
  exists rec1 rec2 t,
    @parse_record Reference.runtime Reference.sample_response
       (listing_dict Reference.sample_listing) Reference.sample_listing = inr rec1 /\
    @parse_record Reference.runtime Reference.bare_response
       (listing_dict Reference.bad_listing) Reference.bad_listing = inr rec2 /\
    build_table [rec1; rec2] Reference.run_date = inr t /\
    (exists r, In r t /\ In (lit "price", VInt 250000) r) /\
    (exists r, In r t /\ In (lit "price", VInt 0) r).
Proof.
  eval_inr rec1 (@parse_record Reference.runtime Reference.sample_response
                   (listing_dict Reference.sample_listing) Reference.sample_listing).
  eval_inr rec2 (@parse_record Reference.runtime Reference.bare_response
                   (listing_dict Reference.bad_listing) Reference.bad_listing).
  eval_inr t (build_table [rec1; rec2] Reference.run_date).
  exists rec1, rec2, t. do 3 (split; [assumption|]). split.
  - destruct (C2_price_normalisation [rec1; rec2] Reference.run_date t rec1
                (price Reference.sample_listing) reference_reads_decimal)
      as (Hin & Hd & _); [assumption | now left | by_evaluation |].
    eexists. split; [exact Hin|]. apply Hd.
    + split; vm_compute; reflexivity.
    + vm_compute. reflexivity.
  - destruct (C2_price_normalisation [rec1; rec2] Reference.run_date t rec2
                (price Reference.bad_listing) reference_reads_decimal)
      as (Hin & _ & Hn); [assumption | right; now left | by_evaluation |].
    eexists. split; [exact Hin|]. apply Hn. vm_compute. reflexivity.
Defined.



Lemma fetched_false (url : value) (evs : list (@event Reference.runtime)) :
  fetched url evs = false -> forall r, ~ In (EvGet url r) evs.
Proof.
  intros H r Hin. unfold fetched in H.
  assert (existsb (fun e => match e with
                            | EvGet u _ => if value_eq_dec url u then true else false
                            | _ => false
                            end) evs = true); [|congruence].
  apply existsb_exists. exists (EvGet url r). split; [exact Hin|].
  now destruct (value_eq_dec url url).
Qed.

Lemma C4_missing_section_aborts_run_witness :
  let o := @main Reference.runtime Reference.broken_world 4 in
  skipn 3 (events o) = [EvPrint (MsgStatus 200); EvPrint (MsgExn AttributeError)] /\
  outcome o = Raise (NameError (lit "send_discord_notification")) /\
  forall f t, ~ In (EvExcel f t) (events o).
Proof.
  intros o.
  destruct (C4_missing_section_aborts_run Reference.broken_world 4
              (firstn 2 (events o)) (skipn 3 (events o))
              (VStr (base_url ++ detail Reference.bad_listing))
              Reference.no_section_response)
    as (_ & Hev & Hout & Hno).
  - by_evaluation.
  - apply contains_occurs. vm_compute. reflexivity.
  - vm_compute. reflexivity.
  - split; [rewrite Hev; by_evaluation|].
    split; [|exact Hno].
    transitivity (handler_outcome Reference.broken_world);
      [exact Hout | by_evaluation].
Defined.

(** C4, as the claim states it, fails: on a page of two listings of which
    the first has no feature section, the second listing is never fetched
    and nothing is stored; the run ends in the handler. *)
Lemma C4_other_listings_not_processed :
  let o := @main Reference.runtime Reference.broken_world 4 in
  post Reference.broken_world 0 (lit "farms_land") 1
    = PostReturns (Some [Reference.bad_listing; Reference.sample_listing]) /\
  @find_section_text Reference.runtime (text Reference.no_section_response)
    = None /\
  (exists r, In (EvGet (listing_url (listing_dict Reference.bad_listing)) r)
                (events o)) /\
  (forall r, ~ In (EvGet (listing_url (listing_dict Reference.sample_listing)) r)
                  (events o)) /\
  dict2 (final o) = [] /\
  outcome o = Raise (NameError (lit "send_discord_notification")).
Proof.
  intros o. split; [reflexivity|]. split; [vm_compute; reflexivity|].
  split; [|split; [|split; by_evaluation]].
  - exists (GetReturns Reference.no_section_response).
    assert (nth_error (events o) 2
            = Some (EvGet (listing_url (listing_dict Reference.bad_listing))
                          (GetReturns Reference.no_section_response))) as E
      by by_evaluation.
    eapply nth_error_In. exact E.
  - apply fetched_false. by_evaluation.
Qed.

Lemma C10_one_record_per_listing_witness :
  let l := Reference.sample_listing in
  let s1 := final (@parse_listing Reference.runtime Reference.sample_response
                     (listing_dict l) l initial) in
  let s2 := final (parse_listing Reference.bare_response (listing_dict l) l s1) in
  keys (dict2 s1) = [listingId l] /\
  keys (dict2 s2) = [listingId l] /\
  dict_get (listingId l) (dict2 s2) <> dict_get (listingId l) (dict2 s1) /\
  exists rec, parse_record Reference.bare_response (listing_dict l) l = inr rec /\
              dict_get (listingId l) (dict2 s2) = Some rec.
Proof.
  intros l s1 s2.
  assert (keys (dict2 s1) = [listingId l]) as K1 by by_evaluation.
  destruct (C10_one_record_per_listing Reference.sample_world 1) as (_ & Hset & _).
  destruct (Hset Reference.bare_response (listing_dict l) l s1)
    as (_ & Hrec & _ & Hkeys).
  - rewrite K1. constructor; [intros []|constructor].
  - by_evaluation.
  - split; [exact K1|]. split; [|split; [|exact Hrec]].
    + fold s2 in Hkeys. rewrite Hkeys; [exact K1|]. rewrite K1. now left.
    + pose (lat := fun o : option (dict (@value Reference.runtime)) =>
                     match o with
                     | Some rec => dict_get (lit "latitude") rec
                     | None => None
                     end).
      assert (lat (dict_get (listingId l) (dict2 s2)) = Some (VStr [])) as E2
        by by_evaluation.
      assert (lat (dict_get (listingId l) (dict2 s1))
              = Some (@VFloat Reference.runtime
                        (QArith_base.Qmake 515 10 : @pyfloat Reference.runtime)))
        as E1 by by_evaluation.
      intros H'. apply (f_equal lat) in H'. rewrite E1, E2 in H'. discriminate.
Defined.

(** ** The scenario of one listing, end to end

    One listing with price ["£250,000"] and address ["SW1A 1AA, London"],
    a detail payload with incode ["1AA"], outcode ["SW1A"], latitude
    ["51.5"] and longitude ["-0.14"]: the table written has one row, with
    these cells. *)
Example one_listing_end_to_end :
  exists r,
    last (events (@main Reference.runtime Reference.sample_world 3)) (EvSleep 0)
      = EvExcel (lit "zoopla_data.xlsx") [r] /\
    dict_get (lit "price") r = Some (VInt 250000) /\
    dict_get (lit "postcode") r = Some (VStr (lit "SW1A 1AA")) /\
    dict_get (lit "display_address") r = Some (VStr (lit "SW1A, London")) /\
    dict_get (lit "latitude") r
      = Some (@VFloat Reference.runtime
                (QArith_base.Qmake 515 10 : @pyfloat Reference.runtime)) /\
    dict_get (lit "longitude") r
      = Some (@VFloat Reference.runtime
                (QArith_base.Qmake (-14) 100 : @pyfloat Reference.runtime)) /\
    dict_get (lit "listing_condition") r = Some (VStr (lit "pre-owned")) /\
    dict_get (lit "date") r = Some (VStr Reference.run_date).
Proof.
  eexists. split; [run|]. repeat split; by_evaluation.
Qed.

(** As the file stands, [params] is unbound: a run that finds a listing
    stays in the fetch loop of that listing, whatever the fuel. *)
Example shipped_file_hangs_on_first_listing :
  let W := {| post := fun _ => Reference.first_page [Reference.sample_listing];
              get := fun _ _ => GetReturns Reference.sample_response;
              today := Reference.run_date;
              extra_globals := [] |} in
  outcome (@main Reference.runtime W 50) = Hang /\
  dict2 (final (@main Reference.runtime W 50)) = [] /\
  fetched (listing_url (listing_dict Reference.sample_listing))
          (events (@main Reference.runtime W 50)) = false.
Proof. intros W. repeat split; by_evaluation. Qed.

(** * Further properties of the code *)

(** ** The fetch loop, attempt by attempt *)

Section FetchSteps.

Context {R : PyRuntime}.

Lemma accepted_occurs (r : get_result) (resp : response) :
  accepted r = Some resp ->
  r = GetReturns resp /\ occurs latitude_marker (text resp).
Proof.
  destruct r as [e|r0]; cbn [accepted]; [discriminate|].
  destruct (item (split latitude_marker (text r0)) 1) eqn:E; [|discriminate].
  intros [= <-]. split; [reflexivity|].
  destruct (contains latitude_marker (text r0)) eqn:C;
    [now apply contains_occurs|].
  apply contains_false in C. apply split_second in C; [congruence|discriminate].
Qed.

Lemma accepted_none_returns (resp : response) :
  ~ occurs latitude_marker (text resp) -> accepted (GetReturns resp) = None.
Proof.
  intros H. cbn [accepted]. apply split_second in H; [|discriminate].
  now rewrite H.
Qed.

(** One turn of the loop when [params] is bound. *)
Lemma fetch_loop_step (W : world) (fuel : nat) (ln : value) (s : state) :
  bound W "params" = true ->
  fetch_loop W (S fuel) ln s =
  match accepted (get W (clock s) ln) with
  | Some resp =>
      ([EvGet ln (GetReturns resp); EvPrint (MsgStatus (status_code resp))],
       tick s, Ret resp)
  | None =>
      (rejected_attempt ln (get W (clock s) ln)
         ++ events (fetch_loop W fuel ln (tick s)),
       final (fetch_loop W fuel ln (tick s)),
       outcome (fetch_loop W fuel ln (tick s)))
  end.
Proof.
  intros Hb. cbn [fetch_loop]. rewrite bind_run. unfold try_get. rewrite Hb.
  destruct (get W (clock s) ln) as [e|r]; cbn [accepted rejected_attempt].
  - cbn [outcome events final fst snd]. rewrite bind_run.
    cbn [emit outcome events final fst snd app]. reflexivity.
  - destruct (item (split latitude_marker (text r)) 1);
      cbn [outcome events final fst snd ret].
    + now rewrite app_nil_r.
    + rewrite bind_run. cbn [emit outcome events final fst snd app].
      reflexivity.
Qed.

Lemma sleeps_app (a b : list event) : sleeps (a ++ b) = sleeps a ++ sleeps b.
Proof. unfold sleeps. apply flat_map_app. Qed.

Lemma sleeps_rejected (ln : value) (r : get_result) :
  sleeps (rejected_attempt ln r) = [30].
Proof. destruct r; reflexivity. Qed.

Lemma fetch_loop_dict2 (W : world) (fuel : nat) (ln : value) (s : state) :
  dict2 (final (fetch_loop W fuel ln s)) = dict2 s.
Proof.
  destruct (sat_fetch_loop (fun d => d = dict2 s) (fun _ => True)
              (fun _ _ => Logic.I) (fun _ => Logic.I) (fun _ => Logic.I)
              W fuel ln s eq_refl) as [H _].
  exact H.
Qed.

Lemma fetch_loop_after_rejections (W : world) (ln : value) (n : nat) :
  bound W "params" = true ->
  forall (s : state) (resp : response) (fuel : nat),
    (forall i, i < n -> accepted (get W (clock s + i) ln) = None) ->
    accepted (get W (clock s + n) ln) = Some resp ->
    n < fuel ->
    outcome (fetch_loop W fuel ln s) = Ret resp /\
    clock (final (fetch_loop W fuel ln s)) = clock s + n + 1 /\
    sleeps (events (fetch_loop W fuel ln s)) = repeat 30 n.
Proof.
  intros Hb. induction n as [|n IH]; intros s resp fuel Hrej Hacc Hfuel;
    (destruct fuel as [|fuel]; [lia|]); rewrite (fetch_loop_step _ _ _ _ Hb).
  - rewrite Nat.add_0_r in Hacc. rewrite Hacc.
    cbn [outcome events final fst snd tick clock].
    repeat split. lia.
  - rewrite <- (Nat.add_0_r (clock s)), (Hrej 0) by lia.
    rewrite Nat.add_0_r.
    destruct (IH (tick s) resp fuel) as (Ho & Hc & Hs).
    + intros i Hi. cbn [tick clock]. rewrite Nat.add_succ_l, <- Nat.add_succ_r.
      apply Hrej. lia.
    + cbn [tick clock]. now rewrite Nat.add_succ_l, <- Nat.add_succ_r.
    + lia.
    + cbn [outcome events final fst snd]. split; [exact Ho|]. split.
      * rewrite Hc. cbn [tick clock]. lia.
      * rewrite sleeps_app, sleeps_rejected, Hs. reflexivity.
Qed.

End FetchSteps.

Section FetchExtras.

Context {R : PyRuntime}.

Lemma request_listing_data_run (W : world) (fuel : nat) (l : listing) (s : state) :
  request_listing_data W fuel l s =
  (events (fetch_loop W fuel (listing_url (listing_dict l)) s),
   final (fetch_loop W fuel (listing_url (listing_dict l)) s),
   match outcome (fetch_loop W fuel (listing_url (listing_dict l)) s) with
   | Ret resp => Ret (resp, listing_dict l)
   | Raise e => Raise e
   | Hang => Hang
   end).
Proof.
  unfold request_listing_data. rewrite bind_run.
  destruct (outcome (fetch_loop W fuel (listing_url (listing_dict l)) s));
    cbn [ret outcome events final fst snd]; now rewrite ?app_nil_r.
Qed.

(** X1. When [params] is bound, the detail fetch returns the first answer
    it accepts: if the next [n] answers are exceptions or responses without
    the latitude marker and the one after is a response with the marker,
    then (given more than [n] turns) the fetch returns that response with
    the dictionary of the listing, after exactly [n] sleeps of 30 and
    [n + 1] requests, and leaves [dict2] as it was. *)
Theorem X1_fetch_returns_first_accepted (W : world) (l : listing) (s : state)
        (n : nat) (resp : response) (fuel : nat) :
  bound W "params" = true ->
  (forall i, i < n ->
     accepted (get W (clock s + i) (listing_url (listing_dict l))) = None) ->
  accepted (get W (clock s + n) (listing_url (listing_dict l))) = Some resp ->
  n < fuel ->
  outcome (request_listing_data W fuel l s) = Ret (resp, listing_dict l) /\
  clock (final (request_listing_data W fuel l s)) = clock s + n + 1 /\
  dict2 (final (request_listing_data W fuel l s)) = dict2 s /\
  sleeps (events (request_listing_data W fuel l s)) = repeat 30 n.
Proof.
  intros Hb Hrej Hacc Hfuel. rewrite request_listing_data_run.
  cbn [outcome events final fst snd].
  destruct (fetch_loop_after_rejections W _ n Hb s resp fuel Hrej Hacc Hfuel)
    as (Ho & Hc & Hs).
  rewrite Ho, fetch_loop_dict2. auto.
Qed.

(** X2. A response without the latitude marker is treated like a failed
    request, whatever its status: the status is printed, then the
    [IndexError] and the url, the loop sleeps 30 and tries again. *)
Theorem X2_markerless_response_is_retried (W : world) (fuel : nat) (l : listing)
        (s : state) (r : response) :
  let ln := listing_url (listing_dict l) in
  bound W "params" = true ->
  get W (clock s) ln = GetReturns r ->
  ~ occurs latitude_marker (text r) ->
  events (request_listing_data W (S fuel) l s) =
    [EvGet ln (GetReturns r); EvPrint (MsgStatus (status_code r));
     EvPrint (MsgGetError IndexError); EvPrint (MsgValue ln); EvSleep 30]
    ++ events (request_listing_data W fuel l (tick s)) /\
  final (request_listing_data W (S fuel) l s)
    = final (request_listing_data W fuel l (tick s)) /\
  outcome (request_listing_data W (S fuel) l s)
    = outcome (request_listing_data W fuel l (tick s)).
Proof.
  intros ln Hb Hg Hm. rewrite !request_listing_data_run. fold ln.
  rewrite (fetch_loop_step _ _ _ _ Hb), Hg, (accepted_none_returns _ Hm).
  cbn [outcome events final fst snd rejected_attempt retry_events app].
  repeat split.
Qed.

(** X3. If no answer to the requests for a listing is ever accepted, the
    detail fetch does not end: it neither returns nor raises, however many
    turns it is given. *)
Theorem X3_fetch_never_ends_without_accepted_answer (W : world) (l : listing) :
  (forall k, accepted (get W k (listing_url (listing_dict l))) = None) ->
  forall fuel s, outcome (request_listing_data W fuel l s) = Hang.
Proof.
  intros Hnone fuel s. rewrite request_listing_data_run. cbn [outcome snd].
  destruct (outcome (fetch_loop W fuel (listing_url (listing_dict l)) s))
    as [resp|e|] eqn:E; [| |reflexivity].
  - apply fetch_loop_returned in E as (_ & Hm & k & _ & _ & Hg).
    specialize (Hnone k). rewrite Hg in Hnone. cbn [accepted] in Hnone.
    apply split_second in Hm; [contradiction|discriminate|].
    destruct (item (split latitude_marker (text resp)) 1); congruence.
  - now apply fetch_loop_no_raise in E.
Qed.

Lemma fetch_loop_unbound_run (W : world) (fuel : nat) (ln : value) (s : state) :
  bound W "params" = false ->
  fetch_loop W fuel ln s =
  (concat (repeat (retry_events ln (NameError (lit "params"))) fuel), s, Hang).
Proof.
  intros Hb. induction fuel as [|fuel IH]; cbn [fetch_loop]; [reflexivity|].
  unfold bind at 1. unfold try_get. rewrite Hb. cbn beta iota.
  unfold bind, emit. rewrite IH. reflexivity.
Qed.

Section Unbound.

Variable W : world.
Hypothesis params_unbound : bound W "params" = false.

Variable I : dict row -> Prop.
Variable P : event -> Prop.
Hypothesis P_print : forall m, P (EvPrint m).
Hypothesis P_sleep : forall n, P (EvSleep n).

Lemma unbound_process_listing (fuel : nat) (l : listing) :
  sat I P (process_listing W fuel l).
Proof.
  intros s Hs. unfold process_listing. rewrite bind_run.
  rewrite request_listing_data_run, (fetch_loop_unbound_run _ _ _ _ params_unbound).
  cbn [outcome events final fst snd]. split; [exact Hs|].
  induction fuel as [|n IH]; simpl; [constructor|].
  repeat (constructor; auto).
Qed.

Lemma unbound_scrape_pages (fuel : nat) (pt : str) (page_num : nat) :
  (forall n r, P (EvPost pt n r)) ->
  sat I P (scrape_pages W fuel pt page_num).
Proof.
  intros Hp. revert page_num. induction fuel as [|fuel IH]; intros page_num.
  - apply sat_hang.
  - cbn [scrape_pages].
    apply sat_bind; [apply sat_get_page_listings; auto|].
    intros listings. apply sat_bind; [apply sat_emit; all_events|]. intros _.
    destruct listings as [[|l ls]|]; try (apply sat_emit; all_events).
    apply sat_bind; [|intros _; apply IH].
    apply sat_for_each. intros x _. apply unbound_process_listing.
Qed.

End Unbound.

(** X4. With the name [params] unbound, as in the file, the detail fetch
    never makes a request and never ends, so a run of [main] requests no
    detail page, stores no record and writes no table. *)
Theorem X4_unbound_params_nothing_scraped (W : world) (fuel : nat) :
  bound W "params" = false ->
  (forall l s, outcome (request_listing_data W fuel l s) = Hang /\
               final (request_listing_data W fuel l s) = s) /\
  (forall url r, ~ In (EvGet url r) (events (main W fuel))) /\
  dict2 (final (main W fuel)) = [] /\
  (forall f t, ~ In (EvExcel f t) (events (main W fuel))).
Proof.
  intros Hb. split.
  { intros l s. rewrite request_listing_data_run.
    now rewrite (fetch_loop_unbound_run _ _ _ _ Hb). }
  set (P := fun e : event => match e with
                             | EvGet _ _ | EvExcel _ _ => False
                             | _ => True
                             end).
  assert (Forall P (events (main W fuel)) /\ dict2 (final (main W fuel)) = [])
    as [Hev Hd].
  { rewrite main_run. cbv zeta.
    destruct (sat_for_each (fun d => d = []) P property_types
                (fun pt => scrape_pages W fuel pt 1)
                (fun pt _ => unbound_scrape_pages W Hb (fun d => d = []) P
                               (fun _ => Logic.I) (fun _ => Logic.I)
                               fuel pt 1 (fun _ _ => Logic.I))
                initial eq_refl) as [Hd Hev].
    destruct (outcome _) as [[]|e|]; cbn [events final fst snd].
    - rewrite Hd. cbn [values map build_table concat_rows events final fst snd].
      split; [|exact Hd]. apply Forall_app. split; [exact Hev|].
      constructor; [exact Logic.I|]. unfold notify_tail.
      destruct (_ && _); repeat constructor.
    - split; [|exact Hd]. apply Forall_app. split; [exact Hev|].
      constructor; [exact Logic.I|]. unfold notify_tail.
      destruct (_ && _); repeat constructor.
    - split; assumption. }
  rewrite Forall_forall in Hev. repeat split; auto.
  - intros url r Hin. exact (Hev _ Hin).
  - intros f t Hin. exact (Hev _ Hin).
Qed.

End FetchExtras.

Lemma X1_fetch_returns_first_accepted_witness :
  let l := Reference.sample_listing in
  let o := @request_listing_data Reference.runtime Reference.flaky_world 4 l initial in
  outcome o = Ret (Reference.sample_response, listing_dict l) /\
  clock (final o) = 4 /\ sleeps (events o) = [30; 30; 30].
Proof.
  intros l o.
  destruct (X1_fetch_returns_first_accepted Reference.flaky_world l initial 3
              Reference.sample_response 4) as (Ho & Hc & _ & Hs).
  - vm_compute. reflexivity.
  - intros i Hi. destruct i as [|[|[|i]]]; try lia; reflexivity.
  - by_evaluation.
  - lia.
  - repeat split; assumption.
Defined.

Lemma X2_markerless_response_is_retried_witness :
  let l := Reference.sample_listing in
  let ln := @listing_url Reference.runtime (listing_dict l) in
  events (request_listing_data Reference.markerless_world 2 l initial) =
    [EvGet ln (GetReturns Reference.bare_response); EvPrint (MsgStatus 200);
     EvPrint (MsgGetError IndexError); EvPrint (MsgValue ln); EvSleep 30;
     EvGet ln (GetReturns Reference.sample_response); EvPrint (MsgStatus 200)].
Proof.
  intros l ln.
  destruct (X2_markerless_response_is_retried Reference.markerless_world 1 l
              initial Reference.bare_response) as (Hev & _ & _).
  - vm_compute. reflexivity.
  - reflexivity.
  - apply contains_false. vm_compute. reflexivity.
  - transitivity
      ([EvGet ln (GetReturns Reference.bare_response); EvPrint (MsgStatus 200);
        EvPrint (MsgGetError IndexError); EvPrint (MsgValue ln); EvSleep 30]
         ++ events (request_listing_data Reference.markerless_world 1 l
                      (tick initial))); [exact Hev | by_evaluation].
Defined.

Lemma X3_fetch_never_ends_without_accepted_answer_witness :
  outcome (@request_listing_data Reference.runtime Reference.stuck_world 25
             Reference.sample_listing initial) = Hang.
Proof.
  apply X3_fetch_never_ends_without_accepted_answer.
  intros k. by_evaluation.
Defined.

Lemma X4_unbound_params_nothing_scraped_witness :
  let o := @main Reference.runtime Reference.shipped_world 9 in
  dict2 (final o) = [] /\ (forall f t, ~ In (EvExcel f t) (events o)) /\
  (forall url r, ~ In (EvGet url r) (events o)).
Proof.
  intros o.
  destruct (X4_unbound_params_nothing_scraped Reference.shipped_world 9)
    as (_ & Hget & Hd & Hx).
  - vm_compute. reflexivity.
  - repeat split; assumption.
Defined.

(** ** The dictionary of a listing *)

Section ListingDictExtras.

Context {R : PyRuntime}.

Lemma find_app {A} (p : A -> bool) (a b : list A) :
  find p (a ++ b) = match find p a with Some x => Some x | None => find p b end.
Proof.
  induction a as [|x a IH]; simpl; [reflexivity|]. now destruct (p x).
Qed.

Lemma fold_features_get (fs : list feature) (d : dict value) (k : str) :
  dict_get k (fold_left (fun d f => dict_set (iconId f) (content f) d) fs d)
  = match last_feature k fs with
    | Some f => Some (content f)
    | None => dict_get k d
    end.
Proof.
  unfold last_feature. revert d. induction fs as [|f fs IH]; intros d; simpl;
    [reflexivity|].
  rewrite IH, find_app. destruct (find _ (rev fs)); [reflexivity|].
  simpl. rewrite dict_get_set. now destruct (str_eqb k (iconId f)).
Qed.

Lemma fold_features_NoDup (fs : list feature) (d : dict value) :
  NoDup (keys d) ->
  NoDup (keys (fold_left (fun d f => dict_set (iconId f) (content f) d) fs d)).
Proof.
  revert d. induction fs as [|f fs IH]; intros d H; simpl; [exact H|].
  apply IH. now apply NoDup_keys_set.
Qed.

(** X5. The dictionary built for a listing has unique keys; under a key it
    holds the value of the last feature carrying that identifier, and the
    detail url under [url] only when no feature is called [url].  The url
    that is fetched is read back from the dictionary, so a feature called
    [url] replaces it. *)
Theorem X5_listing_dict_entries (l : listing) (k : str) :
  NoDup (keys (listing_dict l)) /\
  dict_get k (listing_dict l)
    = match last_feature k (features l) with
      | Some f => Some (content f)
      | None => if str_eqb k (lit "url")
                then Some (VStr (base_url ++ detail l)) else None
      end /\
  listing_url (listing_dict l)
    = match last_feature (lit "url") (features l) with
      | Some f => content f
      | None => VStr (base_url ++ detail l)
      end.
Proof.
  unfold listing_url, listing_dict. split; [|split].
  - apply fold_features_NoDup. simpl. constructor; [intros []|constructor].
  - rewrite fold_features_get. destruct (last_feature k (features l));
      [reflexivity|]. cbn [dict_get]. reflexivity.
  - rewrite fold_features_get.
    destruct (last_feature (lit "url") (features l)); reflexivity.
Qed.

End ListingDictExtras.

(** ** What the markers delimit *)

Section MarkerExtras.

Lemma split_fuel_head_rest (n : nat) (sep s h : str) :
  item (split_fuel n sep s) 0 = Some h ->
  s = h \/ exists r, s = h ++ sep ++ r.
Proof.
  destruct n as [|n]; simpl; [intros [= <-]; now left|].
  destruct (partition sep s) as [[a b]|] eqn:P; simpl; intros [= <-].
  - right. exists b. now apply partition_sound.
  - now left.
Qed.

Lemma occurs_single (q : char) (v : str) : occurs [q] v <-> In q v.
Proof.
  split.
  - intros (a & b & ->). apply in_or_app. right. now left.
  - intros H. apply in_split in H as (a & b & ->). now exists a, b.
Qed.

Lemma first_at_single (q : char) (v r : str) :
  ~ In q v -> first_at [q] v (v ++ [q] ++ r).
Proof.
  intros Hq. split; [now exists r|]. intros a' b' E.
  destruct (Nat.le_gt_cases (length v) (length a')) as [Hle|Hgt]; [exact Hle|].
  exfalso. apply Hq.
  assert (nth_error (v ++ [q] ++ r) (length a') = Some q) as Hn.
  { rewrite E. rewrite nth_error_app2 by lia. now rewrite Nat.sub_diag. }
  rewrite nth_error_app1 in Hn by exact Hgt. now apply nth_error_In in Hn.
Qed.

(** The head of a split at a single character, when that character
    follows a text free of it. *)
Lemma split_head_single (q : char) (v r : str) :
  ~ In q v -> item (split [q] (v ++ [q] ++ r)) 0 = Some v.
Proof.
  intros Hq. unfold split.
  destruct (length (v ++ [q] ++ r)) eqn:L.
  - rewrite !length_app in L. simpl in L. lia.
  - cbn [split_fuel]. rewrite partition_first by now apply first_at_single.
    reflexivity.
Qed.

Lemma split_head_absent (sep s : str) :
  ~ occurs sep s -> item (split sep s) 0 = Some s.
Proof.
  intros H. apply partition_none in H. unfold split.
  destruct (length s); cbn [split_fuel]; [reflexivity|]. now rewrite H.
Qed.

(** Where the piece after the marker ends: at the end of the text or at
    the next occurrence of the marker. *)
Lemma split_second_is (sep a b : str) :
  sep <> [] -> first_at sep a (a ++ sep ++ b) ->
  exists piece, item (split sep (a ++ sep ++ b)) 1 = Some piece /\
                (b = piece \/ exists r, b = piece ++ sep ++ r).
Proof.
  intros Hsep Hf. unfold split.
  destruct (length (a ++ sep ++ b)) as [|n] eqn:L.
  - rewrite !length_app in L. destruct sep; [contradiction|]. simpl in L. lia.
  - cbn [split_fuel]. rewrite (partition_first _ _ _ Hf).
    change (item (a :: split_fuel n sep b) 1) with (item (split_fuel n sep b) 0).
    destruct (item (split_fuel n sep b) 0) as [piece|] eqn:E.
    + exists piece. split; [reflexivity|]. eapply split_fuel_head_rest; eauto.
    + exfalso. destruct n; simpl in E; [discriminate|].
      destruct (partition sep b) as [[? ?]|]; discriminate.
Qed.

(** The value between a marker and a one-character stop is read back as it
    is, provided it holds neither the stop nor the first character of the
    marker. *)
Lemma marker_value_complete (c q : char) (m a v r : str) :
  first_at (c :: m) a (a ++ (c :: m) ++ v ++ [q] ++ r) ->
  ~ In c v -> ~ In q v ->
  marker_value (c :: m) [q] (a ++ (c :: m) ++ v ++ [q] ++ r) = Some v.
Proof.
  intros Hf Hc Hq. unfold marker_value.
  destruct (split_second_is (c :: m) a (v ++ [q] ++ r)) as (piece & -> & Hp);
    [discriminate | exact Hf |].
  destruct Hp as [<-|(r' & Hp)]; [now apply split_head_single|].
  (* the next marker starts at or after the stop *)
  assert (exists x, piece = v ++ x) as [x ->].
  { destruct (Nat.le_gt_cases (length v) (length piece)) as [Hle|Hgt].
    - exists (skipn (length v) piece).
      rewrite <- (firstn_skipn (length v) piece) at 1. f_equal.
      apply (f_equal (firstn (length v))) in Hp.
      rewrite firstn_app, Nat.sub_diag, firstn_all, firstn_O, app_nil_r in Hp.
      rewrite firstn_app in Hp.
      replace (length v - length piece) with 0 in Hp by lia.
      rewrite firstn_O, app_nil_r in Hp. now symmetry.
    - exfalso. apply Hc.
      assert (nth_error (v ++ [q] ++ r) (length piece) = Some c) as Hn.
      { rewrite Hp. rewrite nth_error_app2 by lia. now rewrite Nat.sub_diag. }
      rewrite nth_error_app1 in Hn by exact Hgt. now apply nth_error_In in Hn. }
  rewrite <- app_assoc in Hp. apply app_inv_head in Hp.
  destruct x as [|y x].
  - rewrite app_nil_r. apply split_head_absent. now rewrite occurs_single.
  - simpl in Hp. injection Hp as <- _.
    now apply (split_head_single q v x).
Qed.

End MarkerExtras.

(** ** The other fields of a record *)

Section RecordExtras.

Context {R : PyRuntime}.

Lemma parse_record_NoDup (resp : response) (dict1 : dict value) (l : listing)
      (d : dict value) :
  parse_record resp dict1 l = inr d -> NoDup (keys dict1) -> NoDup (keys d).
Proof.
  unfold parse_record.
  destruct (extract_postcode (text resp)) as [[? ?] ?].
  destruct (extract_geo (text resp)).
  destruct (find_section_text (text resp)); [|discriminate].
  destruct (marker_value property_type_marker quote (text resp)); [|discriminate].
  intros [= <-] H. repeat apply NoDup_keys_set. exact H.
Qed.

(** X6. The ten fields the extractor assigns do not depend on what [dict1]
    held under their names: a feature called like a field (say [price]) is
    overwritten.  Every other entry of [dict1], the url and the features,
    is kept as it is; the price is the display price of the search item;
    and the keys of the record stay unique. *)
Theorem X6_fields_override_features (resp : response) (dict1 : dict value)
        (l : listing) (d : dict value) :
  parse_record resp dict1 l = inr d ->
  (forall dict1' d' k, parse_record resp dict1' l = inr d' ->
     mem k field_names = true -> dict_get k d' = dict_get k d) /\
  (forall k, mem k field_names = false -> dict_get k d = dict_get k dict1) /\
  (forall k, In k field_names -> In k (keys d)) /\
  dict_get (lit "price") d = Some (VStr (price l)) /\
  (NoDup (keys dict1) -> NoDup (keys d)).
Proof.
  intros Hd. pose proof (parse_record_NoDup _ _ _ _ Hd) as Hnd.
  apply parse_record_inr in Hd as (sec & pt & Hs & Hpt & H).
  split; [|split; [|split; [|split]]].
  - intros dict1' d' k Hd' Hk.
    apply parse_record_inr in Hd' as (sec' & pt' & Hs' & Hpt' & H').
    rewrite Hs in Hs'. injection Hs' as <-.
    rewrite Hpt in Hpt'. injection Hpt' as <-.
    destruct (extract_postcode (text resp)) as [[? ?] ?].
    destruct (extract_geo (text resp)).
    destruct H as (A1 & A2 & A3 & A4 & A5 & A6 & A7 & A8 & A9 & A10 & _).
    destruct H' as (B1 & B2 & B3 & B4 & B5 & B6 & B7 & B8 & B9 & B10 & _).
    unfold mem, field_names in Hk. cbn [existsb map] in Hk.
    repeat (apply orb_prop in Hk as [Hk|Hk]); try discriminate;
      apply str_eqb_eq in Hk; subst k; congruence.
  - destruct (extract_postcode (text resp)) as [[? ?] ?].
    destruct (extract_geo (text resp)). apply H.
  - destruct (extract_postcode (text resp)) as [[? ?] ?].
    destruct (extract_geo (text resp)).
    destruct H as (A1 & A2 & A3 & A4 & A5 & A6 & A7 & A8 & A9 & A10 & _).
    intros k Hk. unfold field_names in Hk. cbn [map In] in Hk.
    repeat (destruct Hk as [<-|Hk]; [eapply dict_get_keys_In; eassumption|]).
    destruct Hk.
  - destruct (extract_postcode (text resp)) as [[? ?] ?].
    destruct (extract_geo (text resp)). apply H.
  - exact Hnd.
Qed.

(** X7. The classification code of a record is an integer when the text
    between the [acornType] marker and the next comma is read by [int],
    and the empty string in every other case: marker missing, or text
    that is not an integer.  It is never a float and never NaN. *)
Theorem X7_acorn_type_integer_or_empty (resp : response) (dict1 : dict value)
        (l : listing) (d : dict value) :
  parse_record resp dict1 l = inr d ->
  dict_get (lit "acorn_type") d = Some (extract_acorn (text resp)) /\
  (~ occurs acorn_marker (text resp) -> extract_acorn (text resp) = VStr []) /\
  (forall raw, marker_value acorn_marker comma (text resp) = Some raw ->
     extract_acorn (text resp)
     = match int_of_str raw with Some n => VInt n | None => VStr [] end) /\
  (extract_acorn (text resp) = VStr [] \/
   exists n, extract_acorn (text resp) = VInt n).
Proof.
  intros Hd. apply parse_record_inr in Hd as (sec & pt & _ & _ & H).
  destruct (extract_postcode (text resp)) as [[? ?] ?].
  destruct (extract_geo (text resp)).
  split; [apply H|]. unfold extract_acorn. split; [|split].
  - intros Hm. apply (marker_value_none acorn_marker comma) in Hm;
      [|discriminate]. now rewrite Hm.
  - intros raw ->. reflexivity.
  - destruct (marker_value acorn_marker comma (text resp)) as [raw|];
      [|now left]. destruct (int_of_str raw); eauto.
Qed.

(** X8. Round trip of a marked value: in a payload in which a marker of
    the extractor is followed by a value and then by the character that
    ends it, the marker standing there for the first time and the value
    holding neither that character nor a double quote, the expression
    [text.split(marker)[1].split(stop)[0]] gives the value back. *)
Theorem X8_marked_value_read_back (marker a v r : str) (q : char) :
  In (marker, q) delimiters ->
  first_at marker a (a ++ marker ++ v ++ [q] ++ r) ->
  ~ In 34%N v -> ~ In q v ->
  marker_value marker [q] (a ++ marker ++ v ++ [q] ++ r) = Some v.
Proof.
  intros Hin Hf H34 Hq. unfold delimiters in Hin. cbn [In] in Hin.
  repeat (destruct Hin as [[= <- <-]|Hin];
          [now apply (marker_value_complete 34%N)|]).
  destruct Hin.
Qed.

Lemma not_occurs_quote (v : str) : ~ occurs quote v -> ~ In 34%N v.
Proof. intros H Hin. apply H. now apply (occurs_single 34%N). Qed.

(** X9. The strings the extractor cuts out of the payload never hold a
    double quote: the property type, the outcode, the postcode district
    and the postcode of a record are free of it; and the property type is
    the text that follows the first occurrence of its marker. *)
Theorem X9_extracted_strings_have_no_quote (resp : response)
        (dict1 : dict value) (l : listing) (d : dict value) :
  parse_record resp dict1 l = inr d ->
  (forall k v, In k [lit "property_type"; lit "outcode";
                     lit "postcode_district"; lit "postcode"] ->
               dict_get k d = Some (VStr v) -> ~ In 34%N v) /\
  exists pt a r,
    dict_get (lit "property_type") d = Some (VStr pt) /\
    text resp = a ++ property_type_marker ++ pt ++ r /\
    first_at property_type_marker a (text resp).
Proof.
  intros Hd. apply parse_record_inr in Hd as (sec & pt & _ & Hpt & H).
  assert (forall m v, m <> [] -> marker_value m quote (text resp) = Some v ->
                      ~ In 34%N v) as Hq.
  { intros m v Hm Hv. apply marker_value_sound in Hv as (a & r & _ & _ & Hn);
      [now apply not_occurs_quote | exact Hm | discriminate]. }
  unfold extract_postcode in H.
  destruct (extract_geo (text resp)) as [lat lon]. split.
  - assert (exists pc di oc,
              dict_get (lit "postcode") d = Some (VStr pc) /\
              dict_get (lit "outcode") d = Some (VStr oc) /\
              dict_get (lit "postcode_district") d = Some (VStr di) /\
              ~ In 34%N pc /\ ~ In 34%N di /\ ~ In 34%N oc)
      as (pc & di & oc & Hpc & Hoc & Hdi & Npc & Ndi & Noc).
    { destruct (marker_value incode_marker quote (text resp)) as [di|] eqn:Ei;
        [destruct (marker_value outcode_marker quote (text resp)) as [oc|] eqn:Eo|].
      - exists (oc ++ space ++ di), di, oc.
        destruct H as (_ & A2 & A3 & A4 & _). repeat split; try assumption.
        + intros Hin. apply in_app_or in Hin as [Hin|Hin].
          * revert Hin. apply (Hq outcode_marker); [discriminate|exact Eo].
          * apply in_app_or in Hin as [[Hin|[]]|Hin]; [discriminate|].
            revert Hin. apply (Hq incode_marker); [discriminate|exact Ei].
        + apply (Hq incode_marker); [discriminate|exact Ei].
        + apply (Hq outcode_marker); [discriminate|exact Eo].
      - exists [], [], []. destruct H as (_ & A2 & A3 & A4 & _).
        repeat split; auto.
      - exists [], [], []. destruct H as (_ & A2 & A3 & A4 & _).
        repeat split; auto. }
    assert (dict_get (lit "property_type") d = Some (VStr pt)) as Hp.
    { destruct (marker_value incode_marker quote (text resp));
        [destruct (marker_value outcode_marker quote (text resp))|]; apply H. }
    intros k v Hk Hv. cbn [In] in Hk.
    destruct Hk as [<-|[<-|[<-|[<-|[]]]]].
    + rewrite Hp in Hv. injection Hv as <-.
      apply (Hq property_type_marker); [discriminate|exact Hpt].
    + rewrite Hoc in Hv. now injection Hv as <-.
    + rewrite Hdi in Hv. now injection Hv as <-.
    + rewrite Hpc in Hv. now injection Hv as <-.
  - pose proof Hpt as Hs.
    apply marker_value_sound in Hs as (a & r & Ht & Hf & _);
      [|discriminate|discriminate].
    exists pt, a, r. split; [|split; assumption].
    destruct (marker_value incode_marker quote (text resp));
      [destruct (marker_value outcode_marker quote (text resp))|]; apply H.
Qed.

(** X10. How [parse_listing] ends.  Without the feature section it raises
    [AttributeError]; with the section but without the property type
    marker it raises [IndexError]; in both cases nothing is printed and
    [dict2] is left as it was.  With both it stores the record under the
    identifier of the listing, and no other step of the extraction decides
    the outcome. *)
Theorem X10_parse_listing_outcomes (resp : response) (dict1 : dict value)
        (l : listing) (s : state) :
  (find_section_text (text resp) = None ->
   parse_listing resp dict1 l s = ([], s, Raise AttributeError)) /\
  (find_section_text (text resp) <> None ->
   ~ occurs property_type_marker (text resp) ->
   parse_listing resp dict1 l s = ([], s, Raise IndexError)) /\
  (find_section_text (text resp) <> None ->
   occurs property_type_marker (text resp) ->
   exists rec,
     parse_record resp dict1 l = inr rec /\
     parse_listing resp dict1 l s
     = ([], {| clock := clock s;
               dict2 := dict_set (listingId l) rec (dict2 s) |}, Ret tt)).
Proof.
  unfold parse_listing. split; [|split].
  - intros Hs. unfold parse_record.
    destruct (extract_postcode (text resp)) as [[? ?] ?].
    destruct (extract_geo (text resp)). now rewrite Hs.
  - intros Hs Hp.
    destruct (parse_record resp dict1 l) as [e|rec] eqn:E.
    + apply parse_record_inl in E as [[_ H]|[-> _]]; [contradiction|reflexivity].
    + apply parse_record_inr in E as (sec & pt & _ & Hpt & _).
      apply (marker_value_none property_type_marker quote) in Hp;
        [congruence|discriminate].
  - intros Hs Hp.
    destruct (parse_record_total resp dict1 l Hs Hp) as [rec E].
    exists rec. now rewrite E.
Qed.

End RecordExtras.

Lemma X6_fields_override_features_witness :
  exists d,
    @parse_record Reference.runtime Reference.sample_response
       (listing_dict Reference.odd_listing) Reference.odd_listing = inr d /\
    dict_get (lit "price") (listing_dict Reference.odd_listing)
      = Some (VStr (lit "junk")) /\
    dict_get (lit "price") d = Some (VStr (price Reference.odd_listing)) /\
    dict_get (lit "bed") d = Some (VStr (lit "2")).
Proof.
  eval_inr d (@parse_record Reference.runtime Reference.sample_response
                (listing_dict Reference.odd_listing) Reference.odd_listing).
  exists d. split; [assumption|]. split; [by_evaluation|].
  destruct (X6_fields_override_features Reference.sample_response
              (listing_dict Reference.odd_listing) Reference.odd_listing d)
    as (_ & Hkeep & _ & Hprice & _); [assumption|].
  split; [exact Hprice|].
  rewrite Hkeep by (vm_compute; reflexivity). by_evaluation.
Defined.

Lemma X7_acorn_type_integer_or_empty_witness :
  @extract_acorn Reference.runtime (text Reference.sample_response) = VInt 17 /\
  @extract_acorn Reference.runtime (text Reference.bare_response) = VStr [].
Proof.
  split.
  - eval_inr d (@parse_record Reference.runtime Reference.sample_response
                  (listing_dict Reference.sample_listing) Reference.sample_listing).
    destruct (X7_acorn_type_integer_or_empty Reference.sample_response
                (listing_dict Reference.sample_listing) Reference.sample_listing d)
      as (_ & _ & Hraw & _); [assumption|].
    rewrite (Hraw (lit "17")) by (vm_compute; reflexivity). reflexivity.
  - eval_inr d (@parse_record Reference.runtime Reference.bare_response
                  (listing_dict Reference.sample_listing) Reference.sample_listing).
    destruct (X7_acorn_type_integer_or_empty Reference.bare_response
                (listing_dict Reference.sample_listing) Reference.sample_listing d)
      as (_ & Habsent & _); [assumption|].
    apply Habsent. apply contains_false. vm_compute. reflexivity.
Defined.

Lemma X8_marked_value_read_back_witness :
  marker_value outcode_marker [34%N]
    (lit "{" ++ outcode_marker ++ lit "SW1A" ++ [34%N] ++ lit ",}")
  = Some (lit "SW1A").
Proof.
  apply (X8_marked_value_read_back outcode_marker (lit "{") (lit "SW1A")
           (lit ",}") 34%N).
  - right. now left.
  - apply (partition_minimal _ _ _ (lit "SW1A" ++ [34%N] ++ lit ",}")).
    vm_compute. reflexivity.
  - vm_compute. intuition discriminate.
  - vm_compute. intuition discriminate.
Defined.

Lemma X9_extracted_strings_have_no_quote_witness :
  exists d,
    @parse_record Reference.runtime Reference.sample_response
       (listing_dict Reference.sample_listing) Reference.sample_listing = inr d /\
    dict_get (lit "postcode") d = Some (VStr (lit "SW1A 1AA")) /\
    ~ In 34%N (lit "SW1A 1AA").
Proof.
  eval_inr d (@parse_record Reference.runtime Reference.sample_response
                (listing_dict Reference.sample_listing) Reference.sample_listing).
  exists d. split; [assumption|].
  assert (dict_get (lit "postcode") d = Some (VStr (lit "SW1A 1AA"))) as Hp
    by by_evaluation.
  split; [exact Hp|].
  destruct (X9_extracted_strings_have_no_quote Reference.sample_response
              (listing_dict Reference.sample_listing) Reference.sample_listing d)
    as [Hq _]; [assumption|].
  apply (Hq (lit "postcode")); [|exact Hp]. do 3 right. now left.
Defined.

Lemma X10_parse_listing_outcomes_witness :
  let l := Reference.sample_listing in
  outcome (@parse_listing Reference.runtime Reference.no_section_response
             (listing_dict l) l initial) = Raise AttributeError /\
  outcome (@parse_listing Reference.runtime Reference.no_type_response
             (listing_dict l) l initial) = Raise IndexError /\
  outcome (@parse_listing Reference.runtime Reference.sample_response
             (listing_dict l) l initial) = Ret tt.
Proof.
  intros l. split; [|split].
  - destruct (X10_parse_listing_outcomes Reference.no_section_response
                (listing_dict l) l initial) as (H & _ & _).
    rewrite H; [reflexivity|]. vm_compute. reflexivity.
  - destruct (X10_parse_listing_outcomes Reference.no_type_response
                (listing_dict l) l initial) as (_ & H & _).
    rewrite H; [reflexivity| |].
    + vm_compute. discriminate.
    + apply contains_false. vm_compute. reflexivity.
  - destruct (X10_parse_listing_outcomes Reference.sample_response
                (listing_dict l) l initial) as (_ & _ & H).
    destruct H as (rec & _ & ->); [| |reflexivity].
    + vm_compute. discriminate.
    + apply contains_occurs. vm_compute. reflexivity.
Defined.

(** ** The shape of the table *)

Section TableExtras.

Context {R : PyRuntime}.

Lemma NoDup_drop_duplicates_from (seen : list row) (df : frame) :
  NoDup (drop_duplicates_from seen df).
Proof.
  revert seen. induction df as [|x df IH]; intros seen; simpl; [constructor|].
  destruct (existsb (row_eqb x) seen); [apply IH|].
  constructor; [|apply IH]. rewrite In_drop_duplicates_from.
  intros [_ H]. apply H. now left.
Qed.

Lemma length_drop_duplicates_from (seen : list row) (df : frame) :
  length (drop_duplicates_from seen df) <= length df.
Proof.
  revert seen. induction df as [|x df IH]; intros seen; simpl; [lia|].
  destruct (existsb (row_eqb x) seen); [specialize (IH seen) | specialize (IH (x :: seen))];
    simpl; lia.
Qed.

Lemma build_table_nonempty (records : list row) (dt : str) (t : frame) :
  build_table records dt = inr t -> records <> [].
Proof. destruct records; [discriminate|discriminate]. Qed.

(** X11. The table that is written has no two equal rows, has at least one
    row and at most one per record; its rows are exactly the final rows of
    the records, so that records with equal final rows give one row. *)
Theorem X11_table_has_no_duplicate_rows (records : list row) (dt : str)
        (t : frame) :
  build_table records dt = inr t ->
  NoDup t /\ t <> [] /\ length t <= length records /\
  (forall rec, In rec records ->
     count_occ row_eq_dec t (final_row (union_columns records) dt rec) = 1).
Proof.
  intros Ht. pose proof (build_table_nonempty _ _ _ Ht) as Hne.
  pose proof (build_table_rows records dt t) as Hrows.
  pose proof (build_table_inr _ _ _ Ht) as E.
  assert (NoDup t) as Hnd by (subst t; apply NoDup_drop_duplicates_from).
  split; [exact Hnd|]. split; [|split].
  - destruct records as [|rec rs]; [contradiction|].
    intros ->. apply (Hrows (final_row (union_columns (rec :: rs)) dt rec) Ht).
    exists rec. split; [now left | reflexivity].
  - subst t. unfold drop_duplicates.
    etransitivity; [apply length_drop_duplicates_from|]. now rewrite length_map.
  - intros rec Hrec.
    assert (In (final_row (union_columns records) dt rec) t) as Hin
      by (apply (Hrows _ Ht); eauto).
    apply (count_occ_In row_eq_dec) in Hin.
    pose proof (proj1 (NoDup_count_occ row_eq_dec t) Hnd
                  (final_row (union_columns records) dt rec)). lia.
Qed.

Lemma keys_reindex (cols : list str) (rec : row) : keys (reindex cols rec) = cols.
Proof.
  unfold keys, reindex. rewrite map_map. simpl. apply map_id.
Qed.

Lemma keys_map_cells (f : str -> str) (g : value -> value) (r : row) :
  keys (map (fun cell => (f (fst cell), g (snd cell))) r) = map f (keys r).
Proof. unfold keys. rewrite !map_map. reflexivity. Qed.

Lemma keys_update_price (r : row) : keys (update_price r) = keys r.
Proof.
  unfold update_price. destruct (dict_get (lit "price") r) eqn:E; [|reflexivity].
  rewrite keys_set. apply dict_get_keys_In in E. apply mem_In in E.
  now rewrite E.
Qed.

Lemma keys_select_row (labels : list str) (r : row) :
  keys (select_row labels r)
  = flat_map (fun l => filter (fun c => str_eqb c l) (keys r)) labels.
Proof.
  unfold keys, select_row. induction labels as [|l labels IH];
    cbn [flat_map map]; [reflexivity|].
  rewrite map_app, IH. f_equal. clear IH.
  induction r as [|[c v] r IHr]; cbn [map filter fst]; [reflexivity|].
  destruct (str_eqb c l); cbn [map fst]; now rewrite IHr.
Qed.

Lemma not_in_selection (labels : list str) (ks : list str) (c : str) :
  ~ In c labels ->
  ~ In c (flat_map (fun l => filter (fun c => str_eqb c l) ks) labels).
Proof.
  intros Hc Hin. apply in_flat_map in Hin as (l & Hl & Hin).
  apply filter_In in Hin as [_ E]. apply str_eqb_eq in E. now subst.
Qed.

(** The labels of a final row depend on the columns of the concatenated
    table only. *)
Lemma keys_final_row (cols : list str) (dt : str) (rec : row) :
  keys (final_row cols dt rec) = final_labels cols.
Proof.
  unfold final_row, final_labels, staged_labels.
  rewrite keys_set, keys_select_row.
  rewrite (keys_map_cells (fun c => c) nan_if_empty).
  rewrite map_id, (keys_map_cells rename_label (fun v => v)).
  rewrite keys_set, keys_update_price, keys_set, keys_reindex.
  match goal with
  | |- (if mem ?k ?sel then _ else _) = _ =>
      assert (mem k sel = false) as ->; [|reflexivity]
  end.
  destruct (mem (lit "date") _) eqn:E; [|reflexivity]. exfalso.
  apply mem_In in E. revert E. apply not_in_selection.
  vm_compute. intuition discriminate.
Qed.

(** The labels of the table when the final columns are selected. *)
Lemma columns_staged (records : list row) :
  records <> [] ->
  columns (replace_empty (rename (assign (lit "listing_id") VNaN
             (map update_price
                (assign (lit "listing_condition") (VStr (lit "pre-owned"))
                   (map (reindex (union_columns records)) records))))))
  = staged_labels (union_columns records).
Proof.
  destruct records as [|rec rs]; [contradiction|]. intros _.
  unfold columns, replace_empty, rename, assign, staged_labels. cbn [map].
  fold (keys (map (fun cell : str * value => (fst cell, nan_if_empty (snd cell)))
                (map (fun cell : str * value => (rename_label (fst cell), snd cell))
                   (dict_set (lit "listing_id") VNaN
                      (update_price
                         (dict_set (lit "listing_condition")
                            (VStr (lit "pre-owned"))
                            (reindex (union_columns (rec :: rs)) rec))))))).
  rewrite (keys_map_cells (fun c => c) nan_if_empty), map_id.
  rewrite (keys_map_cells rename_label (fun v => v)).
  now rewrite keys_set, keys_update_price, keys_set, keys_reindex.
Qed.

(** What the selection of the final columns does. *)
Lemma build_table_select (records : list row) (dt : str) :
  records <> [] ->
  mem (lit "price") (columns (assign (lit "listing_condition")
                                (VStr (lit "pre-owned"))
                                (map (reindex (union_columns records)) records)))
  = true ->
  match filter (fun l => negb (mem l (staged_labels (union_columns records))))
               final_columns with
  | [] => exists t, build_table records dt = inr t
  | missing => build_table records dt = inl (KeyError missing)
  end.
Proof.
  intros Hne Hprice. unfold build_table.
  assert (concat_rows records
          = inr (map (reindex (union_columns records)) records)) as ->
    by (destruct records; [contradiction | reflexivity]).
  rewrite Hprice. unfold select. rewrite (columns_staged records Hne).
  destruct (filter _ final_columns); [eauto | reflexivity].
Qed.

Lemma build_table_price_present (records : list row) (dt : str) (t : frame) :
  build_table records dt = inr t ->
  mem (lit "price") (columns (assign (lit "listing_condition")
                                (VStr (lit "pre-owned"))
                                (map (reindex (union_columns records)) records)))
  = true.
Proof.
  unfold build_table. destruct (concat_rows records) as [e|df0] eqn:E;
    [discriminate|].
  assert (df0 = map (reindex (union_columns records)) records) as ->.
  { unfold concat_rows in E. destruct records; [discriminate|]. now injection E. }
  destruct (mem (lit "price") _); [reflexivity | discriminate].
Qed.

(** A table is made only when every final column is there. *)
Lemma final_columns_present (records : list row) (dt : str) (t : frame) (c : str) :
  build_table records dt = inr t -> In c final_columns ->
  In c (staged_labels (union_columns records)).
Proof.
  intros Ht Hc.
  pose proof (build_table_select records dt (build_table_nonempty _ _ _ Ht)
                (build_table_price_present _ _ _ Ht)) as Hsel.
  destruct (filter _ final_columns) as [|x xs] eqn:F; [|congruence].
  destruct (mem c (staged_labels (union_columns records))) eqn:M;
    [now apply mem_In|].
  assert (In c []) as []. rewrite <- F. apply filter_In. split; [exact Hc|].
  now rewrite M.
Qed.

(** X12. All rows of the table carry the same labels in the same order;
    every label is one of the fifteen final columns or [date]; every final
    column is there; and [date] comes last.  In particular [listing_id]
    and the columns of unknown features are not in the table. *)
Theorem X12_table_labels (records : list row) (dt : str) (t : frame) (r : row) :
  build_table records dt = inr t -> In r t ->
  (forall r', In r' t -> keys r' = keys r) /\
  (forall c, In c (keys r) -> In c final_columns \/ c = lit "date") /\
  (forall c, In c final_columns -> In c (keys r)) /\
  (exists pre, keys r = pre ++ [lit "date"] /\ ~ In (lit "date") pre) /\
  ~ In (lit "listing_id") (keys r).
Proof.
  intros Ht Hr.
  assert (forall x, In x t -> keys x = final_labels (union_columns records)) as Hk.
  { intros x Hx. apply (build_table_rows _ _ _ x Ht) in Hx as (rec & _ & ->).
    apply keys_final_row. }
  rewrite (Hk r Hr).
  assert (forall c, In c (final_labels (union_columns records)) ->
                    In c final_columns \/ c = lit "date") as Hsub.
  { intros c Hc. unfold final_labels in Hc.
    apply in_app_or in Hc as [Hc|[<-|[]]]; [|now right].
    apply in_flat_map in Hc as (l & Hl & Hc). apply filter_In in Hc as [_ E].
    apply str_eqb_eq in E. subst. now left. }
  split; [intros r' Hr'; apply (Hk r' Hr')|]. split; [exact Hsub|]. split; [|split].
  - intros c Hc. unfold final_labels. apply in_or_app. left.
    apply in_flat_map. exists c. split; [exact Hc|]. apply filter_In.
    split; [|apply str_eqb_refl]. now apply (final_columns_present records dt t).
  - exists (flat_map (fun l => filter (fun c => str_eqb c l)
                                (staged_labels (union_columns records)))
                     final_columns).
    split; [reflexivity|]. apply not_in_selection.
    vm_compute. intuition discriminate.
  - intros Hin. apply Hsub in Hin as [Hin|Hin]; [|discriminate].
    revert Hin. vm_compute. intuition discriminate.
Qed.

End TableExtras.

(** ** Columns and cells of the table *)

Section CellExtras.

Context {R : PyRuntime}.

Lemma rename_label_cases (c : str) :
  (c = lit "chair" /\ rename_label c = lit "num_recepts") \/
  (c = lit "bed" /\ rename_label c = lit "num_beds") \/
  (c = lit "bath" /\ rename_label c = lit "num_baths") \/
  (c <> lit "chair" /\ c <> lit "bed" /\ c <> lit "bath" /\ rename_label c = c).
Proof.
  unfold rename_label.
  destruct (str_eqb c (lit "chair")) eqn:E1;
    [apply str_eqb_eq in E1; subst; now left|].
  destruct (str_eqb c (lit "bed")) eqn:E2;
    [apply str_eqb_eq in E2; subst; right; now left|].
  destruct (str_eqb c (lit "bath")) eqn:E3;
    [apply str_eqb_eq in E3; subst; right; right; now left|].
  apply str_eqb_neq in E1, E2, E3. do 3 right. auto.
Qed.

Lemma union_columns_from (ds : list row) (c : str) :
  In c (union_columns ds) -> exists rec, In rec ds /\ In c (keys rec).
Proof.
  unfold union_columns.
  assert (forall (ds : list row) acc,
            In c (fold_left
                    (fun cols (d : row) =>
                       cols ++ filter (fun c => negb (mem c cols)) (keys d))
                    ds acc) ->
            In c acc \/ exists rec, In rec ds /\ In c (keys rec)) as H.
  { clear. induction ds as [|d ds IH]; intros acc Hc; simpl in Hc; [now left|].
    apply IH in Hc as [Hc|(rec & Hr & Hc)].
    - apply in_app_or in Hc as [Hc|Hc]; [now left|].
      apply filter_In in Hc as [Hc _]. right. exists d. split; [now left|exact Hc].
    - right. exists rec. split; [now right|exact Hc]. }
  intros Hu. destruct (H _ _ Hu) as [[]|Hx]. exact Hx.
Qed.

Lemma union_columns_spec (ds : list row) :
  (forall rec, In rec ds -> NoDup (keys rec)) ->
  NoDup (union_columns ds) /\
  forall c, In c (union_columns ds) -> exists rec, In rec ds /\ In c (keys rec).
Proof.
  unfold union_columns.
  assert (forall (ds : list row) acc,
            (forall rec, In rec ds -> NoDup (keys rec)) -> NoDup acc ->
            NoDup (fold_left
                     (fun cols (d : row) =>
                        cols ++ filter (fun c => negb (mem c cols)) (keys d))
                     ds acc) /\
            forall c, In c (fold_left
                     (fun cols (d : row) =>
                        cols ++ filter (fun c => negb (mem c cols)) (keys d))
                     ds acc) ->
                      In c acc \/ exists rec, In rec ds /\ In c (keys rec)) as H.
  { clear. induction ds as [|d ds IH]; intros acc Hd Hacc; simpl.
    - split; [exact Hacc | auto].
    - destruct (IH (acc ++ filter (fun c => negb (mem c acc)) (keys d))) as [H1 H2].
      + intros rec Hrec. apply Hd. now right.
      + apply NoDup_app; [exact Hacc | apply NoDup_filter; apply Hd; now left|].
        intros c Hc Hf. apply filter_In in Hf as [_ Hf].
        apply mem_In in Hc. rewrite Hc in Hf. discriminate.
      + split; [exact H1|]. intros c Hc. apply H2 in Hc as [Hc|(rec & Hr & Hc)].
        * apply in_app_or in Hc as [Hc|Hc]; [now left|].
          apply filter_In in Hc as [Hc _]. right. exists d. split; [now left|exact Hc].
        * right. exists rec. split; [now right | exact Hc]. }
  intros Hd. destruct (H ds [] Hd (NoDup_nil _)) as [H1 H2].
  split; [exact H1|]. intros c Hc. destruct (H2 c Hc) as [[]|Hx]. exact Hx.
Qed.

Lemma In_set_inv {V} (k c : str) (x v : V) (d : dict V) :
  In (c, v) (dict_set k x d) -> (c = k /\ v = x) \/ In (c, v) d.
Proof.
  induction d as [|[k0 v0] d IH]; simpl.
  - intros [[= <- <-]|[]]. now left.
  - destruct (str_eqb k k0); simpl.
    + intros [[= <- <-]|H]; [now left | right; now right].
    + intros [H|H]; [right; now left|].
      destruct (IH H) as [H'|H']; [now left | right; now right].
Qed.

Lemma In_set_same_key {V} (k : str) (x v : V) (d : dict V) :
  NoDup (keys d) -> In (k, v) (dict_set k x d) -> v = x.
Proof.
  intros Hnd Hin. apply (NoDup_keys_set k x) in Hnd.
  apply (NoDup_In_get _ _ _ Hnd) in Hin.
  rewrite dict_get_set_same in Hin. congruence.
Qed.

Lemma NoDup_map_on {A B} (f : A -> B) (xs : list A) :
  (forall x y, In x xs -> In y xs -> f x = f y -> x = y) ->
  NoDup xs -> NoDup (map f xs).
Proof.
  intros Hinj Hnd. induction Hnd as [|x xs Hx Hnd IH]; simpl; constructor.
  - intros Hin. apply in_map_iff in Hin as (y & Hy & Hin).
    assert (y = x) as -> by (apply Hinj; [now right | now left | exact Hy]).
    contradiction.
  - apply IH. intros a b Ha Hb. apply Hinj; now right.
Qed.

Lemma filter_single (xs : list str) (l : str) :
  NoDup xs -> In l xs -> filter (fun c => str_eqb c l) xs = [l].
Proof.
  induction xs as [|x xs IH]; intros Hnd Hin; [destruct Hin|].
  inversion Hnd as [|? ? Hx Hnd']; subst. cbn [filter].
  destruct (str_eqb x l) eqn:E.
  - apply str_eqb_eq in E. subst x. f_equal.
    clear IH Hnd Hin Hnd'. induction xs as [|y xs IH]; [reflexivity|].
    cbn [filter]. destruct (str_eqb y l) eqn:E.
    + apply str_eqb_eq in E. subst. exfalso. apply Hx. now left.
    + apply IH. intros H. apply Hx. now right.
  - apply IH; [exact Hnd'|]. destruct Hin as [->|Hin]; [|exact Hin].
    rewrite str_eqb_refl in E. discriminate.
Qed.

Lemma NoDup_add_label (l : str) (cols : list str) :
  NoDup cols -> NoDup (if mem l cols then cols else cols ++ [l]).
Proof.
  intros H. destruct (mem l cols) eqn:E; [exact H|].
  apply NoDup_app; [exact H | repeat constructor; intros []|].
  intros c Hc [<-|[]]. apply mem_In in Hc. congruence.
Qed.

Lemma In_add_label (l c : str) (cols : list str) :
  In c (if mem l cols then cols else cols ++ [l]) -> In c cols \/ c = l.
Proof.
  destruct (mem l cols); [now left|].
  intros H. apply in_app_or in H as [H|[<-|[]]]; auto.
Qed.

Lemma In_staged_labels (cols : list str) (l : str) :
  In l (staged_labels cols) ->
  exists c, l = rename_label c /\
            (In c cols \/ c = lit "listing_condition" \/ c = lit "listing_id").
Proof.
  unfold staged_labels. intros H. apply in_map_iff in H as (c & <- & H).
  exists c. split; [reflexivity|].
  apply In_add_label in H as [H|H]; [|auto].
  apply In_add_label in H as [H|H]; auto.
Qed.

(** The columns before the selection, renamed, are distinct when the
    records are dictionaries none of which has a key that is already one
    of the three new names. *)
Lemma staged_labels_NoDup (records : list row) :
  (forall rec, In rec records -> NoDup (keys rec)) ->
  (forall rec c, In rec records -> In c (keys rec) -> ~ In c renamed_labels) ->
  NoDup (staged_labels (union_columns records)).
Proof.
  intros Hnd Hnew. destruct (union_columns_spec records Hnd) as [Hu Hsub].
  unfold staged_labels. apply NoDup_map_on; [|now do 2 apply NoDup_add_label].
  assert (forall c, In c (if mem (lit "listing_id")
                               (if mem (lit "listing_condition") (union_columns records)
                                then union_columns records
                                else union_columns records ++ [lit "listing_condition"])
                          then (if mem (lit "listing_condition") (union_columns records)
                                then union_columns records
                                else union_columns records ++ [lit "listing_condition"])
                          else (if mem (lit "listing_condition") (union_columns records)
                                then union_columns records
                                else union_columns records ++ [lit "listing_condition"])
                               ++ [lit "listing_id"]) ->
                     ~ In c renamed_labels) as Hc2.
  { intros c Hc. apply In_add_label in Hc as [Hc| ->].
    - apply In_add_label in Hc as [Hc| ->].
      + apply Hsub in Hc as (rec & Hr & Hk). now apply (Hnew rec).
      + vm_compute. intuition discriminate.
    - vm_compute. intuition discriminate. }
  intros x y Hx Hy E. apply Hc2 in Hx, Hy. unfold renamed_labels in Hx, Hy.
  destruct (rename_label_cases x) as [[-> Ex]|[[-> Ex]|[[-> Ex]|(_ & _ & _ & Ex)]]],
           (rename_label_cases y) as [[-> Ey]|[[-> Ey]|[[-> Ey]|(_ & _ & _ & Ey)]]];
    try reflexivity; rewrite Ex, Ey in E; try discriminate E; try exact E;
    subst; exfalso;
    solve [apply Hx; cbn [In]; auto | apply Hy; cbn [In]; auto].
Qed.

(** X13. When the records are dictionaries and none of them has a key
    that is already [num_recepts], [num_beds] or [num_baths], every row of
    the table has exactly the fifteen final columns, in the order in which
    the code lists them, followed by [date]. *)
Theorem X13_table_columns_in_fixed_order (records : list row) (dt : str)
        (t : frame) (r : row) :
  (forall rec, In rec records -> NoDup (keys rec)) ->
  (forall rec c, In rec records -> In c (keys rec) -> ~ In c renamed_labels) ->
  build_table records dt = inr t -> In r t ->
  keys r = final_columns ++ [lit "date"].
Proof.
  intros Hnd Hnew Ht Hr.
  apply (build_table_rows _ _ _ r Ht) in Hr as (rec & _ & ->).
  rewrite keys_final_row. unfold final_labels. f_equal.
  pose proof (staged_labels_NoDup records Hnd Hnew) as Hs.
  pose proof (final_columns_present records dt t) as Hp.
  assert (forall ls, (forall c, In c ls -> In c final_columns) ->
            flat_map (fun l => filter (fun c => str_eqb c l)
                                 (staged_labels (union_columns records))) ls = ls)
    as Hall.
  { induction ls as [|l ls IH]; intros Hls; [reflexivity|]. cbn [flat_map].
    rewrite filter_single; [|exact Hs|apply (Hp l Ht); apply Hls; now left].
    cbn [app]. f_equal. apply IH. intros c Hc. apply Hls. now right. }
  apply Hall. auto.
Qed.

(** X14. The cells of the table, for records that are dictionaries: the
    price is always an integer; [listing_condition] is always
    ['pre-owned']; [date] is the date of the run; and no cell other than
    [date] holds the empty string. *)
Theorem X14_table_cells (records : list row) (dt : str) (t : frame) (r : row) :
  (forall rec, In rec records -> NoDup (keys rec)) ->
  build_table records dt = inr t -> In r t ->
  (forall v, In (lit "price", v) r -> exists z, v = VInt z) /\
  (forall v, In (lit "listing_condition", v) r -> v = VStr (lit "pre-owned")) /\
  dict_get (lit "date") r = Some (VStr dt) /\
  (forall c v, In (c, v) r -> c <> lit "date" -> v <> VStr []).
Proof.
  intros Hnd Ht Hr.
  apply (build_table_rows _ _ _ r Ht) in Hr as (rec & _ & ->).
  destruct (union_columns_spec records Hnd) as [Hu _].
  unfold final_row.
  set (row1 := dict_set (lit "listing_condition") (VStr (lit "pre-owned"))
                 (reindex (union_columns records) rec)).
  assert (NoDup (keys row1)) as H1.
  { subst row1. apply NoDup_keys_set. now rewrite keys_reindex. }
  (* a cell of the final row, other than the date, traced back *)
  assert (forall c v,
            In (c, v) (dict_set (lit "date") (VStr dt)
                         (select_row final_columns
                            (map (fun cell => (fst cell, nan_if_empty (snd cell)))
                               (map (fun cell => (rename_label (fst cell), snd cell))
                                  (dict_set (lit "listing_id") VNaN
                                     (update_price row1)))))) ->
            c <> lit "date" ->
            exists c0 v0, c = rename_label c0 /\ v = nan_if_empty v0 /\
                          ((c0 = lit "listing_id" /\ v0 = VNaN) \/
                           In (c0, v0) (update_price row1))) as Hback.
  { intros c v Hin Hc. apply In_set_inv in Hin as [[-> _]|Hin]; [contradiction|].
    unfold select_row in Hin. apply in_flat_map in Hin as (l & _ & Hin).
    apply filter_In in Hin as [Hin _].
    apply in_map_iff in Hin as ([c1 v1] & [= <- <-] & Hin).
    apply in_map_iff in Hin as ([c0 v0] & [= <- <-] & Hin).
    exists c0, v0. do 2 (split; [reflexivity|]).
    apply In_set_inv in Hin as [[-> ->]|Hin]; auto. }
  assert (forall c0, rename_label c0 = lit "price" -> c0 = lit "price") as Rp.
  { intros c0 E.
    destruct (rename_label_cases c0) as [[-> Ex]|[[-> Ex]|[[-> Ex]|(_ & _ & _ & Ex)]]];
      rewrite Ex in E; try discriminate E; exact E. }
  assert (forall c0, rename_label c0 = lit "listing_condition" ->
                     c0 = lit "listing_condition") as Rl.
  { intros c0 E.
    destruct (rename_label_cases c0) as [[-> Ex]|[[-> Ex]|[[-> Ex]|(_ & _ & _ & Ex)]]];
      rewrite Ex in E; try discriminate E; exact E. }
  split; [|split; [|split]].
  - intros v Hin. apply Hback in Hin as (c0 & v0 & Ec & -> & Hin); [|discriminate].
    symmetry in Ec. apply Rp in Ec. subst c0.
    destruct Hin as [[E _]|Hin]; [discriminate E|].
    unfold update_price in Hin.
    destruct (dict_get (lit "price") row1) as [v1|] eqn:E.
    + apply (In_set_same_key _ _ _ _ H1) in Hin. subst v0.
      destruct v1; simpl; eauto.
    + apply (in_map fst) in Hin. apply dict_get_keys in Hin as [? Hin].
      simpl in Hin. congruence.
  - intros v Hin. apply Hback in Hin as (c0 & v0 & Ec & -> & Hin); [|discriminate].
    symmetry in Ec. apply Rl in Ec. subst c0.
    destruct Hin as [[E _]|Hin]; [discriminate E|].
    assert (In (lit "listing_condition", v0) row1) as Hin1.
    { unfold update_price in Hin.
      destruct (dict_get (lit "price") row1); [|exact Hin].
      apply In_set_inv in Hin as [[E _]|Hin]; [discriminate E | exact Hin]. }
    subst row1. rewrite keys_set in H1.
    apply In_set_same_key in Hin1; [now subst|]. now rewrite keys_reindex.
  - apply dict_get_set_same.
  - intros c v Hin Hc. apply Hback in Hin as (c0 & v0 & _ & -> & _); [|exact Hc].
    destruct v0 as [[|]| | |]; discriminate.
Qed.

(** X15. When no record has the feature [bed] (or [bath], or [chair]),
    nor a key with the name it is renamed to, the selection of the final
    columns fails: the builder raises [KeyError] and makes no table. *)
Theorem X15_missing_feature_column_is_a_key_error (records : list row)
        (dt : str) (tag : str) :
  records <> [] ->
  In tag [lit "bed"; lit "bath"; lit "chair"] ->
  (forall rec, In rec records ->
     ~ In tag (keys rec) /\ ~ In (rename_label tag) (keys rec)) ->
  exists labels,
    build_table records dt = inl (KeyError labels) /\
    (labels = [lit "price"] \/ In (rename_label tag) labels).
Proof.
  intros Hne Htag Hmiss.
  destruct (mem (lit "price") (columns (assign (lit "listing_condition")
              (VStr (lit "pre-owned"))
              (map (reindex (union_columns records)) records)))) eqn:Hprice.
  - pose proof (build_table_select records dt Hne Hprice) as Hsel.
    assert (In (rename_label tag)
              (filter (fun l => negb (mem l (staged_labels (union_columns records))))
                      final_columns)) as Hin.
    { apply filter_In. split.
      - destruct Htag as [<-|[<-|[<-|[]]]]; vm_compute; tauto.
      - apply negb_true_iff.
        destruct (mem (rename_label tag) (staged_labels (union_columns records)))
          eqn:M; [|reflexivity]. exfalso.
        apply mem_In in M. apply In_staged_labels in M as (c & Ec & Hc).
        assert (In c (union_columns records)) as Hu.
        { destruct Hc as [Hc|[-> | ->]]; [exact Hc| |];
            destruct Htag as [<-|[<-|[<-|[]]]]; discriminate Ec. }
        apply union_columns_from in Hu as (rec & Hr & Hk).
        destruct (Hmiss rec Hr) as [Ht Hrt].
        destruct (rename_label_cases c)
          as [[-> Ex]|[[-> Ex]|[[-> Ex]|(_ & _ & _ & Ex)]]];
          rewrite Ex in Ec;
          destruct Htag as [<-|[<-|[<-|[]]]];
          try discriminate Ec; try contradiction;
          subst c; contradiction. }
    destruct (filter _ final_columns) as [|x xs]; [destruct Hin|].
    exists (x :: xs). split; [exact Hsel | now right].
  - exists [lit "price"]. split; [|now left]. unfold build_table.
    assert (concat_rows records
            = inr (map (reindex (union_columns records)) records)) as ->
      by (destruct records; [contradiction | reflexivity]).
    now rewrite Hprice.
Qed.

End CellExtras.

(** A closed list of keys has no repetition, by counting. *)
Lemma NoDup_by_count (ks : list str) :
  forallb (fun k => Nat.eqb (count_occ (list_eq_dec N.eq_dec) ks k) 1) ks = true -> NoDup ks.
Proof.
  intros H. apply (NoDup_count_occ' (list_eq_dec N.eq_dec)). intros k Hk.
  rewrite forallb_forall in H. apply Nat.eqb_eq. now apply H.
Qed.

Lemma X11_table_has_no_duplicate_rows_witness :
  exists rec1 rec2 t,
    @parse_record Reference.runtime Reference.sample_response
       (listing_dict Reference.sample_listing) Reference.sample_listing = inr rec1 /\
    @parse_record Reference.runtime Reference.bare_response
       (listing_dict Reference.bad_listing) Reference.bad_listing = inr rec2 /\
    build_table [rec1; rec2; rec1] Reference.run_date = inr t /\
    NoDup t /\ length t = 2 /\
    count_occ row_eq_dec t
      (final_row (union_columns [rec1; rec2; rec1]) Reference.run_date rec1) = 1.
Proof.
  eval_inr rec1 (@parse_record Reference.runtime Reference.sample_response
                   (listing_dict Reference.sample_listing) Reference.sample_listing).
  eval_inr rec2 (@parse_record Reference.runtime Reference.bare_response
                   (listing_dict Reference.bad_listing) Reference.bad_listing).
  eval_inr t (build_table [rec1; rec2; rec1] Reference.run_date).
  exists rec1, rec2, t. do 3 (split; [assumption|]).
  destruct (X11_table_has_no_duplicate_rows [rec1; rec2; rec1]
              Reference.run_date t) as (Hnd & _ & _ & Hc); [assumption|].
  split; [exact Hnd|]. split; [reflexivity|]. apply Hc. now left.
Defined.

Lemma X12_table_labels_witness :
  exists rec1 rec2 t,
    @parse_record Reference.runtime Reference.sample_response
       (listing_dict Reference.sample_listing) Reference.sample_listing = inr rec1 /\
    @parse_record Reference.runtime Reference.bare_response
       (listing_dict Reference.bad_listing) Reference.bad_listing = inr rec2 /\
    build_table [rec1; rec2] Reference.run_date = inr t /\
    forall r, In r t ->
      In (lit "num_beds") (keys r) /\ ~ In (lit "listing_id") (keys r).
Proof.
  eval_inr rec1 (@parse_record Reference.runtime Reference.sample_response
                   (listing_dict Reference.sample_listing) Reference.sample_listing).
  eval_inr rec2 (@parse_record Reference.runtime Reference.bare_response
                   (listing_dict Reference.bad_listing) Reference.bad_listing).
  eval_inr t (build_table [rec1; rec2] Reference.run_date).
  exists rec1, rec2, t. do 3 (split; [assumption|]). intros r Hr.
  destruct (X12_table_labels [rec1; rec2] Reference.run_date t r)
    as (_ & _ & Hall & _ & Hid); [assumption | exact Hr |].
  split; [|exact Hid]. apply Hall. apply mem_In. vm_compute. reflexivity.
Defined.

Lemma X13_table_columns_in_fixed_order_witness :
  exists rec1 rec2 t,
    @parse_record Reference.runtime Reference.sample_response
       (listing_dict Reference.sample_listing) Reference.sample_listing = inr rec1 /\
    @parse_record Reference.runtime Reference.bare_response
       (listing_dict Reference.bad_listing) Reference.bad_listing = inr rec2 /\
    build_table [rec1; rec2] Reference.run_date = inr t /\
    forall r, In r t -> keys r = final_columns ++ [lit "date"].
Proof.
  eval_inr rec1 (@parse_record Reference.runtime Reference.sample_response
                   (listing_dict Reference.sample_listing) Reference.sample_listing).
  eval_inr rec2 (@parse_record Reference.runtime Reference.bare_response
                   (listing_dict Reference.bad_listing) Reference.bad_listing).
  eval_inr t (build_table [rec1; rec2] Reference.run_date).
  exists rec1, rec2, t. do 3 (split; [assumption|]). intros r Hr.
  apply (X13_table_columns_in_fixed_order [rec1; rec2] Reference.run_date t r).
  - intros rec [<-|[<-|[]]]; apply NoDup_by_count; vm_compute; reflexivity.
  - assert (forallb (fun c => negb (mem c renamed_labels)) (keys rec1) = true)
      as K1 by (vm_compute; reflexivity).
    assert (forallb (fun c => negb (mem c renamed_labels)) (keys rec2) = true)
      as K2 by (vm_compute; reflexivity).
    rewrite forallb_forall in K1, K2.
    intros rec c [<-|[<-|[]]] Hc Hn; apply mem_In in Hn;
      [apply K1 in Hc | apply K2 in Hc]; rewrite Hn in Hc; discriminate.
  - assumption.
  - exact Hr.
Defined.

Lemma X14_table_cells_witness :
  exists rec1 rec2 t,
    @parse_record Reference.runtime Reference.sample_response
       (listing_dict Reference.sample_listing) Reference.sample_listing = inr rec1 /\
    @parse_record Reference.runtime Reference.bare_response
       (listing_dict Reference.bad_listing) Reference.bad_listing = inr rec2 /\
    build_table [rec1; rec2] Reference.run_date = inr t /\
    forall r, In r t ->
      dict_get (lit "date") r = Some (VStr Reference.run_date) /\
      forall v, In (lit "listing_condition", v) r -> v = VStr (lit "pre-owned").
Proof.
  eval_inr rec1 (@parse_record Reference.runtime Reference.sample_response
                   (listing_dict Reference.sample_listing) Reference.sample_listing).
  eval_inr rec2 (@parse_record Reference.runtime Reference.bare_response
                   (listing_dict Reference.bad_listing) Reference.bad_listing).
  eval_inr t (build_table [rec1; rec2] Reference.run_date).
  exists rec1, rec2, t. do 3 (split; [assumption|]). intros r Hr.
  destruct (X14_table_cells [rec1; rec2] Reference.run_date t r)
    as (_ & Hcond & Hdate & _).
  - intros rec [<-|[<-|[]]]; apply NoDup_by_count; vm_compute; reflexivity.
  - assumption.
  - exact Hr.
  - split; [exact Hdate | exact Hcond].
Defined.

Lemma X15_missing_feature_column_is_a_key_error_witness :
  exists rec labels,
    @parse_record Reference.runtime Reference.bare_response
       (listing_dict Reference.bad_listing) Reference.bad_listing = inr rec /\
    build_table [rec] Reference.run_date = inl (KeyError labels) /\
    (labels = [lit "price"] \/ In (lit "num_beds") labels).
Proof.
  eval_inr rec (@parse_record Reference.runtime Reference.bare_response
                  (listing_dict Reference.bad_listing) Reference.bad_listing).
  destruct (X15_missing_feature_column_is_a_key_error [rec] Reference.run_date
              (lit "bed")) as (labels & Hb & Hl).
  - discriminate.
  - now left.
  - assert (mem (lit "bed") (keys rec) = false) as K1 by (vm_compute; reflexivity).
    assert (mem (lit "num_beds") (keys rec) = false) as K2
        by (vm_compute; reflexivity).
    intros r [<-|[]]. split; intros Hin; apply mem_In in Hin.
    + rewrite K1 in Hin. discriminate.
    + change (mem (lit "num_beds") (keys rec) = true) in Hin.
      rewrite K2 in Hin. discriminate.
  - exists rec, labels. split; [assumption|]. split; [exact Hb | exact Hl].
Defined.

(** ** Runs of [main]: what is requested, stored and written *)

Section TraceExtras.

Context {R : PyRuntime}.

Lemma posts_app (a b : list event) : posts (a ++ b) = posts a ++ posts b.
Proof. apply flat_map_app. Qed.

Lemma writes_app (a b : list event) : writes (a ++ b) = writes a + writes b.
Proof. unfold writes. now rewrite filter_app, length_app. Qed.

Lemma listed_more (l : listing) (pre evs : list event) :
  listed l pre -> listed l (pre ++ evs).
Proof.
  intros (pt & page & ls & H1 & H2). exists pt, page, ls.
  split; [apply in_or_app; now left | exact H2].
Qed.

Section Keeps.

Variable W : world.
Variable J : list event -> dict row -> Prop.

Hypothesis J_more : forall pre evs d, J pre d -> J (pre ++ evs) d.
Hypothesis J_listing :
  forall fuel pre l s,
    listed l pre -> J pre (dict2 s) ->
    J (pre ++ events (process_listing W fuel l s))
      (dict2 (final (process_listing W fuel l s))).

Lemma keeps_listings (fuel : nat) (ls : list listing) (pre : list event)
      (s : state) :
  (forall l, In l ls -> listed l pre) -> J pre (dict2 s) ->
  J (pre ++ events (for_each ls (process_listing W fuel) s))
    (dict2 (final (for_each ls (process_listing W fuel) s))).
Proof.
  revert pre s. induction ls as [|l ls IH]; intros pre s Hl HJ; cbn [for_each].
  - cbn [ret events final fst snd]. rewrite app_nil_r. exact HJ.
  - rewrite bind_run.
    pose proof (J_listing fuel pre l s (Hl l (or_introl eq_refl)) HJ) as H1.
    destruct (outcome (process_listing W fuel l s)) as [[]|e|];
      cbn [events final fst snd]; try exact H1.
    rewrite app_assoc. apply IH; [|exact H1].
    intros x Hx. apply listed_more. apply Hl. now right.
Qed.

Lemma keeps_scrape_pages (fuel : nat) (pt : str) (page : nat)
      (pre : list event) (s : state) :
  J pre (dict2 s) ->
  J (pre ++ events (scrape_pages W fuel pt page s))
    (dict2 (final (scrape_pages W fuel pt page s))).
Proof.
  revert page pre s. induction fuel as [|fuel IH]; intros page pre s HJ.
  - cbn [scrape_pages hang events final fst snd]. rewrite app_nil_r. exact HJ.
  - cbn [scrape_pages]. rewrite bind_run. unfold get_page_listings.
    destruct (post W (clock s) pt page) as [e|[[|l ls]|]] eqn:Hp;
      cbn [outcome events final fst snd app]; rewrite bind_run;
      cbn [emit outcome events final fst snd app tick dict2];
      try (apply J_more; exact HJ).
    rewrite bind_run.
    set (pre' := pre ++ [EvPost pt page (PostReturns (Some (l :: ls)));
                         EvPrint (MsgScrapingPage page)]).
    assert (forall rest,
              pre ++ EvPost pt page (PostReturns (Some (l :: ls)))
                  :: EvPrint (MsgScrapingPage page) :: rest = pre' ++ rest) as E
      by (intros rest; subst pre'; now rewrite <- app_assoc).
    rewrite E.
    assert (J (pre' ++ events (for_each (l :: ls) (process_listing W (S fuel)) (tick s)))
              (dict2 (final (for_each (l :: ls) (process_listing W (S fuel)) (tick s)))))
      as H1.
    { apply keeps_listings; [|apply J_more; exact HJ].
      intros x Hx. exists pt, page, (l :: ls). split; [|exact Hx].
      subst pre'. apply in_or_app. right. now left. }
    destruct (outcome (for_each (l :: ls) (process_listing W (S fuel)) (tick s)))
      as [[]|e|]; cbn [outcome events final fst snd]; try exact H1.
    rewrite app_assoc. apply IH. exact H1.
Qed.

Lemma keeps_scrape_all (fuel : nat) (pts : list str) (pre : list event)
      (s : state) :
  J pre (dict2 s) ->
  J (pre ++ events (for_each pts (fun pt => scrape_pages W fuel pt 1) s))
    (dict2 (final (for_each pts (fun pt => scrape_pages W fuel pt 1) s))).
Proof.
  revert pre s. induction pts as [|pt pts IH]; intros pre s HJ; cbn [for_each].
  - cbn [ret events final fst snd]. rewrite app_nil_r. exact HJ.
  - rewrite bind_run.
    pose proof (keeps_scrape_pages fuel pt 1 pre s HJ) as H1.
    destruct (outcome (scrape_pages W fuel pt 1 s)) as [[]|e|];
      cbn [events final fst snd]; try exact H1.
    rewrite app_assoc. apply IH. exact H1.
Qed.

Lemma keeps_main (fuel : nat) :
  J [] [] -> J (events (main W fuel)) (dict2 (final (main W fuel))).
Proof.
  intros H0. rewrite main_final.
  pose proof (keeps_scrape_all fuel property_types [] initial H0) as H1.
  cbn [app] in H1. rewrite main_run. cbv zeta.
  destruct (outcome _) as [[]|e|]; cbn [events fst]; try (now apply J_more).
  - destruct (build_table _ _); cbn [events fst]; now apply J_more.
  - exact H1.
Qed.

End Keeps.


Lemma writes_none (evs : list event) :
  Forall (fun e => match e with EvWrite _ => False | _ => True end) evs ->
  writes evs = 0.
Proof.
  unfold writes. induction 1 as [|e evs He _ IH]; [reflexivity|].
  destruct e; cbn [filter]; try exact IH. destruct He.
Qed.

Lemma fetch_loop_writes (W : world) (fuel : nat) (ln : value) (s : state) :
  writes (events (fetch_loop W fuel ln s)) = 0.
Proof.
  apply writes_none.
  now apply (sat_fetch_loop (fun _ => True)
               (fun e => match e with EvWrite _ => False | _ => True end)
               (fun _ _ => Logic.I) (fun _ => Logic.I) (fun _ => Logic.I)
               W fuel ln s).
Qed.

(** One listing: either nothing is stored and no dot is written, or the
    accepted response was parsed, its record stored under the identifier
    of the listing, and one dot written last. *)
Lemma process_listing_cases (W : world) (fuel : nat) (l : listing) (s : state) :
  (outcome (process_listing W fuel l s) <> Ret tt /\
   dict2 (final (process_listing W fuel l s)) = dict2 s /\
   writes (events (process_listing W fuel l s)) = 0) \/
  (exists resp rec evs,
     outcome (process_listing W fuel l s) = Ret tt /\
     events (process_listing W fuel l s)
       = evs ++ [EvGet (listing_url (listing_dict l)) (GetReturns resp);
                 EvPrint (MsgStatus (status_code resp)); EvWrite (lit ".")] /\
     writes evs = 0 /\
     parse_record resp (listing_dict l) l = inr rec /\
     dict2 (final (process_listing W fuel l s))
       = dict_set (listingId l) rec (dict2 s)).
Proof.
  unfold process_listing. rewrite bind_run, request_listing_data_run.
  pose proof (fetch_loop_shape W fuel (listing_url (listing_dict l)) s) as Hs.
  pose proof (fetch_loop_dict2 W fuel (listing_url (listing_dict l)) s) as Hd.
  pose proof (fetch_loop_writes W fuel (listing_url (listing_dict l)) s) as Hw.
  set (o := fetch_loop W fuel (listing_url (listing_dict l)) s) in *.
  destruct (outcome o) as [resp|e|]; cbn [outcome events final fst snd];
    try (left; split; [discriminate | split; assumption]).
  destruct Hs as (evs & Hev & _ & _). rewrite bind_run. unfold parse_listing.
  destruct (parse_record resp (listing_dict l) l) as [e|rec] eqn:Hp;
    cbn [emit outcome events final fst snd dict2]; rewrite ?app_nil_r.
  - left. split; [discriminate | split; assumption].
  - right. exists resp, rec, evs. split; [reflexivity|]. split.
    + rewrite Hev, <- app_assoc. reflexivity.
    + rewrite Hev, writes_app in Hw. split; [lia|].
      split; [exact Hp | now rewrite Hd].
Qed.

Lemma recorded_more (pre evs : list event) (d : dict row) :
  recorded pre d -> recorded (pre ++ evs) d.
Proof.
  intros H id rec Hin. destruct (H id rec Hin) as (l & resp & H1 & H2 & H3 & H4).
  exists l, resp. split; [now apply listed_more|]. split; [exact H2|].
  split; [apply in_or_app; now left | exact H4].
Qed.

Lemma recorded_listing (W : world) (fuel : nat) (pre : list event) (l : listing)
      (s : state) :
  listed l pre -> recorded pre (dict2 s) ->
  recorded (pre ++ events (process_listing W fuel l s))
           (dict2 (final (process_listing W fuel l s))).
Proof.
  intros Hl HJ.
  destruct (process_listing_cases W fuel l s)
    as [(_ & -> & _)|(resp & rec & evs & _ & -> & _ & Hp & ->)];
    [now apply recorded_more|].
  intros id r Hin. apply In_set_inv in Hin as [[-> ->]|Hin].
  - exists l, resp. split; [now apply listed_more|]. split; [reflexivity|].
    split; [|exact Hp]. apply in_or_app. right. apply in_or_app. right. now left.
  - now apply (recorded_more pre _ (dict2 s) HJ).
Qed.

Lemma length_set_le {V} (k : str) (v : V) (d : dict V) :
  length (dict_set k v d) <= S (length d).
Proof.
  induction d as [|[k0 v0] d IH]; simpl; [lia|].
  destruct (str_eqb k k0); simpl; lia.
Qed.

Lemma dots_listing (W : world) (fuel : nat) (pre : list event) (l : listing)
      (s : state) :
  length (dict2 s) <= writes pre ->
  length (dict2 (final (process_listing W fuel l s)))
    <= writes (pre ++ events (process_listing W fuel l s)).
Proof.
  intros H. rewrite writes_app.
  destruct (process_listing_cases W fuel l s)
    as [(_ & -> & ->)|(resp & rec & evs & _ & -> & Hw & _ & ->)]; [lia|].
  rewrite writes_app, Hw. pose proof (@length_set_le row (listingId l) rec (dict2 s)).
  change (writes [EvGet (listing_url (listing_dict l)) (GetReturns resp);
                  EvPrint (MsgStatus (status_code resp)); EvWrite (lit ".")])
    with 1.
  change (dict (@value R)) with row. lia.
Qed.

(** X19. Every record that [dict2] holds when [main] ends was extracted
    from a response that a detail request of this run returned for the
    url of a listing, that listing is one a search request of this run
    returned, and the record is stored under its identifier. *)
Theorem X19_records_come_from_the_run (W : world) (fuel : nat) (id : str)
        (rec : row) :
  In (id, rec) (dict2 (final (main W fuel))) ->
  exists l resp pt page ls,
    In (EvPost pt page (PostReturns (Some ls))) (events (main W fuel)) /\
    In l ls /\ listingId l = id /\
    In (EvGet (listing_url (listing_dict l)) (GetReturns resp))
       (events (main W fuel)) /\
    parse_record resp (listing_dict l) l = inr rec.
Proof.
  intros Hin.
  assert (recorded (events (main W fuel)) (dict2 (final (main W fuel)))) as H.
  { apply (keeps_main W recorded recorded_more).
    - intros f pre l s. apply recorded_listing.
    - intros ? ? []. }
  destruct (H id rec Hin) as (l & resp & (pt & page & ls & H1 & H2) & H3 & H4 & H5).
  exists l, resp, pt, page, ls. auto.
Qed.

(** X20. [dict2] never holds more records than dots were written, and a
    table that is written has no more rows than that. *)
Theorem X20_no_more_records_than_dots (W : world) (fuel : nat) :
  length (dict2 (final (main W fuel))) <= writes (events (main W fuel)) /\
  forall f t, In (EvExcel f t) (events (main W fuel)) ->
              length t <= writes (events (main W fuel)).
Proof.
  assert (length (dict2 (final (main W fuel))) <= writes (events (main W fuel)))
    as H.
  { apply (keeps_main W (fun evs d => length d <= writes evs)).
    - intros pre evs d Hd. rewrite writes_app. lia.
    - intros f pre l s _. apply dots_listing.
    - simpl. lia. }
  split; [exact H|]. intros f t Hin.
  etransitivity; [|exact H]. clear H. rewrite main_final.
  rewrite main_run in Hin. cbv zeta in Hin.
  pose proof (sat_scrape_all (fun _ => True)
                (fun e => match e with EvExcel _ _ => False | _ => True end)
                (fun _ _ _ _ => Logic.I) (fun _ _ => Logic.I)
                (fun _ => Logic.I) (fun _ => Logic.I) (fun _ => Logic.I)
                W fuel property_types (fun _ _ _ _ => Logic.I) initial Logic.I)
    as [_ Hev].
  rewrite Forall_forall in Hev.
  remember (for_each property_types (fun pt => scrape_pages W fuel pt 1) initial)
    as o eqn:Eo.
  assert (forall e, ~ In (EvExcel f t) (events o ++ EvPrint (MsgExn e)
                                          :: notify_tail W e)) as Hno.
  { intros e Hx. apply in_app_or in Hx as [Hx|Hx]; [exact (Hev _ Hx)|].
    destruct (handler_events_clean W e) as [_ Hh].
    rewrite Forall_forall in Hh. exact (Hh _ Hx). }
  destruct (outcome o) as [[]|e|]; cbn [events fst] in Hin.
  - destruct (build_table (values (dict2 (final o))) (today W)) as [e|df] eqn:Et;
      cbn [events fst] in Hin; [now apply Hno in Hin|].
    apply in_app_or in Hin as [Hin|[Hin|[]]]; [destruct (Hev _ Hin)|].
    injection Hin as _ <-. apply build_table_inr in Et. subst df.
    unfold drop_duplicates.
    etransitivity; [apply length_drop_duplicates_from|].
    unfold values. now rewrite !length_map.
  - now apply Hno in Hin.
  - destruct (Hev _ Hin).
Qed.


(** ** The order of the search requests *)

Lemma page_run_S (pt : str) (first k : nat) :
  page_run pt first (S k) = (pt, first) :: page_run pt (S first) k.
Proof.
  unfold page_run. cbn [seq map]. rewrite Nat.add_0_r. f_equal.
  rewrite <- seq_shift, map_map. apply map_ext. intros i. f_equal. lia.
Qed.

Lemma listings_no_posts (W : world) (fuel : nat) (ls : list listing) (s : state) :
  posts (events (for_each ls (process_listing W fuel) s)) = [].
Proof.
  assert (Forall (fun e => ~ is_post e)
            (events (for_each ls (process_listing W fuel) s))) as H.
  { apply (sat_for_each (fun _ => True) (fun e => ~ is_post e) ls
             (process_listing W fuel)); [|exact Logic.I].
    intros x _. apply sat_process_listing; simpl; auto. }
  induction H as [|e evs He _ IH]; [reflexivity|].
  destruct e; cbn [posts flat_map app] in *; try exact IH.
  destruct He. exact Logic.I.
Qed.

Lemma scrape_pages_posts (W : world) (fuel : nat) (pt : str) (page : nat)
      (s : state) :
  exists k, k <= fuel /\
            posts (events (scrape_pages W fuel pt page s)) = page_run pt page k.
Proof.
  revert page s. induction fuel as [|fuel IH]; intros page s.
  - exists 0. split; [lia | reflexivity].
  - cbn [scrape_pages]. rewrite bind_run. unfold get_page_listings.
    destruct (post W (clock s) pt page) as [e|[[|l ls]|]] eqn:Hp;
      cbn [outcome events final fst snd app]; rewrite bind_run;
      cbn [emit outcome events final fst snd app];
      try (exists 1; split; [lia | rewrite page_run_S; reflexivity]).
    rewrite bind_run.
    pose proof (listings_no_posts W (S fuel) (l :: ls) (tick s)) as Hn.
    destruct (outcome (for_each (l :: ls) (process_listing W (S fuel)) (tick s)))
      as [[]|e|]; cbn [outcome events final fst snd].
    + destruct (IH (S page)
                  (final (for_each (l :: ls) (process_listing W (S fuel)) (tick s))))
        as (k & Hk & E).
      exists (S k). split; [lia|]. rewrite page_run_S.
      cbn [posts flat_map app].
      change (flat_map _ ?x) with (posts x).
      now rewrite posts_app, Hn, E.
    + exists 1. split; [lia|]. rewrite page_run_S. cbn [posts flat_map app].
      change (flat_map _ ?x) with (posts x). now rewrite Hn.
    + exists 1. split; [lia|]. rewrite page_run_S. cbn [posts flat_map app].
      change (flat_map _ ?x) with (posts x). now rewrite Hn.
Qed.

Lemma scrape_all_posts (W : world) (fuel : nat) (pts : list str) (s : state) :
  exists ks, length ks <= length pts /\
    posts (events (for_each pts (fun pt => scrape_pages W fuel pt 1) s))
    = flat_map (fun pk => page_run (fst pk) 1 (snd pk)) (combine pts ks).
Proof.
  revert s. induction pts as [|pt pts IH]; intros s; cbn [for_each].
  - exists []. split; [simpl; lia | reflexivity].
  - rewrite bind_run. destruct (scrape_pages_posts W fuel pt 1 s) as (k & _ & E).
    destruct (outcome (scrape_pages W fuel pt 1 s)) as [[]|e|];
      cbn [outcome events final fst snd].
    + destruct (IH (final (scrape_pages W fuel pt 1 s))) as (ks & Hl & E').
      exists (k :: ks). split; [simpl; lia|].
      cbn [combine flat_map fst snd]. now rewrite posts_app, E, E'.
    + exists [k]. split; [simpl; lia|].
      destruct pts; cbn [combine flat_map fst snd]; now rewrite app_nil_r.
    + exists [k]. split; [simpl; lia|].
      destruct pts; cbn [combine flat_map fst snd]; now rewrite app_nil_r.
Qed.

Lemma handler_no_posts (W : world) (e : exn) :
  posts (EvPrint (MsgExn e) :: notify_tail W e) = [].
Proof.
  unfold notify_tail. now destruct (_ && _).
Qed.

Lemma main_posts (W : world) (fuel : nat) :
  posts (events (main W fuel))
  = posts (events (for_each property_types
                     (fun pt => scrape_pages W fuel pt 1) initial)).
Proof.
  rewrite main_run. cbv zeta.
  destruct (outcome _) as [[]|e|]; cbn [events fst]; try reflexivity.
  - destruct (build_table _ _); cbn [events fst]; rewrite posts_app.
    + now rewrite handler_no_posts, app_nil_r.
    + now rewrite app_nil_r.
  - now rewrite posts_app, handler_no_posts, app_nil_r.
Qed.

Lemma In_page_run (pt pt' : str) (first k n : nat) :
  In (pt', n) (page_run pt first k) -> pt' = pt /\ first <= n.
Proof.
  unfold page_run. intros H. apply in_map_iff in H as (i & [= <- <-] & _).
  split; [reflexivity | lia].
Qed.

Lemma NoDup_page_run (pt : str) (first k : nat) : NoDup (page_run pt first k).
Proof.
  revert first. induction k as [|k IH]; intros first; [constructor|].
  rewrite page_run_S. constructor; [|apply IH].
  intros H. apply In_page_run in H as [_ H]. lia.
Qed.

Lemma NoDup_page_runs (pts : list str) (ks : list nat) :
  NoDup pts ->
  NoDup (flat_map (fun pk => page_run (fst pk) 1 (snd pk)) (combine pts ks)).
Proof.
  revert ks. induction pts as [|pt pts IH]; intros ks Hnd; [constructor|].
  inversion Hnd as [|? ? Hpt Hnd']; subst.
  destruct ks as [|k ks]; [constructor|]. cbn [combine flat_map fst snd].
  apply NoDup_app; [apply NoDup_page_run | now apply IH|].
  intros [pt' n] H1 H2. apply In_page_run in H1 as [-> _].
  apply in_flat_map in H2 as ([pt' k'] & Hc & H2).
  cbn [fst snd] in H2. apply In_page_run in H2 as [E _]. subst pt'.
  apply in_combine_l in Hc. contradiction.
Qed.

(** X17. The search requests of a run are made in the order of the list
    of property types, and for each property type page by page from page 1
    with no page left out; no page of a property type is requested twice. *)
Theorem X17_pages_requested_in_order (W : world) (fuel : nat) :
  (exists ks, length ks <= length property_types /\
     posts (events (main W fuel))
     = flat_map (fun pk => page_run (fst pk) 1 (snd pk))
                (combine property_types ks)) /\
  NoDup (posts (events (main W fuel))).
Proof.
  rewrite main_posts.
  destruct (scrape_all_posts W fuel property_types initial) as (ks & Hl & E).
  split; [exists ks; split; assumption|]. rewrite E.
  apply NoDup_page_runs. apply property_types_NoDup.
Qed.


(** ** A run in which the search finds nothing *)

Lemma scrape_pages_ended (W : world) (fuel : nat) (pt : str) (page : nat)
      (s : state) :
  ends_pagination (post W (clock s) pt page) = true ->
  outcome (scrape_pages W (S fuel) pt page s) = Ret tt /\
  final (scrape_pages W (S fuel) pt page s) = tick s /\
  posts (events (scrape_pages W (S fuel) pt page s)) = [(pt, page)] /\
  Forall (fun e => match e with
                   | EvPost _ _ _ | EvPrint _ => True
                   | _ => False
                   end) (events (scrape_pages W (S fuel) pt page s)).
Proof.
  cbn [scrape_pages]. rewrite bind_run. unfold get_page_listings.
  destruct (post W (clock s) pt page) as [e|[[|l ls]|]];
    cbn [ends_pagination]; try discriminate; intros _;
    cbn [outcome events final fst snd app]; rewrite bind_run;
    cbn [emit outcome events final fst snd app];
    (split; [reflexivity|]; split; [reflexivity|]; split; [reflexivity|]);
    repeat constructor.
Qed.

Lemma scrape_all_ended (W : world) (fuel : nat) (pts : list str) (s : state) :
  (forall c pt, In pt pts -> ends_pagination (post W c pt 1) = true) ->
  let o := for_each pts (fun pt => scrape_pages W (S fuel) pt 1) s in
  outcome o = Ret tt /\ dict2 (final o) = dict2 s /\
  posts (events o) = map (fun pt => (pt, 1)) pts /\
  Forall (fun e => match e with
                   | EvPost _ _ _ | EvPrint _ => True
                   | _ => False
                   end) (events o).
Proof.
  revert s. induction pts as [|pt pts IH]; intros s Hend; cbn [for_each].
  - cbn. repeat split. constructor.
  - cbv zeta. rewrite bind_run.
    destruct (scrape_pages_ended W fuel pt 1 s) as (Ho & Hf & Hp & He);
      [apply Hend; now left|].
    rewrite Ho. cbn [outcome events final fst snd]. rewrite Hf.
    destruct (IH (tick s)) as (Ho' & Hf' & Hp' & He');
      [intros c x Hx; apply Hend; now right|].
    split; [exact Ho'|]. split; [exact Hf'|]. split.
    + rewrite posts_app, Hp, Hp'. reflexivity.
    + apply Forall_app. split; assumption.
Qed.

(** X16. When every first page of the search ends the pagination (an
    exception, [None] or an empty list), a run asks for page 1 of each
    property type, in order, and for nothing else; no detail page is
    requested, [dict2] stays empty, the dataset builder raises
    [ValueError], no file is written, and the run ends as the handler
    ends. *)
Theorem X16_nothing_found_ends_in_handler (W : world) (fuel : nat) :
  0 < fuel ->
  (forall c pt, In pt property_types -> ends_pagination (post W c pt 1) = true) ->
  posts (events (main W fuel)) = map (fun pt => (pt, 1)) property_types /\
  dict2 (final (main W fuel)) = [] /\
  (forall url r, ~ In (EvGet url r) (events (main W fuel))) /\
  (forall f t, ~ In (EvExcel f t) (events (main W fuel))) /\
  In (EvPrint (MsgExn (ValueError (lit "No objects to concatenate"))))
     (events (main W fuel)) /\
  outcome (main W fuel) = handler_outcome W.
Proof.
  intros Hfuel Hend. destruct fuel as [|fuel]; [lia|].
  destruct (scrape_all_ended W fuel property_types initial Hend)
    as (Ho & Hd & Hp & He).
  cbv zeta in *. rewrite main_posts, main_final. split; [exact Hp|].
  split; [exact Hd|]. rewrite main_run. cbv zeta. rewrite Ho, Hd.
  cbn [values map build_table concat_rows events outcome fst snd].
  assert (forall e, Forall (fun ev => match ev with
                                      | EvGet _ _ | EvExcel _ _ => False
                                      | _ => True
                                      end)
                      (events (for_each property_types
                                 (fun pt => scrape_pages W (S fuel) pt 1) initial)
                         ++ EvPrint (MsgExn e) :: notify_tail W e)) as Hall.
  { intros e. apply Forall_app. split.
    - eapply Forall_impl; [|exact He]. now intros [].
    - unfold notify_tail. destruct (_ && _); repeat constructor. }
  split; [|split; [|split; [|reflexivity]]].
  - intros url r Hin. specialize (Hall (ValueError (lit "No objects to concatenate"))).
    rewrite Forall_forall in Hall. exact (Hall _ Hin).
  - intros f t Hin. specialize (Hall (ValueError (lit "No objects to concatenate"))).
    rewrite Forall_forall in Hall. exact (Hall _ Hin).
  - apply in_or_app. right. now left.
Qed.

(** ** How a run ends *)

(** X18. No exception raised while scraping or building the table leaves
    [main] as it is: what [main] raises is the [NameError] of a name the
    handler looks up.  A file is written at most once, as the last thing
    the run does, with the table built from [dict2], and then [main]
    returns.  A notification is sent only after the exception was printed
    and only where both names of the call are bound. *)
Theorem X18_how_a_run_ends (W : world) (fuel : nat) :
  (forall e, outcome (main W fuel) = Raise e ->
     e = NameError (lit "send_discord_notification") \/ e = NameError (lit "df")) /\
  (forall f t, In (EvExcel f t) (events (main W fuel)) ->
     f = lit "zoopla_data.xlsx" /\ outcome (main W fuel) = Ret tt /\
     build_table (values (dict2 (final (main W fuel)))) (today W) = inr t /\
     exists pre, events (main W fuel) = pre ++ [EvExcel f t] /\
                 forall f' t', ~ In (EvExcel f' t') pre) /\
  (forall e, In (EvNotify e) (events (main W fuel)) ->
     bound W "send_discord_notification" = true /\ bound W "df" = true /\
     outcome (main W fuel) = Ret tt /\
     exists pre, events (main W fuel) = pre ++ [EvPrint (MsgExn e); EvNotify e]).
Proof.
  pose proof (sat_scrape_all (fun _ => True)
                (fun e => match e with
                          | EvExcel _ _ | EvNotify _ => False
                          | _ => True
                          end)
                (fun _ _ _ _ => Logic.I) (fun _ _ => Logic.I)
                (fun _ => Logic.I) (fun _ => Logic.I) (fun _ => Logic.I)
                W fuel property_types (fun _ _ _ _ => Logic.I) initial Logic.I)
    as [_ Hev].
  rewrite Forall_forall in Hev. rewrite main_final, main_run. cbv zeta.
  remember (for_each property_types (fun pt => scrape_pages W fuel pt 1) initial)
    as o eqn:Eo.
  assert (forall e', handler_outcome W = Raise e' ->
            e' = NameError (lit "send_discord_notification")
            \/ e' = NameError (lit "df")) as Hh.
  { intros e'. unfold handler_outcome.
    destruct (bound W "send_discord_notification"); [|intros [= <-]; now left].
    destruct (bound W "df"); [discriminate | intros [= <-]; now right]. }
  assert (forall e f t, ~ In (EvExcel f t) (events o ++ EvPrint (MsgExn e)
                                              :: notify_tail W e)) as Hno.
  { intros e f t Hx. apply in_app_or in Hx as [Hx|Hx]; [exact (Hev _ Hx)|].
    destruct (handler_events_clean W e) as [_ Hc].
    rewrite Forall_forall in Hc. exact (Hc _ Hx). }
  assert (forall e e', In (EvNotify e') (events o ++ EvPrint (MsgExn e)
                                           :: notify_tail W e) ->
            bound W "send_discord_notification" = true /\ bound W "df" = true /\
            handler_outcome W = Ret tt /\
            exists pre, events o ++ EvPrint (MsgExn e) :: notify_tail W e
                        = pre ++ [EvPrint (MsgExn e'); EvNotify e']) as Hn.
  { intros e e' Hx. apply in_app_or in Hx as [Hx|Hx]; [destruct (Hev _ Hx)|].
    unfold notify_tail, handler_outcome in *.
    destruct (bound W "send_discord_notification"), (bound W "df");
      cbn [andb] in *;
      try (destruct Hx as [Hx|[]]; discriminate Hx).
    destruct Hx as [Hx|[Hx|[]]]; [discriminate Hx|]. injection Hx as <-.
    repeat split. exists (events o). reflexivity. }
  destruct (outcome o) as [[]|e|]; cbn [outcome events final fst snd].
  - destruct (build_table (values (dict2 (final o))) (today W)) as [e|df] eqn:Et;
      cbn [outcome events final fst snd].
    + split; [exact Hh|]. split; [|apply Hn].
      intros f t Hin. now apply Hno in Hin.
    + split; [discriminate|]. split.
      * intros f t Hin. apply in_app_or in Hin as [Hin|[Hin|[]]];
          [destruct (Hev _ Hin)|].
        injection Hin as <- <-. repeat split. exists (events o).
        split; [reflexivity|]. intros f' t' Hx. exact (Hev _ Hx).
      * intros e Hin. apply in_app_or in Hin as [Hin|[Hin|[]]];
          [destruct (Hev _ Hin) | discriminate Hin].
  - split; [exact Hh|]. split; [|apply Hn].
    intros f t Hin. now apply Hno in Hin.
  - split; [discriminate|]. split.
    + intros f t Hin. destruct (Hev _ Hin).
    + intros e Hin. destruct (Hev _ Hin).
Qed.

End TraceExtras.

Lemma X16_nothing_found_ends_in_handler_witness :
  posts (events (@main Reference.runtime Reference.empty_world 1))
    = map (fun pt => (pt, 1)) property_types /\
  outcome (@main Reference.runtime Reference.empty_world 1)
    = Raise (NameError (lit "send_discord_notification")).
Proof.
  destruct (X16_nothing_found_ends_in_handler Reference.empty_world 1)
    as (Hp & _ & _ & _ & _ & Ho).
  - lia.
  - intros c pt _. reflexivity.
  - split; [exact Hp|]. rewrite Ho. reflexivity.
Defined.

Lemma X19_records_come_from_the_run_witness :
  exists rec,
    In (lit "61234567", rec)
       (dict2 (final (@main Reference.runtime Reference.sample_world 3))) /\
    exists l resp pt page ls,
      In (EvPost pt page (PostReturns (Some ls)))
         (events (@main Reference.runtime Reference.sample_world 3)) /\
      In l ls /\ listingId l = lit "61234567" /\
      In (EvGet (listing_url (listing_dict l)) (GetReturns resp))
         (events (@main Reference.runtime Reference.sample_world 3)) /\
      parse_record resp (listing_dict l) l = inr rec.
Proof.
  eval_inr rec (@parse_record Reference.runtime Reference.sample_response
                  (listing_dict Reference.sample_listing) Reference.sample_listing).
  exists rec.
  assert (dict2 (final (@main Reference.runtime Reference.sample_world 3))
          = [(lit "61234567", rec)]) as E by by_evaluation.
  assert (In (lit "61234567", rec)
             (dict2 (final (@main Reference.runtime Reference.sample_world 3))))
    as Hin by (rewrite E; now left).
  split; [exact Hin|].
  exact (X19_records_come_from_the_run Reference.sample_world 3 _ _ Hin).
Defined.

(** ** The path of a search request *)

Section PathExtras.

Context {R : PyRuntime}.

Lemma uint_chars_inj (u v : Decimal.uint) : uint_chars u = uint_chars v -> u = v.
Proof.
  revert v. induction u; intros v; destruct v; cbn [uint_chars];
    intros H; try discriminate H; try reflexivity;
    injection H as H; f_equal; now apply IHu.
Qed.

Lemma str_of_nat_inj (n m : nat) : str_of_nat n = str_of_nat m -> n = m.
Proof.
  unfold str_of_nat. intros H. apply uint_chars_inj in H.
  rewrite <- (DecimalNat.Unsigned.of_to n), <- (DecimalNat.Unsigned.of_to m).
  now rewrite H.
Qed.

Lemma uint_chars_digits (u : Decimal.uint) :
  forallb is_digit (uint_chars u) = true.
Proof. induction u; cbn [uint_chars forallb]; try rewrite IHu; reflexivity. Qed.

Lemma cut_at_first {A} (c : A) (xs ys r r' : list A) :
  ~ In c xs -> ~ In c ys -> xs ++ c :: r = ys ++ c :: r' -> xs = ys /\ r = r'.
Proof.
  revert ys. induction xs as [|x xs IH]; intros [|y ys] Hx Hy E; cbn [app] in E.
  - injection E as <-. auto.
  - injection E as -> _. exfalso. apply Hy. now left.
  - injection E as -> _. exfalso. apply Hx. now left.
  - injection E as -> E. destruct (IH ys) as [-> ->]; auto.
    + intros H. apply Hx. now right.
    + intros H. apply Hy. now right.
Qed.

Lemma search_path_tail (pt : str) (n : nat) :
  rev (search_path pt n)
  = (rev (str_of_nat n) ++ rev (lit "pn=")) ++ 38%N
      :: rev pt
      ++ rev (lit "/for-sale/property/england/?added=24_hours&property_type=").
Proof.
  unfold search_path. rewrite !rev_app_distr.
  change (lit "&pn=") with (38%N :: lit "pn="). 
  change (rev (38%N :: lit "pn=")) with (rev (lit "pn=") ++ [38%N]).
  now rewrite <- !app_assoc.
Qed.

Lemma no_ampersand_after (n : nat) :
  ~ In 38%N (rev (str_of_nat n) ++ rev (lit "pn=")).
Proof.
  intros H. apply in_app_or in H as [H|H].
  - apply in_rev in H. pose proof (uint_chars_digits (Nat.to_uint n)) as Hd.
    rewrite forallb_forall in Hd. apply Hd in H. discriminate H.
  - apply in_rev in H. cbn in H. intuition discriminate.
Qed.

Lemma search_path_inj (pt1 pt2 : str) (n1 n2 : nat) :
  search_path pt1 n1 = search_path pt2 n2 -> pt1 = pt2 /\ n1 = n2.
Proof.
  intros E. apply (f_equal (@rev _)) in E. rewrite !search_path_tail in E.
  apply cut_at_first in E as [E1 E2]; try apply no_ampersand_after.
  apply app_inv_tail in E1, E2. split.
  - rewrite <- (rev_involutive pt1), <- (rev_involutive pt2). now rewrite E2.
  - apply str_of_nat_inj.
    rewrite <- (rev_involutive (str_of_nat n1)), <- (rev_involutive (str_of_nat n2)).
    now rewrite E1.
Qed.

(** X21. The path of a search request names its property type and its
    page: two requests with the same path are for the same page of the
    same property type, whatever the property type is.  So a run never
    asks for the same path twice. *)
Theorem X21_search_path_identifies_page (W : world) (fuel : nat) :
  (forall pt1 pt2 n1 n2,
     search_path pt1 n1 = search_path pt2 n2 -> pt1 = pt2 /\ n1 = n2) /\
  NoDup (map (fun r => search_path (fst r) (snd r))
             (posts (events (main W fuel)))).
Proof.
  split; [exact search_path_inj|]. apply NoDup_map_on.
  - intros [pt1 n1] [pt2 n2] _ _ E. cbn [fst snd] in E.
    apply search_path_inj in E as [-> ->]. reflexivity.
  - rewrite main_posts.
    destruct (scrape_all_posts W fuel property_types initial) as (ks & _ & ->).
    apply NoDup_page_runs. apply property_types_NoDup.
Qed.

End PathExtras.

(** Name the value of a closed computation. *)
Ltac eval_as name X :=
  let y := eval vm_compute in X in
  pose (name := y); assert (X = name) by (exact (@eq_refl _ y <: X = name)).

Lemma X18_how_a_run_ends_witness :
  (exists e, outcome (@main Reference.runtime Reference.empty_world 1) = Raise e /\
             (e = NameError (lit "send_discord_notification")
              \/ e = NameError (lit "df"))) /\
  (exists t, In (EvExcel (lit "zoopla_data.xlsx") t)
                (events (@main Reference.runtime Reference.sample_world 3)) /\
             outcome (@main Reference.runtime Reference.sample_world 3) = Ret tt).
Proof.
  destruct (X18_how_a_run_ends Reference.empty_world 1) as (Hraise & _ & _).
  destruct (X18_how_a_run_ends Reference.sample_world 3) as (_ & Hfile & _).
  split.
  - assert (outcome (@main Reference.runtime Reference.empty_world 1)
            = Raise (NameError (lit "send_discord_notification"))) as E
      by by_evaluation.
    eexists. split; [exact E | exact (Hraise _ E)].
  - eval_as evs (events (@main Reference.runtime Reference.sample_world 3)).
    eval_as t (match last evs (EvSleep 0) with
               | EvExcel _ t => t
               | _ => []
               end).
    assert (In (EvExcel (lit "zoopla_data.xlsx") t)
               (events (@main Reference.runtime Reference.sample_world 3))) as Hin.
    { match goal with E : events _ = evs |- _ => rewrite E end.
      subst evs. cbn [In]. repeat (first [left; reflexivity | right]). }
    exists t. split; [exact Hin|]. now destruct (Hfile _ _ Hin) as (_ & Ho & _).
Defined.

Lemma X20_no_more_records_than_dots_witness :
  length (dict2 (final (@main Reference.runtime Reference.sample_world 3))) = 1 /\
  writes (events (@main Reference.runtime Reference.sample_world 3)) = 1 /\
  1 <= 1.
Proof.
  assert (length (dict2 (final (@main Reference.runtime Reference.sample_world 3)))
          = 1) as E1 by by_evaluation.
  assert (writes (events (@main Reference.runtime Reference.sample_world 3)) = 1)
    as E2 by by_evaluation.
  destruct (X20_no_more_records_than_dots Reference.sample_world 3) as [H _].
  rewrite E1, E2 in H. split; [exact E1|]. split; [exact E2 | exact H].
Defined.

Lemma X21_search_path_identifies_page_witness :
  search_path (lit "flats") 1 <> search_path (lit "flats") 2 /\
  search_path (lit "flats") 12 <> search_path (lit "terraced") 12.
Proof.
  destruct (@X21_search_path_identifies_page Reference.runtime
              Reference.empty_world 1) as [Hinj _].
  split; intros E; apply Hinj in E as [E1 E2]; discriminate.
Defined.
